(** * jax2onnx: the ONNX graph builder and the scatter-input legalizer

  A shallow embedding of
  - [jax2onnx/converter/onnx_builder.py]  (module [Builder]), and
  - [jax2onnx/plugins/jax/lax/scatter_utils.py]  (module [Scatter]),
  followed by the properties proved about them.

  Python objects are modelled by the data they carry.  Mutable objects
  (the builder, the converter) are threaded explicitly: a method that
  mutates [self] is a function from the old object to the new one, and a
  method that may raise returns a [result]. *)

From stdpp Require Import base strings list gmap sorting pretty.
From Stdlib Require Import ZArith Lia.

#[local] Set Warnings "-clear-no-such-hyp".

(** ** Python helpers shared by both modules *)

Module Py.

(** [s.endswith(suffix)] *)
Definition endswith (s suffix : string) : bool :=
  let n := String.length s in
  let m := String.length suffix in
  if (m <=? n)%nat then String.eqb (String.substring (n - m) m s) suffix
  else false.

(** [s.startswith(prefix)] *)
Definition startswith (s prefix : string) : bool := String.prefix prefix s.

(** The truth value of a [str]: the empty string is falsy. *)
Definition truthy (s : string) : bool := negb (String.eqb s "").

(** A [dict] whose keys have decidable equality, kept in insertion order:
    [d.get(k)] and [d[k] = v]. *)
Section Dict.
Context {K V : Type} `{EqDecision K}.

Fixpoint dict_get (d : list (K * V)) (k : K) : option V :=
  match d with
  | [] => None
  | (k', v) :: d' => if decide (k' = k) then Some v else dict_get d' k
  end.

Fixpoint dict_set (d : list (K * V)) (k : K) (v : V) : list (K * V) :=
  match d with
  | [] => [(k, v)]
  | (k', v') :: d' =>
      if decide (k' = k) then (k', v) :: d' else (k', v') :: dict_set d' k v
  end.
End Dict.

(** The order of [str] comparison, and [sorted] on a list of strings. *)
Definition str_le (a b : string) : Prop := String.leb a b = true.

#[global] Instance str_le_dec : RelDecision str_le.
Proof. intros a b. unfold str_le. apply _. Defined.

Definition sorted (l : list string) : list string := merge_sort str_le l.

End Py.

(** ** [onnx_builder.py] *)

Module Builder.
Import Py.

(** *** Shape elements

    A shape element is a Python [int], a [str] (a symbol name, possibly
    empty), [None], or a dimension variable of the tracing framework.  Of
    a dimension variable the builder uses its [str()] and its [symbol]
    attribute. *)
Record DimVar := mkDimVar { dv_str : string; dv_symbol : option string }.

Inductive dim :=
| DInt (z : Z)
| DStr (s : string)
| DNone
| DVar (v : DimVar).

#[global] Instance DimVar_eq_dec : EqDecision DimVar.
Proof. solve_decision. Defined.
#[global] Instance dim_eq_dec : EqDecision dim.
Proof. solve_decision. Defined.

(** [str(dim)] *)
Definition str_of_dim (d : dim) : string :=
  match d with
  | DInt z => pretty z
  | DStr s => s
  | DNone => "None"
  | DVar v => dv_str v
  end.

Definition Shape := option (list dim).

(** [() if shape is None else _as_tuple(shape)], for a [shape] that is
    [None], a tuple or a list. *)
Definition shape_tuple_of (shape : Shape) : list dim :=
  match shape with None => [] | Some l => l end.

(** [d in (-1, None, "")] *)
Definition _is_unknown_dim (d : dim) : bool :=
  match d with
  | DInt z => (z =? -1)%Z
  | DNone => true
  | DStr s => String.eqb s ""
  | DVar _ => false
  end.

(** [d in (-1, None)] *)
Definition in_minus1_None (d : dim) : bool :=
  match d with
  | DInt z => (z =? -1)%Z
  | DNone => true
  | _ => false
  end.

Fixpoint any_refined (old new : list dim) : bool :=
  match old, new with
  | o :: old', n :: new' =>
      if in_minus1_None o && negb (in_minus1_None n) then true
      else any_refined old' new'
  | _, _ => false
  end.

Definition _is_shape_more_specific (old new : list dim) : bool :=
  if negb (length old =? length new)%nat then true
  else any_refined old new.

(** *** Data types *)
Inductive np_type :=
| np_float16 | np_float32 | np_float64
| np_int8 | np_uint8 | np_int16 | np_uint16
| np_int32 | np_uint32 | np_int64 | np_uint64 | np_bool.

Inductive dtype :=
| DtOnnx (e : Z)        (* an [int]: a [TensorProto] enum value *)
| DtNp (t : np_type)    (* [np.float32] or [np.dtype("float32")], ... *)
| DtPyBool              (* the Python type [bool] *)
| DtName (s : string).  (* a string such as ["int64"] *)

Module TensorProto.
Definition FLOAT : Z := 1.
Definition UINT8 : Z := 2.
Definition INT8 : Z := 3.
Definition UINT16 : Z := 4.
Definition INT16 : Z := 5.
Definition INT32 : Z := 6.
Definition INT64 : Z := 7.
Definition BOOL : Z := 9.
Definition DOUBLE : Z := 11.
Definition UINT32 : Z := 12.
Definition UINT64 : Z := 13.
End TensorProto.

(** [ONNX_DTYPE_MAP.get(dtype, TensorProto.FLOAT)] *)
Definition ONNX_DTYPE_MAP_get (d : dtype) : Z :=
  match d with
  | DtNp np_float32 => TensorProto.FLOAT
  | DtNp np_float64 => TensorProto.DOUBLE
  | DtNp np_int8 => TensorProto.INT8
  | DtNp np_uint8 => TensorProto.UINT8
  | DtNp np_int16 => TensorProto.INT16
  | DtNp np_uint16 => TensorProto.UINT16
  | DtNp np_int32 => TensorProto.INT32
  | DtNp np_uint32 => TensorProto.UINT32
  | DtNp np_int64 => TensorProto.INT64
  | DtNp np_uint64 => TensorProto.UINT64
  | DtNp np_bool => TensorProto.BOOL
  | DtPyBool => TensorProto.BOOL
  | DtName s =>
      if String.eqb s "int64" then TensorProto.INT64
      else if String.eqb s "bool" then TensorProto.BOOL
      else TensorProto.FLOAT
  | _ => TensorProto.FLOAT
  end.

(** *** Protocol-buffer messages, reduced to the fields the builder uses

    An integer stored in a message field is taken to lie in the range of
    the field. *)
Inductive DimProto :=
| dim_value (v : Z)
| dim_param (p : string).

Record ValueInfoProto := mkValueInfo {
  vi_name : string;
  vi_elem_type : Z;
  vi_shape : list DimProto;
  vi_doc_string : string
}.

Record TensorProto := mkTensor {
  init_name : string;
  init_data_type : Z;
  init_dims : list Z
}.

(** A node; a graph-valued attribute is kept as the node list of its
    graph ([attr.g.node], [g.node for g in attr.graphs]). *)
Inductive NodeProto :=
| mkNode (name op_type : string) (input output : list string)
         (attribute : list AttributeProto)
with AttributeProto :=
| AttrGraph (g_node : list NodeProto)
| AttrGraphs (graphs : list (list NodeProto))
| AttrOther.

Definition node_name (n : NodeProto) : string :=
  let 'mkNode nm _ _ _ _ := n in nm.
Definition node_op_type (n : NodeProto) : string :=
  let 'mkNode _ op _ _ _ := n in op.
Definition node_input (n : NodeProto) : list string :=
  let 'mkNode _ _ i _ _ := n in i.
Definition node_output (n : NodeProto) : list string :=
  let 'mkNode _ _ _ o _ := n in o.
Definition node_attribute (n : NodeProto) : list AttributeProto :=
  let 'mkNode _ _ _ _ a := n in a.

Record FunctionProto := mkFunction {
  fn_name : string;
  fn_node : list NodeProto
}.

Record GraphProto := mkGraph {
  g_nodes : list NodeProto;
  g_name : string;
  g_inputs : list ValueInfoProto;
  g_outputs : list ValueInfoProto;
  g_initializer : list TensorProto;
  g_value_info : list ValueInfoProto
}.

(** *** The converter, as far as the builder looks into it

    [None] for an attribute stands for "the attribute is absent"
    ([hasattr] is false, [getattr(..., None)] is [None]). *)
Record Converter := mkConverter {
  symbolic_shapes : option (gmap string (list dim));
  symbolic_dim_to_origin : option (list (dim * (string * nat)))
}.

(** *** The builder object

    The fields of [OnnxBuilder.__init__] that the methods below read or
    write, and [initializers_by_name], an attribute created on first use
    by the input filters ([None] until then). *)
Record OnnxBuilder := mkBuilder {
  var_to_symbol_map : list (dim * string);
  nodes : list NodeProto;
  inputs : list ValueInfoProto;
  outputs : list ValueInfoProto;
  initializers : list TensorProto;
  value_info : list ValueInfoProto;
  functions : list (string * FunctionProto);
  model_name : string;
  value_info_metadata : gmap string (list dim * dtype);
  value_info_metadata_with_origin : gmap string (list dim * dtype * string);
  dtype_env : gmap string dtype;
  value_info_origin : gmap string string;
  converter : option Converter;
  initializers_by_name : option (list string)
}.

(** [OnnxBuilder(name_generator, model_name=..., initializers=..., converter=...)] *)
Definition __init__ (model_name : string) (initializers : option (list TensorProto))
    (converter : option Converter) : OnnxBuilder :=
  {| var_to_symbol_map := [];
     nodes := [];
     inputs := [];
     outputs := [];
     initializers := default [] initializers;
     value_info := [];
     functions := [];
     model_name := model_name;
     value_info_metadata := ∅;
     value_info_metadata_with_origin := ∅;
     dtype_env := ∅;
     value_info_origin := ∅;
     converter := converter;
     initializers_by_name := None |}.

(** Field updates. *)
Definition set_nodes (v : list NodeProto) (b : OnnxBuilder) : OnnxBuilder :=
  mkBuilder (var_to_symbol_map b) v (inputs b) (outputs b) (initializers b)
    (value_info b) (functions b) (model_name b) (value_info_metadata b)
    (value_info_metadata_with_origin b) (dtype_env b) (value_info_origin b)
    (converter b) (initializers_by_name b).
Definition set_inputs (v : list ValueInfoProto) (b : OnnxBuilder) : OnnxBuilder :=
  mkBuilder (var_to_symbol_map b) (nodes b) v (outputs b) (initializers b)
    (value_info b) (functions b) (model_name b) (value_info_metadata b)
    (value_info_metadata_with_origin b) (dtype_env b) (value_info_origin b)
    (converter b) (initializers_by_name b).
Definition set_outputs (v : list ValueInfoProto) (b : OnnxBuilder) : OnnxBuilder :=
  mkBuilder (var_to_symbol_map b) (nodes b) (inputs b) v (initializers b)
    (value_info b) (functions b) (model_name b) (value_info_metadata b)
    (value_info_metadata_with_origin b) (dtype_env b) (value_info_origin b)
    (converter b) (initializers_by_name b).
Definition set_initializers (v : list TensorProto) (b : OnnxBuilder) : OnnxBuilder :=
  mkBuilder (var_to_symbol_map b) (nodes b) (inputs b) (outputs b) v
    (value_info b) (functions b) (model_name b) (value_info_metadata b)
    (value_info_metadata_with_origin b) (dtype_env b) (value_info_origin b)
    (converter b) (initializers_by_name b).
Definition set_value_info (v : list ValueInfoProto) (b : OnnxBuilder) : OnnxBuilder :=
  mkBuilder (var_to_symbol_map b) (nodes b) (inputs b) (outputs b) (initializers b)
    v (functions b) (model_name b) (value_info_metadata b)
    (value_info_metadata_with_origin b) (dtype_env b) (value_info_origin b)
    (converter b) (initializers_by_name b).
Definition set_metadata (m : gmap string (list dim * dtype))
    (mo : gmap string (list dim * dtype * string)) (b : OnnxBuilder) : OnnxBuilder :=
  mkBuilder (var_to_symbol_map b) (nodes b) (inputs b) (outputs b) (initializers b)
    (value_info b) (functions b) (model_name b) m mo (dtype_env b)
    (value_info_origin b) (converter b) (initializers_by_name b).
Definition set_dtype_env (v : gmap string dtype) (b : OnnxBuilder) : OnnxBuilder :=
  mkBuilder (var_to_symbol_map b) (nodes b) (inputs b) (outputs b) (initializers b)
    (value_info b) (functions b) (model_name b) (value_info_metadata b)
    (value_info_metadata_with_origin b) v (value_info_origin b)
    (converter b) (initializers_by_name b).
Definition set_converter (v : option Converter) (b : OnnxBuilder) : OnnxBuilder :=
  mkBuilder (var_to_symbol_map b) (nodes b) (inputs b) (outputs b) (initializers b)
    (value_info b) (functions b) (model_name b) (value_info_metadata b)
    (value_info_metadata_with_origin b) (dtype_env b) (value_info_origin b)
    v (initializers_by_name b).
Definition set_initializers_by_name (v : option (list string)) (b : OnnxBuilder)
    : OnnxBuilder :=
  mkBuilder (var_to_symbol_map b) (nodes b) (inputs b) (outputs b) (initializers b)
    (value_info b) (functions b) (model_name b) (value_info_metadata b)
    (value_info_metadata_with_origin b) (dtype_env b) (value_info_origin b)
    (converter b) v.

(** *** Exceptions and results

    The two [RuntimeError]s of graph construction, with the values that
    their messages interpolate. *)
Inductive error :=
| NotTopologicallySorted (node_name op_type inp : string)
| MissingValueInfo (missing : list string) (graph_name : string).

Inductive result (A : Type) :=
| Ok (a : A)
| Raise (e : error).
Arguments Ok {A} a.
Arguments Raise {A} e.

(** *** Symbol resolution and value infos *)

(** [_resolve_symbol(obj, dim)] on a builder, which always has a
    [var_to_symbol_map]. *)
Definition _resolve_symbol (b : OnnxBuilder) (d : dim) : string :=
  let resolved :=
    match dict_get (var_to_symbol_map b) d with
    | Some r => Some r
    | None => dict_get (var_to_symbol_map b) (DStr (str_of_dim d))
    end in
  match resolved with
  | Some r => if truthy r then r else str_of_dim d
  | None => str_of_dim d
  end.

Definition elem_type_of (dt : dtype) : Z :=
  match dt with
  | DtOnnx e => e
  | _ => ONNX_DTYPE_MAP_get dt
  end.

Definition make_value_info (b : OnnxBuilder) (name : string) (shape : Shape)
    (dt : dtype) : ValueInfoProto :=
  {| vi_name := name;
     vi_elem_type := elem_type_of dt;
     vi_shape :=
       map (fun d => match d with
                     | DInt z => dim_value z
                     | _ => dim_param (_resolve_symbol b d)
                     end) (shape_tuple_of shape);
     vi_doc_string := "" |}.

(** [self.value_info_metadata[name] = (shape_tuple, dtype)], and the same
    with the origin.  The shape looked up in the converter's
    [symbolic_shapes] is bound to the local [shape], which is not what is
    stored. *)
Definition register_value_info_metadata (name : string) (shape : Shape)
    (dt : dtype) (origin : option string) (b : OnnxBuilder) : OnnxBuilder :=
  let shape_tuple := shape_tuple_of shape in
  let shape :=
    match converter b with
    | Some sym =>
        match symbolic_shapes sym with
        | Some shapes =>
            match shapes !! name with Some sh => Some sh | None => shape end
        | None => shape
        end
    | None => shape
    end in
  let origin_or_traced :=
    match origin with
    | Some o => if truthy o then o else "traced"
    | None => "traced"
    end in
  set_metadata
    (<[name := (shape_tuple, dt)]> (value_info_metadata b))
    (<[name := (shape_tuple, dt, origin_or_traced)]>
       (value_info_metadata_with_origin b))
    b.

(** [_register_symbol_origin(dim, tensor_name, axis)] *)
Definition _register_symbol_origin (d : dim) (tensor_name : string) (axis : nat)
    (b : OnnxBuilder) : OnnxBuilder :=
  match converter b with
  | None => b
  | Some conv =>
      let mapping := default [] (symbolic_dim_to_origin conv) in
      let mapping := dict_set mapping d (tensor_name, axis) in
      let mapping := dict_set mapping (DStr (str_of_dim d)) (tensor_name, axis) in
      set_converter
        (Some {| symbolic_shapes := symbolic_shapes conv;
                 symbolic_dim_to_origin := Some mapping |}) b
  end.

(** [for axis, dim in enumerate(shape): if not isinstance(dim, int):
    self._register_symbol_origin(dim, name, axis)] *)
Fixpoint register_symbol_origins (name : string) (axis : nat) (shape : list dim)
    (b : OnnxBuilder) : OnnxBuilder :=
  match shape with
  | [] => b
  | d :: rest =>
      let b' := match d with
                | DInt _ => b
                | _ => _register_symbol_origin d name axis b
                end in
      register_symbol_origins name (S axis) rest b'
  end.

Definition add_value_info (name : string) (shape : Shape) (dt : dtype)
    (b : OnnxBuilder) : OnnxBuilder :=
  let shape_tuple := shape_tuple_of shape in
  let shape_tuple :=
    match converter b with
    | Some sym =>
        match symbolic_shapes sym with
        | Some shapes => default shape_tuple (shapes !! name)
        | None => shape_tuple
        end
    | None => shape_tuple
    end in
  let vi := make_value_info b name (Some shape_tuple) dt in
  let vi :=
    match value_info_origin b !! name with
    | Some origin =>
        if truthy origin
        then mkValueInfo (vi_name vi) (vi_elem_type vi) (vi_shape vi)
               ("origin: " +:+ origin)
        else vi
    | None => vi
    end in
  let b := set_value_info (value_info b ++ [vi]) b in
  let onnx_dtype := DtOnnx (match dt with DtOnnx e => e | _ => vi_elem_type vi end) in
  let b := register_value_info_metadata name (Some shape_tuple) onnx_dtype None b in
  register_symbol_origins name 0 shape_tuple b.

(** [_add_tensor(self.inputs, ...)] and [_add_tensor(self.outputs, ...)] *)
Definition _add_tensor_inputs (name : string) (shape : Shape) (dt : dtype)
    (b : OnnxBuilder) : OnnxBuilder :=
  set_inputs (inputs b ++ [make_value_info b name (Some (shape_tuple_of shape)) dt]) b.

Definition _add_tensor_outputs (name : string) (shape : Shape) (dt : dtype)
    (b : OnnxBuilder) : OnnxBuilder :=
  set_outputs (outputs b ++ [make_value_info b name (Some (shape_tuple_of shape)) dt]) b.

(** [any(name in n.output for n in self.nodes)] *)
Definition produced_by_node (name : string) (b : OnnxBuilder) : bool :=
  existsb (fun n => bool_decide (name ∈ node_output n)) (nodes b).

(** [any(vi.name == name for vi in vis)] *)
Definition declared_in (name : string) (vis : list ValueInfoProto) : bool :=
  existsb (fun vi => String.eqb (vi_name vi) name) vis.

Definition add_input (name : string) (shape : Shape) (dt : dtype)
    (b : OnnxBuilder) : OnnxBuilder :=
  if produced_by_node name b then add_value_info name shape dt b
  else if declared_in name (inputs b) then b
  else
    let b := set_dtype_env (<[name := dt]> (dtype_env b)) b in
    let b := _add_tensor_inputs name shape dt b in
    match shape with
    | Some sh => register_symbol_origins name 0 sh b
    | None => b
    end.

(** [add_output] returns [name]; the model keeps the builder only. *)
Definition add_output (name : string) (shape : Shape) (dt : dtype)
    (b : OnnxBuilder) : OnnxBuilder :=
  if declared_in name (outputs b) then b
  else
    let b := set_dtype_env (<[name := dt]> (dtype_env b)) b in
    let b := _add_tensor_outputs name shape dt b in
    match shape with
    | Some sh => register_symbol_origins name 0 sh b
    | None => b
    end.

Definition add_node (n : NodeProto) (b : OnnxBuilder) : OnnxBuilder :=
  set_nodes (nodes b ++ [n]) b.

(** [add_scalar_input(name, dtype)], with [dtype] an [int] enum; it returns
    [name]. *)
Definition add_scalar_input (name : string) (dt : Z) (b : OnnxBuilder)
    : OnnxBuilder :=
  let shape : Shape := Some [] in
  let value_info := make_value_info b name shape (DtOnnx dt) in
  let b := set_inputs (inputs b ++ [value_info]) b in
  register_value_info_metadata name shape (DtOnnx dt) (Some "call_parameter") b.

(** *** Finalization *)

(** [{inp for node in ns for inp in node.input}] *)
Definition node_inputs_set (ns : list NodeProto) : gset string :=
  list_to_set (concat (map node_input ns)).

Definition filter_unused_initializers (b : OnnxBuilder) : OnnxBuilder :=
  let used_inputs :=
    node_inputs_set (nodes b)
    ∪ node_inputs_set (concat (map (fun kf => fn_node kf.2) (functions b))) in
  set_initializers
    (filter (fun init => init_name init ∈ used_inputs) (initializers b)) b.

(** The inner loop of [_assert_topologically_sorted]: the inputs of one
    node against the tensors available so far. *)
Fixpoint check_node_inputs (available_tensors : gset string) (node : NodeProto)
    (ins : list string) : result unit :=
  match ins with
  | [] => Ok tt
  | inp :: rest =>
      if truthy inp && negb (bool_decide (inp ∈ available_tensors))
      then Raise (NotTopologicallySorted (node_name node) (node_op_type node) inp)
      else check_node_inputs available_tensors node rest
  end.

(** The outer loop: the nodes in stored order. *)
Fixpoint check_nodes (available_tensors : gset string) (ns : list NodeProto)
    : result unit :=
  match ns with
  | [] => Ok tt
  | node :: rest =>
      match check_node_inputs available_tensors node (node_input node) with
      | Raise e => Raise e
      | Ok _ =>
          check_nodes (available_tensors ∪ list_to_set (node_output node)) rest
      end
  end.

(** The tensors available before the first node. *)
Definition initially_available (b : OnnxBuilder) : gset string :=
  list_to_set (map vi_name (inputs b)) ∪ list_to_set (map init_name (initializers b)).

Definition _assert_topologically_sorted (b : OnnxBuilder) : result unit :=
  check_nodes (initially_available b) (nodes b).

Definition non_empty (l : list string) : list string := filter (fun t => truthy t) l.

Definition _filter_unused_inputs (b : OnnxBuilder) : OnnxBuilder :=
  let used_names : gset string :=
    node_inputs_set (nodes b)
    ∪ list_to_set (map vi_name (outputs b))
    ∪ list_to_set (map init_name (initializers b)) in
  let b := set_initializers_by_name (Some (map init_name (initializers b))) b in
  set_inputs (filter (fun vi => vi_name vi ∈ used_names) (inputs b)) b.

(** The inputs of the nodes of the subgraphs held by one attribute. *)
Definition attribute_inputs (attr : AttributeProto) : list string :=
  match attr with
  | AttrGraph g_node => concat (map (fun sub_node => non_empty (node_input sub_node)) g_node)
  | AttrGraphs graphs =>
      concat (map (fun g => concat (map (fun sub_node => non_empty (node_input sub_node)) g))
                graphs)
  | AttrOther => []
  end.

Definition _filter_redundant_inputs (b : OnnxBuilder) : OnnxBuilder :=
  let node_in : gset string :=
    list_to_set
      (concat (map (fun n => non_empty (node_input n)
                             ++ concat (map attribute_inputs (node_attribute n)))
                 (nodes b))) in
  let node_out : gset string :=
    list_to_set (concat (map (fun n => non_empty (node_output n)) (nodes b))) in
  let b :=
    match initializers_by_name b with
    | Some _ => b
    | None => set_initializers_by_name (Some (map init_name (initializers b))) b
    end in
  let inits : gset string := list_to_set (default [] (initializers_by_name b)) in
  let g_outs : gset string := list_to_set (map vi_name (outputs b)) in
  set_inputs
    (filter (fun vi =>
               (vi_name vi ∈ node_in ∨ vi_name vi ∈ g_outs)
               ∧ (vi_name vi ∉ node_out)
               ∧ (vi_name vi ∉ inits))
       (inputs b)) b.

(** [known_names] and [node_names] of [find_missing_value_info]. *)
Definition known_names (b : OnnxBuilder) : gset string :=
  list_to_set (map vi_name (inputs b ++ outputs b ++ value_info b))
  ∪ list_to_set (map init_name (initializers b)).

Definition node_names (b : OnnxBuilder) : gset string :=
  list_to_set (concat (map (fun n => node_input n ++ node_output n) (nodes b))).

(** [sorted(name for name in node_names if name not in known_names)]; the
    result does not depend on the order in which the set is enumerated. *)
Definition find_missing_value_info (b : OnnxBuilder) : list string :=
  sorted (filter (fun name => name ∉ known_names b) (elements (node_names b))).

Definition is_deterministic_name (name : string) : bool :=
  endswith name "_deterministic" || String.eqb name "deterministic".

(** [_register_deterministic_parameters(missing_names)]: the builder after
    the registrations, and the names still missing. *)
Fixpoint _register_deterministic_parameters (missing_names : list string)
    (b : OnnxBuilder) : OnnxBuilder * list string :=
  match missing_names with
  | [] => (b, [])
  | name :: rest =>
      if is_deterministic_name name then
        let b := register_value_info_metadata name (Some []) (DtOnnx TensorProto.BOOL)
                   (Some "auto-registered deterministic flag") b in
        let b := add_value_info name (Some []) (DtOnnx TensorProto.BOOL) b in
        _register_deterministic_parameters rest b
      else
        let '(b', remaining_missing) := _register_deterministic_parameters rest b in
        (b', name :: remaining_missing)
  end.

(** [_build_graph(name, is_subgraph, empty_inputs)]: the builder as the call
    leaves it, and the graph or the exception. *)
Definition _build_graph (name : option string) (is_subgraph empty_inputs : bool)
    (b : OnnxBuilder) : OnnxBuilder * result GraphProto :=
  let name :=
    match name with
    | Some n => if truthy n then n else model_name b
    | None => model_name b
    end in
  let b := filter_unused_initializers b in
  match _assert_topologically_sorted b with
  | Raise e => (b, Raise e)
  | Ok _ =>
      let b := if is_subgraph then b else _filter_redundant_inputs b in
      let missing := find_missing_value_info b in
      let '(b, missing) :=
        match missing with
        | [] => (b, missing)
        | _ => _register_deterministic_parameters missing b
        end in
      let missing :=
        filter (fun m => negb (startswith m "conv_transpose_out")) missing in
      match missing with
      | _ :: _ => (b, Raise (MissingValueInfo missing name))
      | [] =>
          let final_inputs := if empty_inputs then [] else inputs b in
          (b, Ok {| g_nodes := nodes b;
                    g_name := name;
                    g_inputs := final_inputs;
                    g_outputs := outputs b;
                    g_initializer := initializers b;
                    g_value_info := value_info b |})
      end
  end.

Definition create_graph (name : string) (is_subgraph empty_inputs : bool)
    (b : OnnxBuilder) : OnnxBuilder * result GraphProto :=
  _build_graph (Some name) is_subgraph empty_inputs b.

(** *** Looking metadata up, and merging it *)

(** The [ValueError] of [get_shape_dtype]. *)
Inductive ValueError :=
| VariableNotFound (var_name : string).

Definition get_shape_dtype (var_name : string) (b : OnnxBuilder)
    : ValueError + (list dim * dtype) :=
  match value_info_metadata b !! var_name with
  | None => inl (VariableNotFound var_name)
  | Some metadata => inr metadata
  end.

(** [get_value_info_metadata_with_origin(name)]: shape, dtype and origin, the
    origin being [None] when only [value_info_metadata] knows the name. *)
Definition get_value_info_metadata_with_origin (name : string) (b : OnnxBuilder)
    : option (list dim * dtype * option string) :=
  match value_info_metadata_with_origin b !! name with
  | Some (shape, dt, origin) => Some (shape, dt, Some origin)
  | None =>
      match value_info_metadata b !! name with
      | Some (shape, dt) => Some (shape, dt, None)
      | None => None
      end
  end.

(** [_numpy_dtype_to_onnx(dtype)] *)
Definition _numpy_dtype_to_onnx (dt : dtype) (b : OnnxBuilder) : Z :=
  match dt with
  | DtOnnx e => e
  | _ => vi_elem_type (make_value_info b "dummy" (Some []) dt)
  end.

(** A NumPy array, by its shape and its dtype. *)
Record ndarray := mkArray {
  arr_shape : list Z;
  arr_dtype : np_type
}.

(** [_auto_fix_constant_value_info(name, value)], [value] an array or what
    [np.array(value)] gives. *)
Definition _auto_fix_constant_value_info (name : string) (value : ndarray)
    (b : OnnxBuilder) : OnnxBuilder :=
  match value_info_metadata b !! name with
  | Some _ => b
  | None =>
      let shape := map DInt (arr_shape value) in
      let onnx_dtype := _numpy_dtype_to_onnx (DtNp (arr_dtype value)) b in
      register_value_info_metadata name (Some shape) (DtOnnx onnx_dtype) None b
  end.

(** [merge_value_info_metadata_from(other)]: the loop over
    [other.value_info_metadata.items()]; what it leaves does not depend on
    the order in which the items come. *)
Definition merge_value_info_metadata_from (other b : OnnxBuilder) : OnnxBuilder :=
  set_metadata
    (fold_left
       (fun m item =>
          match m !! item.1 with
          | None => <[item.1 := item.2]> m
          | Some existing => m
          end)
       (map_to_list (value_info_metadata other)) (value_info_metadata b))
    (value_info_metadata_with_origin b) b.

(** *** Functions and the model *)

Definition set_functions (v : list (string * FunctionProto)) (b : OnnxBuilder)
    : OnnxBuilder :=
  mkBuilder (var_to_symbol_map b) (nodes b) (inputs b) (outputs b) (initializers b)
    (value_info b) v (model_name b) (value_info_metadata b)
    (value_info_metadata_with_origin b) (dtype_env b) (value_info_origin b)
    (converter b) (initializers_by_name b).

(** [for name, func in other.functions.items():
       if name not in self.functions: self.functions[name] = func] *)
Definition merge_functions_from (other b : OnnxBuilder) : OnnxBuilder :=
  set_functions
    (fold_left
       (fun fs item =>
          match dict_get fs item.1 with
          | None => dict_set fs item.1 item.2
          | Some _ => fs
          end)
       (functions other) (functions b)) b.

(** The same loop, with a warning for the names that are skipped. *)
Definition _propagate_nested_functions (sub_builder b : OnnxBuilder) : OnnxBuilder :=
  set_functions
    (fold_left
       (fun fs item =>
          match dict_get fs item.1 with
          | None => dict_set fs item.1 item.2
          | Some _ => fs
          end)
       (functions sub_builder) (functions b)) b.

Definition CUSTOM_DOMAIN : string := "custom".
Definition CUSTOM_DOMAIN_VERSION : Z := 1.

Record ModelProto := mkModel {
  m_graph : GraphProto;
  m_opset_import : list (string * Z);
  m_functions : list FunctionProto
}.

(** [list({f.name: f for f in self.functions.values()}.values())] *)
Definition unique_function_protos (b : OnnxBuilder) : list FunctionProto :=
  map snd
    (fold_left (fun d f => dict_set d (fn_name f) f) (map snd (functions b)) []).

(** The set [duplicates] that [_finalize_model] collects from the names of
    [unique_function_protos], and warns about when it is not empty. *)
Definition duplicate_function_names (b : OnnxBuilder) : gset string :=
  (fold_left
     (fun (acc : gset string * gset string) n =>
        let '(seen, duplicates) := acc in
        ({[n]} ∪ seen, if decide (n ∈ seen) then {[n]} ∪ duplicates else duplicates))
     (map fn_name (unique_function_protos b)) (∅, ∅)).2.

(** [_finalize_model(graph)]; [opset] is [self.opset], which the constructor
    sets and no method writes. *)
Definition _finalize_model (opset : Z) (graph : GraphProto) (b : OnnxBuilder)
    : ModelProto :=
  let opset_imports :=
    ("", opset)
    :: match functions b with
       | [] => []
       | _ => [(CUSTOM_DOMAIN, CUSTOM_DOMAIN_VERSION)]
       end in
  {| m_graph := graph;
     m_opset_import := opset_imports;
     m_functions := unique_function_protos b |}.

Definition create_model (opset : Z) (graph : GraphProto) (b : OnnxBuilder)
    : ModelProto :=
  _finalize_model opset graph b.

Definition create_onnx_model (opset : Z) (model_name : string) (b : OnnxBuilder)
    : OnnxBuilder * result ModelProto :=
  match _build_graph (Some model_name) false false b with
  | (b, Ok graph) => (b, Ok (_finalize_model opset graph b))
  | (b, Raise e) => (b, Raise e)
  end.

(** *** Dynamic batch dimensions *)

(** [dim == "B"] *)
Definition is_B (d : dim) : bool :=
  match d with
  | DStr s => String.eqb s "B"
  | _ => false
  end.

(** [{idx for shape in input_shapes for idx, dim in enumerate(shape)
      if dim == "B"}] *)
Definition batch_dims_of (input_shapes : list (list dim)) : gset nat :=
  list_to_set
    (concat (map (fun shape =>
                    map fst (filter (fun p => is_B p.2) (imap pair shape)))
               input_shapes)).

(** [tensor_dims[idx].ClearField("dim_value"); tensor_dims[idx].dim_param = "B"] *)
Definition make_dynamic (idx : nat) (tensor_dims : list DimProto) : list DimProto :=
  <[idx := dim_param "B"]> tensor_dims.

(** [_adjust_tensor_shape(tensor, shape_hint, batch_dims)]; a value info of
    the builder has a tensor type, and without a shape it has no dimension to
    adjust. *)
Definition _adjust_tensor_shape (tensor : ValueInfoProto) (shape_hint : list dim)
    (batch_dims : gset nat) : ValueInfoProto :=
  let tensor_dims := vi_shape tensor in
  let num_tensor_dims := length tensor_dims in
  let tensor_dims :=
    fold_left
      (fun dims hint =>
         if (hint.1 <? num_tensor_dims)%nat && is_B hint.2
         then make_dynamic hint.1 dims else dims)
      (imap pair shape_hint) tensor_dims in
  let tensor_dims :=
    fold_left
      (fun dims idx =>
         if (idx <? num_tensor_dims)%nat then make_dynamic idx dims else dims)
      (elements batch_dims) tensor_dims in
  mkValueInfo (vi_name tensor) (vi_elem_type tensor) tensor_dims (vi_doc_string tensor).

(** Does the input have dimensions? *)
Definition has_dims (inp : ValueInfoProto) : bool :=
  match vi_shape inp with [] => false | _ => true end.

(** The loop over [enumerate(tensor_inputs)], run along [self.inputs]: [i]
    counts the inputs with dimensions met so far. *)
Fixpoint adjust_tensor_inputs (input_shapes : list (list dim)) (batch_dims : gset nat)
    (i : nat) (inps : list ValueInfoProto) : list ValueInfoProto :=
  match inps with
  | [] => []
  | inp :: rest =>
      if has_dims inp then
        match input_shapes !! i with
        | Some shape_hint => _adjust_tensor_shape inp shape_hint batch_dims
        | None => inp
        end :: adjust_tensor_inputs input_shapes batch_dims (S i) rest
      else inp :: adjust_tensor_inputs input_shapes batch_dims i rest
  end.

Definition adjust_dynamic_batch_dimensions (input_shapes : list (list dim))
    (b : OnnxBuilder) : OnnxBuilder :=
  let batch_dims := batch_dims_of input_shapes in
  if decide (batch_dims = ∅) then b
  else
    let b := set_inputs (adjust_tensor_inputs input_shapes batch_dims 0 (inputs b)) b in
    let b := set_outputs
               (map (fun tensor => _adjust_tensor_shape tensor [] batch_dims)
                  (outputs b)) b in
    set_value_info
      (map (fun value_info => _adjust_tensor_shape value_info [] batch_dims)
         (value_info b)) b.

(** *** [reset]

    The lists and dictionaries that [reset] empties; [var_to_symbol_map],
    [model_name], [converter] and [initializers_by_name] are not among
    them. *)
Definition reset (b : OnnxBuilder) : OnnxBuilder :=
  {| var_to_symbol_map := var_to_symbol_map b;
     nodes := [];
     inputs := [];
     outputs := [];
     initializers := [];
     value_info := [];
     functions := [];
     model_name := model_name b;
     value_info_metadata := ∅;
     value_info_metadata_with_origin := ∅;
     dtype_env := ∅;
     value_info_origin := ∅;
     converter := converter b;
     initializers_by_name := initializers_by_name b |}.

End Builder.

(** ** [scatter_utils.py] *)

Module Scatter.
Import Py.

(** *** Shape elements

    A shape element is a Python [int], a NumPy integer scalar, or any other
    object (a symbolic dimension of the tracing framework, a string, a
    [Literal]).  Of such an object the legalizer uses: its identity (the
    [is] operator), what [int(obj)] does, whether it is a [Literal] with an
    [int] attribute [val], and whether [obj == 1]. *)
Inductive int_result :=
| IntOk (z : Z)
| IntValueError
| IntTypeError.

Record PyObj := mkObj {
  obj_id : positive;
  obj_int : int_result;
  obj_literal_val : option Z;
  obj_eq_1 : bool
}.

Inductive dim :=
| DInt (z : Z)
| DNpInt (z : Z)
| DObj (o : PyObj).

(** [isinstance(d, int)] *)
Definition is_py_int (d : dim) : bool :=
  match d with DInt _ => true | _ => false end.

(** [jax.lax.ScatterDimensionNumbers]; its entries are dimension numbers,
    which are not negative. *)
Record ScatterDimensionNumbers := mkDnums {
  update_window_dims : list nat;
  inserted_window_dims : list nat;
  scatter_dims_to_operand_dims : list nat;
  operand_batching_dims : list nat;
  scatter_indices_batching_dims : list nat
}.

(** *** Exceptions

    The [ValueError]s of this file carry the values their messages
    interpolate; the last three are what [int(obj)], a converter hook and an
    index out of range raise. *)
Inductive error :=
| CannotMakeConcrete (context_msg : string) (shp : list dim) (dim_val : dim) (i : nat)
| CannotCreateReshapeTarget (target : list dim) (cause : error)
| IndicesDepthNegative (k : Z)
| IndicesDepthExceedsRank (k : Z) (operand_rank : nat)
| IndicesDepthNotConcrete (k : dim)
| UpdatesElementCountMismatch
    (original_updates_shape : list dim) (original_nelem : Z)
    (expected_updates_shape : list dim) (expected_nelem : Z)
    (operand_name : string) (operand_shape : list dim)
    (indices_name : string) (indices_shape : list dim)
    (dimension_numbers : ScatterDimensionNumbers)
| CouldNotPrepareUpdates
    (cause : error)
    (operand_name : string) (operand_shape : list dim)
    (indices_name : string) (indices_shape : list dim)
    (dimension_numbers : ScatterDimensionNumbers)
| IntRaisedValueError (d : dim)
| IntRaisedTypeError (d : dim)
| HookRaised (d : dim)
| IndexError.

(** [isinstance(e, ValueError)] *)
Definition is_ValueError (e : error) : bool :=
  match e with
  | IntRaisedTypeError _ | HookRaised _ | IndexError => false
  | _ => true
  end.

Inductive result (A : Type) :=
| Ok (a : A)
| Raise (e : error).
Arguments Ok {A} a.
Arguments Raise {A} e.

Definition rbind {A B} (m : result A) (f : A -> result B) : result B :=
  match m with Ok a => f a | Raise e => Raise e end.

Notation "'let?' x ':=' m 'in' k" := (rbind m (fun x => k))
  (at level 10, x name, m at level 100, k at level 200).

(** [try: m  except ValueError: handler] on a computation without effect. *)
Definition try_except_ValueError {A} (m : result A) (handler : error -> result A)
    : result A :=
  match m with
  | Ok a => Ok a
  | Raise e => if is_ValueError e then handler e else Raise e
  end.

(** *** The converter

    The object [s] that every function of this file receives; its class is
    defined outside this file.  It is modelled in two parts.  The first
    holds the three optional methods that the legalizer probes with
    [hasattr] ([None]: the method is absent; [is_symbolic_dim] or
    [_dim_to_symbol_safe] returning [None]: the call raises).  The second
    is the state that [get_unique_name], [get_constant_name], [add_node],
    [add_shape_info] and [shape_env] read and write. *)
Inductive Constant :=
| ConstScalar (v : Z)
| ConstVector (vs : list Z).

Record NodeProto := mkNode {
  op_type : string;
  input : list string;
  output : list string;
  attrs : list (string * Z)
}.

Definition ShapeDtypeStruct : Type := list dim * Builder.np_type.

Record Jaxpr2OnnxConverter := mkConverter {
  is_symbolic_dim : option (dim -> option bool);
  get_concrete_value_from_symbolic_dim : option (dim -> option Z);
  _dim_to_symbol_safe : option (dim -> option dim)
}.

Record ConverterState := mkState {
  name_counters : gmap string nat;
  nodes : list NodeProto;
  constants : list (string * Constant);
  shape_info : gmap string ShapeDtypeStruct;
  shape_env : gmap string ShapeDtypeStruct
}.

(** A computation that changes the state of the converter and may raise:
    the state as the computation leaves it, and the value or the
    exception. *)
Definition M (A : Type) : Type :=
  ConverterState -> ConverterState * result A.

Definition ret {A} (a : A) : M A := fun st => (st, Ok a).
Definition bind {A B} (m : M A) (f : A -> M B) : M B :=
  fun st =>
    match m st with
    | (st', Ok a) => f a st'
    | (st', Raise e) => (st', Raise e)
    end.

Notation "'do' x '<-' m ';' k" := (bind m (fun x => k))
  (at level 10, x name, m at level 100, k at level 200).
Notation "'do' '_' '<-' m ';' k" := (bind m (fun _ => k))
  (at level 10, m at level 100, k at level 200).

Definition lift {A} (r : result A) : M A := fun st => (st, r).
Definition raise {A} (e : error) : M A := fun st => (st, Raise e).
Definition modify (f : ConverterState -> ConverterState) : M unit :=
  fun st => (f st, Ok tt).

(** [try: m  except ValueError as ve: handler(ve)] *)
Definition try_except {A} (m : M A) (handler : error -> M A) : M A :=
  fun st =>
    match m st with
    | (st', Ok a) => (st', Ok a)
    | (st', Raise e) => if is_ValueError e then handler e st' else (st', Raise e)
    end.

(** Modelled from the spec: the name allocator behind [s.get_unique_name],
    whose class is defined outside this file, "issues unique, human-readable
    identifiers", "stateless beyond a counter per prefix". *)
Definition get_unique_name (prefix : string) : M string :=
  fun st =>
    let n := default 0%nat (name_counters st !! prefix) in
    (mkState (<[prefix := S n]> (name_counters st)) (nodes st) (constants st)
       (shape_info st) (shape_env st),
     Ok (prefix +:+ "_" +:+ pretty n)).

(** Modelled from the spec: [s.add_node(node)], defined outside this file,
    "appends to the node list; no ordering check at call time". *)
Definition add_node (node : NodeProto) : M unit :=
  modify (fun st =>
    mkState (name_counters st) (nodes st ++ [node]) (constants st)
      (shape_info st) (shape_env st)).

(** Modelled from the spec: [s.get_constant_name(value)], defined outside
    this file, "interns a constant tensor, ..., allocates a fresh name, and
    registers its value-info"; the name comes from the allocator with the
    prefix ["const"], as in the builder's [get_constant_name]. *)
Definition get_constant_name (val : Constant) : M string :=
  do name <- get_unique_name "const";
  do _ <- modify (fun st =>
        mkState (name_counters st) (nodes st) (constants st ++ [(name, val)])
          (shape_info st) (shape_env st));
  ret name.

(** Modelled from the spec: [s.add_shape_info(name, shape, dtype)], defined
    outside this file, "registers value-info for a non-IO tensor". *)
Definition add_shape_info (name : string) (shape : list dim) (dt : Builder.np_type)
    (st : ConverterState) : ConverterState :=
  mkState (name_counters st) (nodes st) (constants st)
    (<[name := (shape, dt)]> (shape_info st)) (shape_env st).

(** A traced variable: [s.get_name(v)], [v.aval.shape] and [v.aval.dtype]
    (already a NumPy dtype, which [_ensure_np_dtype] returns as it is). *)
Record Var := mkVar {
  var_name : string;
  aval_shape : list dim;
  aval_dtype : Builder.np_type
}.

Definition get_name (v : Var) : string := var_name v.

(** [_manually_ensure_shape_env_entry]: nothing it does escapes its
    [try ... except Exception]; building the [ShapeDtypeStruct] and
    [add_shape_info] are taken not to raise. *)
Definition _manually_ensure_shape_env_entry (s : Jaxpr2OnnxConverter)
    (tensor_name : string) (tensor_shape : list dim) (np_dtype : Builder.np_type)
    (st : ConverterState) : ConverterState :=
  let valid_shape_elements :=
    map (fun dim_val =>
           match dim_val with
           | DInt z | DNpInt z => DInt z
           | DObj _ =>
               match _dim_to_symbol_safe s with
               | Some f => default dim_val (f dim_val)
               | None => dim_val
               end
           end) tensor_shape in
  let st := mkState (name_counters st) (nodes st) (constants st) (shape_info st)
              (<[tensor_name := (valid_shape_elements, np_dtype)]> (shape_env st)) in
  add_shape_info tensor_name valid_shape_elements np_dtype st.

Definition ensure_entry (s : Jaxpr2OnnxConverter) (tensor_name : string)
    (tensor_shape : list dim) (np_dtype : Builder.np_type) : M unit :=
  modify (_manually_ensure_shape_env_entry s tensor_name tensor_shape np_dtype).

(** *** Comparing dimensions and shapes *)

Definition _is_dim_symbolic (dim_val : dim) (s : Jaxpr2OnnxConverter) : bool :=
  match dim_val with
  | DInt _ => false
  | DNpInt _ => false
  | DObj _ =>
      match is_symbolic_dim s with
      | Some f => match f dim_val with Some r => r | None => true end
      | None => true
      end
  end.

(** [int(d)] *)
Definition py_int (d : dim) : result Z :=
  match d with
  | DInt z | DNpInt z => Ok z
  | DObj o =>
      match obj_int o with
      | IntOk z => Ok z
      | IntValueError => Raise (IntRaisedValueError d)
      | IntTypeError => Raise (IntRaisedTypeError d)
      end
  end.

(** [d1 is d2], where it is evaluated: both operands are objects. *)
Definition py_is (d1 d2 : dim) : bool :=
  match d1, d2 with
  | DObj o1, DObj o2 => bool_decide (obj_id o1 = obj_id o2)
  | _, _ => false
  end.

Definition _are_dims_equal (dim1 dim2 : dim) (s : Jaxpr2OnnxConverter) : result bool :=
  let is_dim1_sym := _is_dim_symbolic dim1 s in
  let is_dim2_sym := _is_dim_symbolic dim2 s in
  if negb is_dim1_sym && negb is_dim2_sym then
    let? i1 := py_int dim1 in
    let? i2 := py_int dim2 in
    Ok (i1 =? i2)%Z
  else if negb (eqb is_dim1_sym is_dim2_sym) then Ok false
  else Ok (py_is dim1 dim2).

(** The loop of [_are_shapes_equal] over [zip(shape1, shape2)]. *)
Fixpoint all_dims_equal (shape1 shape2 : list dim) (s : Jaxpr2OnnxConverter)
    : result bool :=
  match shape1, shape2 with
  | d1 :: shape1', d2 :: shape2' =>
      let? eq := _are_dims_equal d1 d2 s in
      if negb eq then Ok false else all_dims_equal shape1' shape2' s
  | _, _ => Ok true
  end.

Definition _are_shapes_equal (shape1 shape2 : list dim) (s : Jaxpr2OnnxConverter)
    : result bool :=
  if negb (length shape1 =? length shape2)%nat then Ok false
  else all_dims_equal shape1 shape2 s.

(** The loop of [_make_shape_concrete_for_prod] from index [i] on. *)
Fixpoint make_concrete_from (shp : list dim) (s : Jaxpr2OnnxConverter)
    (context_msg : string) (i : nat) (rest : list dim) : result (list Z) :=
  match rest with
  | [] => Ok []
  | dim_val :: rest' =>
      let? v := match dim_val with
          | DInt z => Ok z
          | DNpInt z => Ok z
          | DObj o =>
              let val_to_append :=
                match get_concrete_value_from_symbolic_dim s with
                | Some f => f dim_val
                | None => None
                end in
              match val_to_append with
              | Some v => Ok v
              | None =>
                  match obj_literal_val o with
                  | Some v => Ok v
                  | None => Raise (CannotMakeConcrete context_msg shp dim_val i)
                  end
              end
          end in
      let? vs := make_concrete_from shp s context_msg (S i) rest' in
      Ok (v :: vs)
  end.

Definition _make_shape_concrete_for_prod (shp : list dim) (s : Jaxpr2OnnxConverter)
    (context_msg : string) : result (list Z) :=
  make_concrete_from shp s context_msg 0 shp.

(** [np.prod] of a tuple of integers: the product in 64-bit two's
    complement (the dimensions themselves are taken to lie in that range). *)
Definition wrap_int64 (z : Z) : Z := ((z + 2 ^ 63) mod 2 ^ 64 - 2 ^ 63)%Z.

Definition np_prod (l : list Z) : Z :=
  fold_left (fun acc d => wrap_int64 (acc * d)) l 1%Z.

(** *** [_prepare_scatter_inputs_for_onnx], phase by phase *)

Definition is_nil {A} (l : list A) : bool :=
  match l with [] => true | _ => false end.

(** [l[i]] and [l[-1]] *)
Definition py_index {A} (l : list A) (i : nat) : result A :=
  match l !! i with Some x => Ok x | None => Raise IndexError end.

Definition py_last {A} (l : list A) : result A :=
  match last l with Some x => Ok x | None => Raise IndexError end.

(** The local function [to_symbolic_tuple]. *)
Fixpoint to_symbolic_tuple (jax_shape : list dim) (s : Jaxpr2OnnxConverter)
    : result (list dim) :=
  match _dim_to_symbol_safe s with
  | None => Ok jax_shape
  | Some f =>
      match jax_shape with
      | [] => Ok []
      | d :: rest =>
          let? d' := match f d with Some d' => Ok d' | None => Raise (HookRaised d) end in
          let? rest' := to_symbolic_tuple rest s in
          Ok (d' :: rest')
      end
  end.

Definition int_dim (n : nat) : dim := DInt (Z.of_nat n).

(** [a and b] where [b] may raise and is evaluated only if [a] holds. *)
Definition and_then (a : bool) (b : result bool) : result bool :=
  if a then b else Ok false.

(** Lines 269-337: the target shape of the indices, from their current
    shape and the index depth [K = len(scatter_dims_to_operand_dims)]. *)
Definition target_indices_shape (current_indices_shape_symbolic : list dim)
    (index_depth_k : nat) (s : Jaxpr2OnnxConverter) : result (list dim) :=
  let cur := current_indices_shape_symbolic in
  let K := int_dim index_depth_k in
  if is_nil cur then
    Ok [DInt 1; if (0 <? index_depth_k)%nat then K else DInt 0]
  else
    let? c1 := and_then ((length cur =? 1)%nat && (0 <? index_depth_k)%nat)
           (let? d := py_index cur 0 in _are_dims_equal d K s) in
    if c1 then Ok [DInt 1; K]
    else
      let? c2 := and_then ((0 <? index_depth_k)%nat && (0 <? length cur)%nat)
             (let? d := py_last cur in _are_dims_equal d K s) in
      if c2 then
        let batch_dims_indices := removelast cur in
        if is_nil batch_dims_indices then Ok [DInt 1; K]
        else
          try_except_ValueError
            (let? c := _make_shape_concrete_for_prod batch_dims_indices s
                   "indices_batch_prod_gen" in
             Ok [DNpInt (np_prod c); K])
            (fun _ => Ok [DInt (-1); K])
      else if (index_depth_k =? 0)%nat && (length cur =? 1)%nat then
        let? d := py_index cur 0 in
        Ok [d; DInt 0]
      else
        let? c3 := and_then (length cur =? 2)%nat
               (let? d := py_index cur 1 in _are_dims_equal d K s) in
        if c3 then Ok cur
        else
          let? common_N_val_gen :=
            try_except_ValueError
              (let? c4 := and_then (1 <? length cur)%nat
                      (let? d := py_last cur in _are_dims_equal d K s) in
               if c4 then
                 let? c := _make_shape_concrete_for_prod (removelast cur) s
                       "commonN_prod_gen" in
                 Ok (DNpInt (np_prod c))
               else if (length cur =? 1)%nat && (index_depth_k =? 0)%nat then
                 let? d := py_index cur 0 in
                 let? c := _make_shape_concrete_for_prod [d] s "commonN_K0_gen" in
                 let? v := py_index c 0 in
                 Ok (DInt v)
               else Ok (DInt (-1)))
              (fun _ => Ok (DInt (-1))) in
          Ok [common_N_val_gen; K].

(** The loops that turn a target shape into the operand of a [Reshape]:
    an [int] is kept, the first other element becomes [-1], and every
    further one must be made concrete.  [context_prefix] and [on_error]
    are what differs between the loop for the indices (lines 346-369) and
    the one for the updates (lines 808-828). *)
Fixpoint reshape_target_list (context_prefix : string) (on_error : error -> error)
    (s : Jaxpr2OnnxConverter) (i_dim : nat) (has_minus_one_already : bool)
    (rest : list dim) : result (list Z) :=
  match rest with
  | [] => Ok []
  | dim_sym_val :: rest' =>
      match dim_sym_val with
      | DInt z =>
          let? vs := reshape_target_list context_prefix on_error s (S i_dim)
                 has_minus_one_already rest' in
          Ok (z :: vs)
      | _ =>
          if negb has_minus_one_already then
            let? vs := reshape_target_list context_prefix on_error s (S i_dim) true rest' in
            Ok ((-1)%Z :: vs)
          else
            let? v := try_except_ValueError
                  (let? c := _make_shape_concrete_for_prod [dim_sym_val] s
                         (context_prefix +:+ pretty i_dim) in
                   py_index c 0)
                  (fun ve => Raise (on_error ve)) in
            let? vs := reshape_target_list context_prefix on_error s (S i_dim) true rest' in
            Ok (v :: vs)
      end
  end.

Definition make_node (op : string) (inputs outputs : list string)
    (kwargs : list (string * Z)) : NodeProto :=
  {| op_type := op; input := inputs; output := outputs; attrs := kwargs |}.

(** Lines 248-267: the cast of the indices to [int64]. *)
Definition cast_indices (s : Jaxpr2OnnxConverter) (current_indices_name : string)
    (current_indices_shape_symbolic : list dim) (jax_indices_dtype_np : Builder.np_type)
    : M string :=
  match jax_indices_dtype_np with
  | Builder.np_int64 => ret current_indices_name
  | _ =>
      do cast_indices_out_name <- get_unique_name (current_indices_name +:+ "_int64");
      do _ <- add_node (make_node "Cast" [current_indices_name] [cast_indices_out_name]
                      [("to", Builder.TensorProto.INT64)]);
      do _ <- ensure_entry s cast_indices_out_name current_indices_shape_symbolic
            Builder.np_int64;
      ret cast_indices_out_name
  end.

(** Lines 339-398: the reshape of the indices to their target shape. *)
Definition reshape_indices (s : Jaxpr2OnnxConverter) (current_indices_name : string)
    (current_indices_shape_symbolic target_indices_shape_symbolic : list dim)
    : M string :=
  do same <- lift (_are_shapes_equal current_indices_shape_symbolic
                   target_indices_shape_symbolic s);
  if negb same then
    do reshaped_indices_name <-
      get_unique_name (current_indices_name +:+ "_reshaped_idx_auto");
    do concrete_target_for_op_list <-
      lift (reshape_target_list "reshape_target_indices_dim_"
          (CannotCreateReshapeTarget target_indices_shape_symbolic) s 0 false
          target_indices_shape_symbolic);
    do c <- get_constant_name (ConstVector concrete_target_for_op_list);
    do _ <- add_node (make_node "Reshape" [current_indices_name; c]
                    [reshaped_indices_name] []);
    do _ <- ensure_entry s reshaped_indices_name target_indices_shape_symbolic
          Builder.np_int64;
    ret reshaped_indices_name
  else
    do _ <- ensure_entry s current_indices_name target_indices_shape_symbolic
          Builder.np_int64;
    ret current_indices_name.

(** Lines 416-449: the updates shape that [ScatterND] expects on the
    default path. *)
Definition expected_updates_shape_default
    (processed_indices_shape_for_default_path operand_shape_symbolic : list dim)
    : result (list dim) :=
  let onnx_updates_N_dim_list_default :=
    removelast processed_indices_shape_for_default_path in
  let onnx_indices_K_depth_val_default :=
    default (DInt 0) (last processed_indices_shape_for_default_path) in
  match onnx_indices_K_depth_val_default with
  | DInt k =>
      if (k <? 0)%Z then Raise (IndicesDepthNegative k)
      else if (k <=? Z.of_nat (length operand_shape_symbolic))%Z then
        Ok (onnx_updates_N_dim_list_default
              ++ drop (Z.to_nat k) operand_shape_symbolic)
      else Raise (IndicesDepthExceedsRank k (length operand_shape_symbolic))
  | k => Raise (IndicesDepthNotConcrete k)
  end.

(** Lines 452-513: is this the batched-window pattern? *)
Definition use_depth2_for_batched_window_scatter
    (dimension_numbers : ScatterDimensionNumbers)
    (operand_shape_symbolic original_updates_shape_symbolic
       jax_indices_shape_symbolic : list dim)
    (s : Jaxpr2OnnxConverter) : result bool :=
  let sdod := scatter_dims_to_operand_dims dimension_numbers in
  let uwd := update_window_dims dimension_numbers in
  let iwd := inserted_window_dims dimension_numbers in
  let obd := operand_batching_dims dimension_numbers in
  let op_rank := length operand_shape_symbolic in
  let upd_rank := length original_updates_shape_symbolic in
  let? pattern :=
    and_then ((length sdod =? 1)%nat && (length uwd =? upd_rank)%nat
              && (op_rank =? upd_rank)%nat && is_nil obd && is_nil iwd)
      (if is_nil jax_indices_shape_symbolic then Ok true
       else _are_shapes_equal jax_indices_shape_symbolic [DInt 1] s) in
  if negb pattern then Ok false
  else
    let? scatter_target_op_axis := py_index sdod 0 in
    if negb (scatter_target_op_axis <? op_rank)%nat then Ok false
    else
      let? shapes_match_for_depth2_pattern :=
        (if (0 <? scatter_target_op_axis)%nat then
           let? o0 := py_index operand_shape_symbolic 0 in
           let? u0 := py_index original_updates_shape_symbolic 0 in
           let? e0 := _are_dims_equal o0 u0 s in
           if e0 && (scatter_target_op_axis + 1 <? op_rank)%nat then
             if (scatter_target_op_axis <? upd_rank)%nat then
               _are_shapes_equal
                 (drop (scatter_target_op_axis + 1) operand_shape_symbolic)
                 (drop (scatter_target_op_axis + 1) original_updates_shape_symbolic)
                 s
             else Ok false
           else Ok e0
         else
           if (1 <? op_rank)%nat then
             _are_shapes_equal (drop 1 operand_shape_symbolic)
               (drop 1 original_updates_shape_symbolic) s
           else Ok (op_rank =? 1)%nat) in
      Ok (shapes_match_for_depth2_pattern && (0 <? op_rank)%nat
            && (scatter_target_op_axis <? upd_rank)%nat).

(** Lines 515-698: the batched-window strategy; it returns the name of the
    [(B, L, 2)] indices tensor. *)
Definition depth2_strategy (s : Jaxpr2OnnxConverter)
    (dimension_numbers : ScatterDimensionNumbers)
    (current_indices_name : string)
    (operand_shape_symbolic original_updates_shape_symbolic : list dim)
    : M string :=
  let int64 := Builder.np_int64 in
  do scatter_op_axis_idx <-
    lift (py_index (scatter_dims_to_operand_dims dimension_numbers) 0);
  do concrete_operand_shape_d2 <-
    lift (_make_shape_concrete_for_prod operand_shape_symbolic s "d2_op_shape");
  do concrete_updates_shape_d2 <-
    lift (_make_shape_concrete_for_prod original_updates_shape_symbolic s "d2_upd_shape");
  do B_val <- lift (py_index concrete_operand_shape_d2 0);
  do L_val <- lift (py_index concrete_updates_shape_d2 scatter_op_axis_idx);
  do col_start_scalar_name <- get_unique_name (current_indices_name +:+ "_scalar_d2");
  do c <- get_constant_name (ConstVector [0%Z]);
  do _ <- add_node (make_node "Squeeze" [current_indices_name; c]
                      [col_start_scalar_name] []);
  do _ <- ensure_entry s col_start_scalar_name [] int64;
  do arange_b_end_name <- get_constant_name (ConstScalar B_val);
  do arange_b_name <- get_unique_name "arange_b_d2";
  do c0 <- get_constant_name (ConstScalar 0);
  do c1 <- get_constant_name (ConstScalar 1);
  do _ <- add_node (make_node "Range" [c0; arange_b_end_name; c1] [arange_b_name] []);
  do _ <- ensure_entry s arange_b_name [DInt B_val] int64;
  do unsqueeze_b_name <- get_unique_name "unsqueeze_b_d2";
  do c <- get_constant_name (ConstVector [1%Z]);
  do _ <- add_node (make_node "Unsqueeze" [arange_b_name; c] [unsqueeze_b_name] []);
  do _ <- ensure_entry s unsqueeze_b_name [DInt B_val; DInt 1] int64;
  do batch_indices_intermediate_name <- get_unique_name "batch_indices_BL_d2";
  do c <- get_constant_name (ConstVector [B_val; L_val]);
  do _ <- add_node (make_node "Expand" [unsqueeze_b_name; c]
                      [batch_indices_intermediate_name] []);
  do _ <- ensure_entry s batch_indices_intermediate_name [DInt B_val; DInt L_val] int64;
  do arange_l_end_name <- get_constant_name (ConstScalar L_val);
  do arange_l_name <- get_unique_name "arange_l_d2";
  do c0 <- get_constant_name (ConstScalar 0);
  do c1 <- get_constant_name (ConstScalar 1);
  do _ <- add_node (make_node "Range" [c0; arange_l_end_name; c1] [arange_l_name] []);
  do _ <- ensure_entry s arange_l_name [DInt L_val] int64;
  do add_start_name <- get_unique_name "add_start_col_d2";
  do _ <- add_node (make_node "Add" [arange_l_name; col_start_scalar_name]
                      [add_start_name] []);
  do _ <- ensure_entry s add_start_name [DInt L_val] int64;
  do unsqueeze_l_name <- get_unique_name "unsqueeze_l_d2";
  do c <- get_constant_name (ConstVector [0%Z]);
  do _ <- add_node (make_node "Unsqueeze" [add_start_name; c] [unsqueeze_l_name] []);
  do _ <- ensure_entry s unsqueeze_l_name [DInt 1; DInt L_val] int64;
  do col_indices_intermediate_name <- get_unique_name "col_indices_BL_d2";
  do c <- get_constant_name (ConstVector [B_val; L_val]);
  do _ <- add_node (make_node "Expand" [unsqueeze_l_name; c]
                      [col_indices_intermediate_name] []);
  do _ <- ensure_entry s col_indices_intermediate_name [DInt B_val; DInt L_val] int64;
  do final_batch_indices_name <- get_unique_name "final_batch_indices_d2";
  do c <- get_constant_name (ConstVector [2%Z]);
  do _ <- add_node (make_node "Unsqueeze" [batch_indices_intermediate_name; c]
                      [final_batch_indices_name] []);
  do _ <- ensure_entry s final_batch_indices_name [DInt B_val; DInt L_val; DInt 1] int64;
  do final_col_indices_name <- get_unique_name "final_col_indices_d2";
  do c <- get_constant_name (ConstVector [2%Z]);
  do _ <- add_node (make_node "Unsqueeze" [col_indices_intermediate_name; c]
                      [final_col_indices_name] []);
  do _ <- ensure_entry s final_col_indices_name [DInt B_val; DInt L_val; DInt 1] int64;
  do indices_2d_name <- get_unique_name "indices_2d_BL2_d2";
  do _ <- add_node (make_node "Concat"
                      [final_batch_indices_name; final_col_indices_name]
                      [indices_2d_name] [("axis", 2%Z)]);
  do o0 <- lift (py_index operand_shape_symbolic 0);
  do uL <- lift (py_index original_updates_shape_symbolic scatter_op_axis_idx);
  do _ <- ensure_entry s indices_2d_name [o0; uL; DInt 2] int64;
  ret indices_2d_name.

(** The element count of a concrete shape, as lines 717-744 compute it. *)
Definition nelem (concrete_shape : list Z) : Z :=
  let n := if is_nil concrete_shape then 1%Z else np_prod concrete_shape in
  if existsb (fun d => (d =? 0)%Z) concrete_shape then 0%Z else n.

(** [d == 1] *)
Definition py_eq_1 (d : dim) : bool :=
  match d with
  | DInt z | DNpInt z => (z =? 1)%Z
  | DObj o => obj_eq_1 o
  end.

(** Lines 762-774: the first axis of size 1 whose removal from the original
    shape gives the expected one; [axes] is [range(len(original))]. *)
Fixpoint find_squeeze_axis (original expected : list dim) (s : Jaxpr2OnnxConverter)
    (axes : list nat) : result (option nat) :=
  match axes with
  | [] => Ok None
  | i :: rest =>
      let? d := py_index original i in
      if py_eq_1 d then
        let? same := _are_shapes_equal (delete i original) expected s in
        if same then Ok (Some i) else find_squeeze_axis original expected s rest
      else find_squeeze_axis original expected s rest
  end.

(** Does [str(ve)] contain ["Updates element count mismatch"] or ["Cannot
    make shape concrete"]?  Read off the exception itself; the text that
    [str()] gives for a shape or a dimension is taken not to contain either
    phrase. *)
Definition mentions_mismatch_or_shape (ve : error) : bool :=
  match ve with
  | UpdatesElementCountMismatch _ _ _ _ _ _ _ _ _ => true
  | CannotMakeConcrete context_msg _ _ _ => String.eqb context_msg "shape"
  | _ => false
  end.

(** Lines 710-863: the body of the [try] of the default path, entered when
    the updates do not have the expected shape. *)
Definition reconcile_updates (s : Jaxpr2OnnxConverter)
    (dimension_numbers : ScatterDimensionNumbers)
    (final_operand_name : string) (operand_shape_symbolic : list dim)
    (final_indices_name_to_return : string)
    (processed_indices_shape_for_default_path : list dim)
    (original_updates_name_val : string)
    (original_updates_shape_symbolic : list dim)
    (original_updates_dtype_np : Builder.np_type)
    (current_expected_onnx_updates_shape : list dim) : M string :=
  do concrete_orig_upd_shape <-
    lift (_make_shape_concrete_for_prod original_updates_shape_symbolic s
            "orig_updates_nelem_default");
  do concrete_exp_upd_shape <-
    lift (_make_shape_concrete_for_prod current_expected_onnx_updates_shape s
            "exp_updates_nelem_default");
  let original_nelem := nelem concrete_orig_upd_shape in
  let expected_nelem := nelem concrete_exp_upd_shape in
  if (original_nelem =? 0)%Z && (expected_nelem =? 0)%Z then
    do _ <- ensure_entry s original_updates_name_val
              current_expected_onnx_updates_shape original_updates_dtype_np;
    ret original_updates_name_val
  else if (original_nelem =? expected_nelem)%Z then
    do squeeze <-
      (if (length original_updates_shape_symbolic
           =? length current_expected_onnx_updates_shape + 1)%nat
       then lift (find_squeeze_axis original_updates_shape_symbolic
                    current_expected_onnx_updates_shape s
                    (seq 0 (length original_updates_shape_symbolic)))
       else ret None);
    match squeeze with
    | Some squeeze_axis =>
        do squeezed_updates_name <-
          get_unique_name (original_updates_name_val +:+ "_squeezed_default");
        do c <- get_constant_name (ConstVector [Z.of_nat squeeze_axis]);
        do _ <- add_node (make_node "Squeeze" [original_updates_name_val; c]
                            [squeezed_updates_name] []);
        do _ <- ensure_entry s squeezed_updates_name
                  current_expected_onnx_updates_shape original_updates_dtype_np;
        ret squeezed_updates_name
    | None =>
        do reshaped_updates_name <-
          get_unique_name (original_updates_name_val +:+ "_reshaped_default");
        do concrete_target_for_op_list_upd <-
          lift (reshape_target_list "reshape_target_updates_dim_def_"
                  (fun ve => ve) s 0 false current_expected_onnx_updates_shape);
        do c <- get_constant_name (ConstVector concrete_target_for_op_list_upd);
        do _ <- add_node (make_node "Reshape" [original_updates_name_val; c]
                            [reshaped_updates_name] []);
        do _ <- ensure_entry s reshaped_updates_name
                  current_expected_onnx_updates_shape original_updates_dtype_np;
        ret reshaped_updates_name
    end
  else
    raise (UpdatesElementCountMismatch
             original_updates_shape_symbolic original_nelem
             current_expected_onnx_updates_shape expected_nelem
             final_operand_name operand_shape_symbolic
             final_indices_name_to_return
             processed_indices_shape_for_default_path
             dimension_numbers).

(** Lines 700-885: the default path for the updates; it returns the name of
    the updates tensor to use. *)
Definition default_updates (s : Jaxpr2OnnxConverter)
    (dimension_numbers : ScatterDimensionNumbers)
    (final_operand_name : string) (operand_shape_symbolic : list dim)
    (final_indices_name_to_return : string)
    (processed_indices_shape_for_default_path : list dim)
    (original_updates_name_val : string)
    (original_updates_shape_symbolic : list dim)
    (original_updates_dtype_np : Builder.np_type)
    (current_expected_onnx_updates_shape : list dim) : M string :=
  do same <- lift (_are_shapes_equal original_updates_shape_symbolic
                     current_expected_onnx_updates_shape s);
  if negb same then
    try_except
      (reconcile_updates s dimension_numbers final_operand_name
         operand_shape_symbolic final_indices_name_to_return
         processed_indices_shape_for_default_path original_updates_name_val
         original_updates_shape_symbolic original_updates_dtype_np
         current_expected_onnx_updates_shape)
      (fun ve =>
         if mentions_mismatch_or_shape ve then raise ve
         else raise (CouldNotPrepareUpdates ve
                       final_operand_name operand_shape_symbolic
                       final_indices_name_to_return
                       processed_indices_shape_for_default_path
                       dimension_numbers))
  else
    do _ <- ensure_entry s original_updates_name_val
              current_expected_onnx_updates_shape original_updates_dtype_np;
    ret original_updates_name_val.

(** The whole function: the names of the operand, of the indices and of the
    updates to pass to [ScatterND]. *)
Definition _prepare_scatter_inputs_for_onnx (s : Jaxpr2OnnxConverter)
    (operand_v indices_v updates_v : Var)
    (dimension_numbers : ScatterDimensionNumbers) : M (string * string * string) :=
  let final_operand_name := get_name operand_v in
  do operand_shape_symbolic <- lift (to_symbolic_tuple (aval_shape operand_v) s);
  let operand_dtype_np := aval_dtype operand_v in
  do _ <- ensure_entry s final_operand_name operand_shape_symbolic operand_dtype_np;
  do jax_indices_shape_symbolic <- lift (to_symbolic_tuple (aval_shape indices_v) s);
  let jax_indices_dtype_np := aval_dtype indices_v in
  let original_jax_indices_name_in_onnx := get_name indices_v in
  let current_indices_shape_symbolic := jax_indices_shape_symbolic in
  do _ <- ensure_entry s original_jax_indices_name_in_onnx
            current_indices_shape_symbolic jax_indices_dtype_np;
  do current_indices_name <-
    cast_indices s original_jax_indices_name_in_onnx current_indices_shape_symbolic
      jax_indices_dtype_np;
  let index_depth_k := length (scatter_dims_to_operand_dims dimension_numbers) in
  do target_indices_shape_symbolic <-
    lift (target_indices_shape current_indices_shape_symbolic index_depth_k s);
  do final_indices_name_to_return <-
    reshape_indices s current_indices_name current_indices_shape_symbolic
      target_indices_shape_symbolic;
  let original_updates_name_val := get_name updates_v in
  do original_updates_shape_symbolic <-
    lift (to_symbolic_tuple (aval_shape updates_v) s);
  let original_updates_dtype_np := aval_dtype updates_v in
  do _ <- ensure_entry s original_updates_name_val original_updates_shape_symbolic
            original_updates_dtype_np;
  let processed_indices_shape_for_default_path := target_indices_shape_symbolic in
  do current_expected_onnx_updates_shape <-
    lift (expected_updates_shape_default processed_indices_shape_for_default_path
            operand_shape_symbolic);
  do use_depth2 <-
    lift (use_depth2_for_batched_window_scatter dimension_numbers
            operand_shape_symbolic original_updates_shape_symbolic
            jax_indices_shape_symbolic s);
  if use_depth2 then
    do indices_2d_name <-
      depth2_strategy s dimension_numbers current_indices_name
        operand_shape_symbolic original_updates_shape_symbolic;
    ret (final_operand_name, indices_2d_name, original_updates_name_val)
  else
    do _final_updates_name_val_to_return <-
      default_updates s dimension_numbers final_operand_name operand_shape_symbolic
        final_indices_name_to_return processed_indices_shape_for_default_path
        original_updates_name_val original_updates_shape_symbolic
        original_updates_dtype_np current_expected_onnx_updates_shape;
    ret (final_operand_name, final_indices_name_to_return,
         _final_updates_name_val_to_return).

(** *** [compute_expected_updates_shape]

    Besides its own [ValueError], the function can raise an [IndexError]
    ([result[pos_in_updates] = win_size] with a position outside [result])
    and a [StopIteration] ([next(batch_iter)] with no batch dimension
    left). *)
Inductive updates_shape_error :=
| InconsistentScatterDnums (n_window_operand_dims n_update_window_dims : nat)
| ResultIndexError (pos_in_updates : nat)
| StopIteration.

Inductive updates_shape_result (A : Type) :=
| ShapeOk (a : A)
| ShapeRaise (e : updates_shape_error).
Arguments ShapeOk {A} a.
Arguments ShapeRaise {A} e.

(** [[d for d in range(len(operand_shape)) if d not in inserted]] *)
Definition window_operand_dims (dnums : ScatterDimensionNumbers)
    (operand_shape : list dim) : list nat :=
  filter (fun d => d ∉ inserted_window_dims dnums) (seq 0 (length operand_shape)).

(** The first loop, over [zip(dnums.update_window_dims, window_sizes)]. *)
Fixpoint place_window_sizes (result : list (option dim))
    (update_window_dims : list nat) (window_sizes : list dim)
    : updates_shape_result (list (option dim)) :=
  match update_window_dims, window_sizes with
  | pos_in_updates :: update_window_dims', win_size :: window_sizes' =>
      if (pos_in_updates <? length result)%nat then
        place_window_sizes (<[pos_in_updates := Some win_size]> result)
          update_window_dims' window_sizes'
      else ShapeRaise (ResultIndexError pos_in_updates)
  | _, _ => ShapeOk result
  end.

(** The second loop: the slots that are still [None] take the batch
    dimensions, in order. *)
Fixpoint fill_batch_dims (result : list (option dim)) (batch_iter : list dim)
    : updates_shape_result (list dim) :=
  match result with
  | [] => ShapeOk []
  | Some win_size :: result' =>
      match fill_batch_dims result' batch_iter with
      | ShapeOk r => ShapeOk (win_size :: r)
      | ShapeRaise e => ShapeRaise e
      end
  | None :: result' =>
      match batch_iter with
      | [] => ShapeRaise StopIteration
      | batch_dim :: batch_iter' =>
          match fill_batch_dims result' batch_iter' with
          | ShapeOk r => ShapeOk (batch_dim :: r)
          | ShapeRaise e => ShapeRaise e
          end
      end
  end.

(** No element of a shape is [None], and every [d] of
    [window_operand_dims] is an index of [operand_shape]. *)
Definition compute_expected_updates_shape (dnums : ScatterDimensionNumbers)
    (operand_shape indices_shape : list dim) : updates_shape_result (list dim) :=
  let batch_shape := removelast indices_shape in
  let window_operand_dims := window_operand_dims dnums operand_shape in
  if negb (length window_operand_dims =? length (update_window_dims dnums))%nat then
    ShapeRaise (InconsistentScatterDnums (length window_operand_dims)
                  (length (update_window_dims dnums)))
  else
    let window_sizes := omap (fun d => operand_shape !! d) window_operand_dims in
    let updates_rank := (length batch_shape + length window_sizes)%nat in
    match place_window_sizes (replicate updates_rank None)
            (update_window_dims dnums) window_sizes with
    | ShapeRaise e => ShapeRaise e
    | ShapeOk result => fill_batch_dims result batch_shape
    end.

End Scatter.

(** ** The properties, stated *)

Module BuilderProps.
Import Py Builder.

(** Calls that a lowering rule makes on an open builder. *)
Inductive call :=
| declare_input (name : string) (shape : Shape) (dt : dtype)
| declare_output (name : string) (shape : Shape) (dt : dtype)
| append_node (n : NodeProto).

Definition run_call (b : OnnxBuilder) (c : call) : OnnxBuilder :=
  match c with
  | declare_input name shape dt => add_input name shape dt b
  | declare_output name shape dt => add_output name shape dt b
  | append_node n => add_node n b
  end.

Definition run_calls (cs : list call) (b : OnnxBuilder) : OnnxBuilder :=
  fold_left run_call cs b.

(** The names available when the node at position [i] is reached. *)
Definition available_at (input_names initializer_names : list string)
    (ns : list NodeProto) (i : nat) : gset string :=
  list_to_set input_names ∪ list_to_set initializer_names
  ∪ list_to_set (concat (map node_output (take i ns))).

(** Every non-empty input name of every node is available when the node is
    reached. *)
Definition topologically_sound (input_names initializer_names : list string)
    (ns : list NodeProto) : Prop :=
  ∀ i node inp,
    ns !! i = Some node → inp ∈ node_input node → inp ≠ "" →
    inp ∈ available_at input_names initializer_names ns i.

(** The builders that differ from [b] in the converter only. *)
Definition converter_changed (b b' : OnnxBuilder) : Prop :=
  ∃ c, b' = set_converter c b.

(** The symbolic shape that the converter holds for [name], if any. *)
Definition symbolic_shape_of (b : OnnxBuilder) (name : string) : option (list dim) :=
  match converter b with
  | Some sym =>
      match symbolic_shapes sym with
      | Some shapes => shapes !! name
      | None => None
      end
  | None => None
  end.

(** The shape that [add_value_info] stores for [name]: the converter's
    symbolic shape for the name when there is one, else the shape given. *)
Definition stored_shape (b : OnnxBuilder) (name : string) (shape : Shape) : list dim :=
  match converter b with
  | Some sym =>
      match symbolic_shapes sym with
      | Some shapes => default (shape_tuple_of shape) (shapes !! name)
      | None => shape_tuple_of shape
      end
  | None => shape_tuple_of shape
  end.

(** The graph name that [_build_graph] reports. *)
Definition graph_name (name : option string) (b : OnnxBuilder) : string :=
  match name with
  | Some n => if truthy n then n else model_name b
  | None => model_name b
  end.

(** The builder on which [find_missing_value_info] runs inside
    [_build_graph], and the names that are then reported. *)
Definition before_missing (is_subgraph : bool) (b : OnnxBuilder) : OnnxBuilder :=
  let b := filter_unused_initializers b in
  if is_subgraph then b else _filter_redundant_inputs b.

Definition reported_missing (is_subgraph : bool) (b : OnnxBuilder) : list string :=
  filter (fun m => negb (startswith m "conv_transpose_out"))
    (filter (fun n => negb (is_deterministic_name n))
       (find_missing_value_info (before_missing is_subgraph b))).

(** Builders for the examples: a graph in topological order whose node
    output has no value info; the same with the output named after the
    transposed convolution; and a graph whose first node reads what the
    second one writes. *)
Definition example_input : OnnxBuilder :=
  add_input "x" (Some [DInt 2]) (DtNp np_float32) (__init__ "g" None None).

Definition example_missing : OnnxBuilder :=
  add_node (mkNode "n0" "Relu" ["x"] ["y"] []) example_input.

Definition example_conv_transpose : OnnxBuilder :=
  add_node (mkNode "n0" "ConvTranspose" ["x"] ["conv_transpose_out_0"] [])
    example_input.

Definition example_sorted : OnnxBuilder :=
  add_value_info "z" (Some [DInt 2]) (DtNp np_float32)
    (add_output "y" (Some [DInt 2]) (DtNp np_float32)
       (add_node (mkNode "n1" "Neg" ["z"] ["y"] [])
          (add_node (mkNode "n0" "Relu" ["x"] ["z"] []) example_input))).

(** The graph that finalization returns for [example_sorted]. *)
Definition example_sorted_graph : GraphProto :=
  match (_build_graph (Some "g") false false example_sorted).2 with
  | Ok g => g
  | Raise _ => mkGraph [] "" [] [] [] []
  end.

Definition example_unsorted : OnnxBuilder :=
  add_node (mkNode "n1" "Relu" ["x"] ["z"] [])
    (add_node (mkNode "n0" "Neg" ["z"] ["y"] []) example_input).

(** A sequence of calls that declares an input and an output twice. *)
Definition example_calls : list call :=
  [ declare_input "x" (Some [DStr "B"; DInt 4]) (DtNp np_float32);
    declare_output "y" (Some [DStr "B"; DInt 4]) (DtNp np_float32);
    append_node (mkNode "n0" "Relu" ["x"] ["y"] []);
    declare_input "x" (Some [DInt 2; DInt 4]) (DtNp np_float64);
    declare_output "y" None (DtNp np_float32);
    declare_input "y" (Some [DStr "B"; DInt 4]) (DtNp np_float32) ].

(** The methods of the builder that are modelled and leave a builder
    behind, as a lowering run may call them in any order;
    [merge_value_info_metadata_from] is not among them. *)
Inductive method :=
| call_register_value_info_metadata (name : string) (shape : Shape) (dt : dtype)
    (origin : option string)
| call_add_value_info (name : string) (shape : Shape) (dt : dtype)
| call_add_input (name : string) (shape : Shape) (dt : dtype)
| call_add_output (name : string) (shape : Shape) (dt : dtype)
| call_add_node (n : NodeProto)
| call_add_scalar_input (name : string) (dt : Z)
| call_auto_fix_constant_value_info (name : string) (value : ndarray)
| call_merge_functions_from (other : OnnxBuilder)
| call_adjust_dynamic_batch_dimensions (input_shapes : list (list dim))
| call_build_graph (name : option string) (is_subgraph empty_inputs : bool)
| call_reset.

Definition run_method (b : OnnxBuilder) (c : method) : OnnxBuilder :=
  match c with
  | call_register_value_info_metadata name shape dt origin =>
      register_value_info_metadata name shape dt origin b
  | call_add_value_info name shape dt => add_value_info name shape dt b
  | call_add_input name shape dt => add_input name shape dt b
  | call_add_output name shape dt => add_output name shape dt b
  | call_add_node n => add_node n b
  | call_add_scalar_input name dt => add_scalar_input name dt b
  | call_auto_fix_constant_value_info name value =>
      _auto_fix_constant_value_info name value b
  | call_merge_functions_from other => merge_functions_from other b
  | call_adjust_dynamic_batch_dimensions input_shapes =>
      adjust_dynamic_batch_dimensions input_shapes b
  | call_build_graph name is_subgraph empty_inputs =>
      (_build_graph name is_subgraph empty_inputs b).1
  | call_reset => reset b
  end.

Definition run_methods (cs : list method) (b : OnnxBuilder) : OnnxBuilder :=
  fold_left run_method cs b.

(** The two metadata dictionaries hold the same names, with the same shape
    and dtype. *)
Definition metadata_in_sync (b : OnnxBuilder) : Prop :=
  ∀ name,
    value_info_metadata b !! name
    = (fun e : list dim * dtype * string => (e.1.1, e.1.2))
        <$> value_info_metadata_with_origin b !! name.

(** One step of the loop of [merge_functions_from]. *)
Definition merge_step (fs : list (string * FunctionProto))
    (item : string * FunctionProto) : list (string * FunctionProto) :=
  match dict_get fs item.1 with
  | None => dict_set fs item.1 item.2
  | Some _ => fs
  end.

(** A name that some node of [ns] reads, itself or in a subgraph held by one
    of its attributes; a name that some node of [ns] writes; an initializer
    that a node of the builder, or of one of its functions, reads. *)
Definition consumed_by (ns : list NodeProto) (name : string) : Prop :=
  ∃ n, n ∈ ns
       ∧ (name ∈ non_empty (node_input n)
          ∨ ∃ attr, attr ∈ node_attribute n ∧ name ∈ attribute_inputs attr).

Definition produced_by (ns : list NodeProto) (name : string) : Prop :=
  ∃ n, n ∈ ns ∧ name ∈ non_empty (node_output n).

Definition used_initializer (b : OnnxBuilder) (init : TensorProto) : Prop :=
  (∃ n, n ∈ nodes b ∧ init_name init ∈ node_input n)
  ∨ ∃ kf n, kf ∈ functions b ∧ n ∈ fn_node kf.2 ∧ init_name init ∈ node_input n.

(** A dimension made dynamic, when there is one at the position; and
    whether a shape hint has ["B"] at a position. *)
Definition to_B (d : option DimProto) : option DimProto :=
  (fun _ => dim_param "B") <$> d.

Definition hinted_B (shape_hint : list dim) (idx : nat) : bool :=
  match shape_hint !! idx with Some d => is_B d | None => false end.

(** Builders for further examples: [example_sorted] with a second output
    whose first dimension is static, and a builder that only knows a
    function. *)
Definition example_two_outputs : OnnxBuilder :=
  add_output "z" (Some [DInt 2; DInt 3]) (DtNp np_float32) example_sorted.

Definition example_function : FunctionProto :=
  mkFunction "f" [mkNode "n0" "Relu" ["a"] ["b"] []].

Definition example_with_function : OnnxBuilder :=
  set_functions [("f", example_function)] (__init__ "g" None None).

End BuilderProps.

Module ScatterProps.
Import Py Scatter.

(** The value that [_make_shape_concrete_for_prod] finds for one
    dimension, if any. *)
Definition concrete_value (s : Jaxpr2OnnxConverter) (d : dim) : option Z :=
  match d with
  | DInt z | DNpInt z => Some z
  | DObj o =>
      match get_concrete_value_from_symbolic_dim s with
      | Some f =>
          match f d with Some v => Some v | None => obj_literal_val o end
      | None => obj_literal_val o
      end
  end.




(** Scatter dimension numbers that scatter along operand axis 0, and
    variables for the examples: operands of shape [(5, 0)] and [(5, 3)],
    indices of shape [(2, 1)] and [(2, 3, 1)], and updates of shape
    [(2, 3, 0)], [(3, 2)] and [(2, 1, 3)]. *)
Definition dnums_axis0 : ScatterDimensionNumbers := mkDnums [1] [0] [0] [] [].

Definition dnums_axis0_batch2 : ScatterDimensionNumbers := mkDnums [2] [0] [0] [] [].

Definition indices_2_3_1 : Var :=
  mkVar "idx" [DInt 2; DInt 3; DInt 1] Builder.np_int64.

Definition updates_2_3_0 : Var :=
  mkVar "upd" [DInt 2; DInt 3; DInt 0] Builder.np_float32.

Definition operand_5_0 : Var := mkVar "op" [DInt 5; DInt 0] Builder.np_float32.

Definition operand_5_3 : Var := mkVar "op" [DInt 5; DInt 3] Builder.np_float32.

Definition indices_2_1 : Var := mkVar "idx" [DInt 2; DInt 1] Builder.np_int64.

Definition updates_3_2 : Var := mkVar "upd" [DInt 3; DInt 2] Builder.np_float32.

Definition updates_2_1_3 : Var :=
  mkVar "upd" [DInt 2; DInt 1; DInt 3] Builder.np_float32.

(** The batched-window pattern: scatter along operand axis 1, updates of
    the rank of the operand, indices of shape [(1,)]; with a symbolic and
    with a concrete batch size. *)
Definition dnums_window : ScatterDimensionNumbers := mkDnums [0; 1] [] [1] [] [].

Definition indices_1 : Var := mkVar "idx" [DInt 1] Builder.np_int64.


(** A converter without optional methods and with nothing recorded, and two
    symbolic dimensions. *)
Definition plain_converter : Jaxpr2OnnxConverter := mkConverter None None None.

Definition empty_state : ConverterState := mkState ∅ [] [] ∅ ∅.

Definition symbol_B : dim := DObj (mkObj 1 IntTypeError None false).

Definition symbol_C : dim := DObj (mkObj 2 IntTypeError None false).

Definition operand_B_6 : Var := mkVar "op" [symbol_B; DInt 6] Builder.np_float32.

Definition updates_B_6 : Var := mkVar "upd" [symbol_B; DInt 6] Builder.np_float32.

Definition operand_4_6 : Var := mkVar "op" [DInt 4; DInt 6] Builder.np_float32.

Definition updates_4_6 : Var := mkVar "upd" [DInt 4; DInt 6] Builder.np_float32.

(** Updates of shape [(2, 3)], which is what indices of shape [(2, 1)] into
    an operand of shape [(5, 3)] expect. *)
Definition updates_2_3 : Var := mkVar "upd" [DInt 2; DInt 3] Builder.np_float32.

(** In the list [result] of [compute_expected_updates_shape]: the number of
    slots that are still [None]; and positions that are pairwise distinct
    and all still [None]. *)
Definition count_free (slots : list (option dim)) : nat :=
  length (filter (fun x => x = None) slots).

Definition fresh_positions (slots : list (option dim)) (uwd : list nat) : Prop :=
  NoDup uwd ∧ ∀ p, p ∈ uwd → slots !! p = Some None.

End ScatterProps.

(** ** Proofs about the builder *)

Module BuilderProofs.
Import Py Builder BuilderProps.

Lemma converter_changed_refl b : converter_changed b b.
Proof. exists (converter b). by destruct b. Qed.

Lemma converter_changed_trans b1 b2 b3 :
  converter_changed b1 b2 → converter_changed b2 b3 → converter_changed b1 b3.
Proof. intros [c ->] [c' ->]. by exists c'. Qed.

Lemma register_symbol_origin_converter d name axis b :
  converter_changed b (_register_symbol_origin d name axis b).
Proof.
  unfold _register_symbol_origin.
  destruct (converter b) eqn:E; [eexists; reflexivity | apply converter_changed_refl].
Qed.

Lemma register_symbol_origins_converter name shape : ∀ axis b,
  converter_changed b (register_symbol_origins name axis shape b).
Proof.
  induction shape as [|d rest IH]; intros axis b; simpl.
  - apply converter_changed_refl.
  - eapply converter_changed_trans; [|apply IH].
    destruct d; auto using converter_changed_refl, register_symbol_origin_converter.
Qed.

Lemma add_value_info_fields name shape dt b :
  let b' := add_value_info name shape dt b in
  nodes b' = nodes b ∧ inputs b' = inputs b ∧ outputs b' = outputs b
  ∧ initializers b' = initializers b
  ∧ initializers_by_name b' = initializers_by_name b
  ∧ model_name b' = model_name b
  ∧ (∃ vi, value_info b' = value_info b ++ [vi] ∧ vi_name vi = name)
  ∧ value_info_metadata b'
    = <[name := (stored_shape b name shape, DtOnnx (elem_type_of dt))]>
        (value_info_metadata b).
Proof.
  unfold add_value_info. fold (stored_shape b name shape).
  set (vi0 := make_value_info b name _ dt).
  set (vi := match value_info_origin b !! name with Some _ => _ | None => _ end).
  set (od := DtOnnx _).
  match goal with |- context [register_symbol_origins ?n ?a ?sh ?bb] =>
    destruct (register_symbol_origins_converter n sh a bb) as [c ->] end.
  assert (Hvi : vi_name vi = name ∧ vi_elem_type vi = elem_type_of dt).
  { subst vi. destruct (value_info_origin b !! name) as [o|]; [destruct (truthy o)|]; done. }
  assert (Hod : od = DtOnnx (elem_type_of dt)).
  { subst od. destruct Hvi as [_ ->]. by destruct dt. }
  rewrite Hod. simpl. split_and!; try done.
  exists vi. split; [done | apply Hvi].
Qed.

Lemma declared_in_spec name vis :
  declared_in name vis = true ↔ name ∈ map vi_name vis.
Proof.
  unfold declared_in. rewrite existsb_exists, list_elem_of_fmap.
  split.
  - intros (vi & Hin & Heq). apply String.eqb_eq in Heq.
    exists vi. split; [done | by apply list_elem_of_In].
  - intros (vi & -> & Hin). exists vi. split; [by apply list_elem_of_In|].
    apply String.eqb_refl.
Qed.

Lemma declared_in_false name vis :
  declared_in name vis = false ↔ name ∉ map vi_name vis.
Proof.
  rewrite <- declared_in_spec. destruct (declared_in name vis); naive_solver.
Qed.

(** What [add_input] does to the lists of the builder. *)
Lemma add_input_fields name shape dt b :
  let b' := add_input name shape dt b in
  nodes b' = nodes b ∧ outputs b' = outputs b
  ∧ inputs b'
    = if produced_by_node name b || declared_in name (inputs b) then inputs b
      else inputs b ++ [make_value_info b name (Some (shape_tuple_of shape)) dt].
Proof.
  unfold add_input.
  destruct (produced_by_node name b) eqn:Hp; simpl.
  { destruct (add_value_info_fields name shape dt b) as (?&?&?&_). done. }
  destruct (declared_in name (inputs b)) eqn:Hd; simpl; [done|].
  destruct shape as [sh|]; simpl; [|done].
  match goal with |- context [register_symbol_origins ?n ?a ?s ?bb] =>
    destruct (register_symbol_origins_converter n s a bb) as [c ->] end.
  done.
Qed.

Lemma add_output_fields name shape dt b :
  let b' := add_output name shape dt b in
  nodes b' = nodes b ∧ inputs b' = inputs b
  ∧ outputs b'
    = if declared_in name (outputs b) then outputs b
      else outputs b ++ [make_value_info b name (Some (shape_tuple_of shape)) dt].
Proof.
  unfold add_output.
  destruct (declared_in name (outputs b)) eqn:Hd; simpl; [done|].
  destruct shape as [sh|]; simpl; [|done].
  match goal with |- context [register_symbol_origins ?n ?a ?s ?bb] =>
    destruct (register_symbol_origins_converter n s a bb) as [c ->] end.
  done.
Qed.

Lemma NoDup_names_snoc (vis : list ValueInfoProto) vi :
  NoDup (map vi_name vis) → vi_name vi ∉ map vi_name vis →
  NoDup (map vi_name (vis ++ [vi])).
Proof.
  intros Hnd Hni. rewrite map_app. apply NoDup_app. split_and!; [done| |].
  - intros x Hx Hx'. simpl in Hx'. apply list_elem_of_singleton in Hx'. by subst.
  - simpl. apply NoDup_singleton.
Qed.

Lemma run_call_NoDup b c :
  NoDup (map vi_name (inputs b)) → NoDup (map vi_name (outputs b)) →
  NoDup (map vi_name (inputs (run_call b c)))
  ∧ NoDup (map vi_name (outputs (run_call b c))).
Proof.
  intros Hi Ho. destruct c as [name shape dt|name shape dt|n]; simpl.
  - destruct (add_input_fields name shape dt b) as (_ & -> & ->).
    split; [|done].
    destruct (produced_by_node name b); simpl; [done|].
    destruct (declared_in name (inputs b)) eqn:Hd; [done|].
    apply NoDup_names_snoc; [done|]. by apply declared_in_false.
  - destruct (add_output_fields name shape dt b) as (_ & -> & ->).
    split; [done|].
    destruct (declared_in name (outputs b)) eqn:Hd; [done|].
    apply NoDup_names_snoc; [done|]. by apply declared_in_false.
  - by destruct b.
Qed.

Lemma run_calls_NoDup cs : ∀ b,
  NoDup (map vi_name (inputs b)) → NoDup (map vi_name (outputs b)) →
  NoDup (map vi_name (inputs (run_calls cs b)))
  ∧ NoDup (map vi_name (outputs (run_calls cs b))).
Proof.
  induction cs as [|c cs IH]; intros b Hi Ho; simpl; [done|].
  destruct (run_call_NoDup b c Hi Ho). by apply IH.
Qed.

Lemma produced_by_node_add_input name name' shape dt b :
  produced_by_node name (add_input name' shape dt b) = produced_by_node name b.
Proof.
  unfold produced_by_node.
  by destruct (add_input_fields name' shape dt b) as (-> & _).
Qed.

(** A second declaration of the same input leaves the input and output
    lists as they are. *)
Lemma add_input_twice_lists name shape dt shape' dt' b :
  inputs (add_input name shape' dt' (add_input name shape dt b))
    = inputs (add_input name shape dt b)
  ∧ outputs (add_input name shape' dt' (add_input name shape dt b))
    = outputs (add_input name shape dt b).
Proof.
  destruct (add_input_fields name shape' dt' (add_input name shape dt b))
    as (_ & -> & ->).
  split; [|done].
  rewrite produced_by_node_add_input.
  destruct (produced_by_node name b) eqn:Hp; simpl; [done|].
  destruct (add_input_fields name shape dt b) as (_ & _ & ->).
  rewrite Hp. simpl.
  destruct (declared_in name (inputs b)) eqn:Hd; [by rewrite Hd|].
  replace (declared_in name _) with true; [done|].
  symmetry. apply declared_in_spec. rewrite map_app. set_solver.
Qed.

(** When the name is not a node output the second [add_input] is a no-op
    on the whole builder, and so is every second [add_output]. *)
Lemma add_input_twice_noop name shape dt shape' dt' b :
  produced_by_node name b = false →
  add_input name shape' dt' (add_input name shape dt b) = add_input name shape dt b.
Proof.
  intros Hp. unfold add_input at 1.
  rewrite produced_by_node_add_input, Hp.
  replace (declared_in name _) with true; [done|].
  symmetry. apply declared_in_spec.
  destruct (add_input_fields name shape dt b) as (_ & _ & ->). rewrite Hp. simpl.
  destruct (declared_in name (inputs b)) eqn:Hd; [by apply declared_in_spec|].
  rewrite map_app. set_solver.
Qed.

Lemma add_output_twice_noop name shape dt shape' dt' b :
  add_output name shape' dt' (add_output name shape dt b) = add_output name shape dt b.
Proof.
  unfold add_output at 1.
  replace (declared_in name _) with true; [done|].
  symmetry. apply declared_in_spec.
  destruct (add_output_fields name shape dt b) as (_ & _ & ->).
  destruct (declared_in name (outputs b)) eqn:Hd; [by apply declared_in_spec|].
  rewrite map_app. set_solver.
Qed.

(** *** The order of strings *)

Lemma string_leb_trans (s1 : string) : ∀ s2 s3,
  String.leb s1 s2 = true → String.leb s2 s3 = true → String.leb s1 s3 = true.
Proof.
  unfold String.leb.
  induction s1 as [|a s1 IH]; intros [|b s2] [|c s3]; simpl; try done.
  unfold Ascii.compare.
  destruct (N.compare_spec (Ascii.N_of_ascii a) (Ascii.N_of_ascii b)); try done;
    destruct (N.compare_spec (Ascii.N_of_ascii b) (Ascii.N_of_ascii c)); try done;
    destruct (N.compare_spec (Ascii.N_of_ascii a) (Ascii.N_of_ascii c)); try done;
    try (intros; exfalso; lia).
  apply IH.
Qed.

#[global] Instance str_le_trans : Transitive str_le.
Proof. intros a b c. apply string_leb_trans. Qed.

#[global] Instance str_le_total : Total str_le.
Proof. intros a b. apply String.leb_total. Qed.

Lemma StronglySorted_filter {A} (R : relation A) (P : A → Prop)
    `{∀ x, Decision (P x)} (l : list A) :
  StronglySorted R l → StronglySorted R (filter P l).
Proof.
  induction 1 as [|x l Hl IH Hx]; [constructor|].
  rewrite filter_cons. destruct (decide (P x)); [|done].
  constructor; [done|]. rewrite Forall_forall in *.
  intros y Hy. apply Hx. by apply list_elem_of_filter in Hy as [_ ?].
Qed.

Lemma sorted_spec (l : list string) :
  StronglySorted str_le (sorted l) ∧ sorted l ≡ₚ l.
Proof.
  split; [apply StronglySorted_merge_sort; apply _ | apply merge_sort_Permutation].
Qed.

(** *** The topological check *)

Lemma truthy_spec (s : string) : truthy s = true ↔ s ≠ "".
Proof.
  unfold truthy. rewrite negb_true_iff. apply String.eqb_neq.
Qed.

Lemma check_node_inputs_cases avail n ins :
  (check_node_inputs avail n ins = Ok tt
   ∧ ∀ inp, inp ∈ ins → inp ≠ "" → inp ∈ avail)
  ∨ (∃ inp, check_node_inputs avail n ins
            = Raise (NotTopologicallySorted (node_name n) (node_op_type n) inp)
            ∧ inp ∈ ins ∧ inp ≠ "" ∧ inp ∉ avail).
Proof.
  induction ins as [|inp ins IH]; simpl.
  - left. split; [done|]. intros inp Hin. by apply elem_of_nil in Hin.
  - destruct (truthy inp) eqn:Ht; simpl.
    + destruct (bool_decide (inp ∈ avail)) eqn:Hd; simpl.
      * apply bool_decide_eq_true in Hd.
        destruct IH as [[-> IH]|(x & -> & ? & ? & ?)].
        -- left. split; [done|]. intros y Hy. apply elem_of_cons in Hy as [->|Hy]; auto.
        -- right. exists x. split_and!; try done. by apply elem_of_cons; right.
      * apply bool_decide_eq_false in Hd. right. exists inp.
        split_and!; try done; [apply elem_of_cons; by left | by apply truthy_spec].
    + destruct IH as [[-> IH]|(x & -> & ? & ? & ?)].
      * left. split; [done|]. intros y Hy Hne. apply elem_of_cons in Hy as [->|Hy]; auto.
        apply truthy_spec in Hne. congruence.
      * right. exists x. split_and!; try done. by apply elem_of_cons; right.
Qed.

Lemma check_nodes_cases ns : ∀ avail,
  (check_nodes avail ns = Ok tt
   ∧ ∀ i node inp, ns !! i = Some node → inp ∈ node_input node → inp ≠ "" →
       inp ∈ avail ∪ list_to_set (concat (map node_output (take i ns))))
  ∨ (∃ i node inp,
       check_nodes avail ns
       = Raise (NotTopologicallySorted (node_name node) (node_op_type node) inp)
       ∧ ns !! i = Some node ∧ inp ∈ node_input node ∧ inp ≠ ""
       ∧ inp ∉ avail ∪ list_to_set (concat (map node_output (take i ns)))).
Proof.
  induction ns as [|n ns IH]; intros avail; simpl.
  - left. split; [done|]. intros i node inp Hi. by rewrite lookup_nil in Hi.
  - destruct (check_node_inputs_cases avail n (node_input n))
      as [[-> Hn]|(x & -> & ? & ? & ?)].
    + destruct (IH (avail ∪ list_to_set (node_output n)))
        as [[-> Hns]|(i & node & x & -> & ? & ? & ? & Hx)].
      * left. split; [done|]. intros [|i] node inp Hi Hin Hne; simpl in *.
        -- inversion Hi; subst. apply elem_of_union_l. by apply Hn.
        -- rewrite list_to_set_app_L. specialize (Hns i node inp Hi Hin Hne).
           set_solver.
      * right. exists (S i), node, x. split_and!; try done. simpl.
        rewrite list_to_set_app_L. set_solver.
    + right. exists 0, n, x. split_and!; try done. simpl. set_solver.
Qed.

(** *** What finalization leaves unchanged *)

Lemma filter_redundant_inputs_fields b :
  let b' := _filter_redundant_inputs b in
  nodes b' = nodes b ∧ outputs b' = outputs b ∧ initializers b' = initializers b
  ∧ value_info b' = value_info b ∧ model_name b' = model_name b
  ∧ inputs b' ⊆ inputs b.
Proof.
  unfold _filter_redundant_inputs.
  destruct (initializers_by_name b); simpl; split_and!; try done;
    intros x Hx; by apply list_elem_of_filter in Hx as [_ ?].
Qed.

Lemma register_deterministic_parameters_spec l : ∀ b,
  let r := _register_deterministic_parameters l b in
  r.2 = filter (λ n, negb (is_deterministic_name n)) l
  ∧ nodes r.1 = nodes b ∧ inputs r.1 = inputs b ∧ outputs r.1 = outputs b
  ∧ initializers r.1 = initializers b ∧ model_name r.1 = model_name b.
Proof.
  induction l as [|name l IH]; intros b; simpl; [done|].
  rewrite filter_cons.
  destruct (is_deterministic_name name) eqn:Hd; simpl.
  - match goal with |- context [_register_deterministic_parameters l ?bb] =>
      destruct (IH bb) as (-> & -> & -> & -> & -> & ->) end.
    match goal with |- context [add_value_info ?n ?sh ?dt ?bb] =>
      destruct (add_value_info_fields n sh dt bb) as (-> & -> & -> & -> & _ & -> & _) end.
    done.
  - destruct (IH b) as (Hr & ? & ? & ? & ? & ?).
    destruct (_register_deterministic_parameters l b) as [b' rem]. simpl in *.
    by rewrite Hr.
Qed.

(** *** [_build_graph], step by step *)

Lemma build_graph_topology_raises name sub emp b e :
  _assert_topologically_sorted (filter_unused_initializers b) = Raise e →
  _build_graph name sub emp b = (filter_unused_initializers b, Raise e).
Proof. intros H. unfold _build_graph. by rewrite H. Qed.

Lemma before_missing_fields sub b :
  nodes (before_missing sub b) = nodes b
  ∧ outputs (before_missing sub b) = outputs b
  ∧ value_info (before_missing sub b) = value_info b
  ∧ model_name (before_missing sub b) = model_name b
  ∧ initializers (before_missing sub b) = initializers (filter_unused_initializers b)
  ∧ inputs (before_missing sub b) ⊆ inputs b
  ∧ initializers (before_missing sub b) ⊆ initializers b.
Proof.
  unfold before_missing.
  assert (Hsub : initializers (filter_unused_initializers b) ⊆ initializers b).
  { intros x Hx. unfold filter_unused_initializers in Hx. simpl in Hx.
    by apply list_elem_of_filter in Hx as [_ ?]. }
  destruct sub.
  - split_and!; done.
  - destruct (filter_redundant_inputs_fields (filter_unused_initializers b))
      as (-> & -> & -> & -> & -> & Hin).
    split_and!; done.
Qed.

Lemma build_graph_topology_ok name sub emp b :
  _assert_topologically_sorted (filter_unused_initializers b) = Ok tt →
  ∃ b',
    _build_graph name sub emp b
    = (b',
       match reported_missing sub b with
       | [] =>
           Ok {| g_nodes := nodes b;
                 g_name := graph_name name b;
                 g_inputs := if emp then [] else inputs (before_missing sub b);
                 g_outputs := outputs b;
                 g_initializer := initializers (filter_unused_initializers b);
                 g_value_info := value_info b' |}
       | missing => Raise (MissingValueInfo missing (graph_name name b))
       end).
Proof.
  intros Htopo. unfold _build_graph. rewrite Htopo.
  fold (graph_name name b). fold (before_missing sub b).
  unfold reported_missing.
  destruct (before_missing_fields sub b) as (Hn & Ho & Hv & Hm & Hi & _).
  destruct (find_missing_value_info (before_missing sub b)) as [|m ms] eqn:Hmiss.
  - exists (before_missing sub b). simpl. by rewrite Hn, Ho, Hi.
  - destruct (register_deterministic_parameters_spec (m :: ms) (before_missing sub b))
      as (Hr & Hn' & Hi' & Ho' & Hin' & _).
    destruct (_register_deterministic_parameters (m :: ms) (before_missing sub b))
      as [b' rem]. simpl in Hr, Hn', Hi', Ho', Hin'. subst rem.
    exists b'.
    destruct (filter _ (filter _ (m :: ms))) as [|m' ms']; [|done].
    by rewrite Hn', Hi', Ho', Hin', Hn, Ho, Hi.
Qed.

Lemma known_names_before_missing sub b :
  known_names (before_missing sub b) ⊆ known_names b.
Proof.
  destruct (before_missing_fields sub b) as (_ & Ho & Hv & _ & _ & Hin & Hinit).
  unfold known_names. rewrite Ho, Hv. rewrite !map_app, !list_to_set_app_L.
  assert (∀ A (f : A → string) (l l' : list A),
            l ⊆ l' → (list_to_set (map f l) : gset string) ⊆ list_to_set (map f l')) as Hmono.
  { intros A f l l' Hl x. rewrite !elem_of_list_to_set, !list_elem_of_fmap.
    intros (y & -> & Hy). eauto. }
  specialize (Hmono _ vi_name _ _ Hin) as H1.
  specialize (Hmono _ init_name _ _ Hinit) as H2.
  set_solver.
Qed.

Lemma reported_missing_spec sub b :
  StronglySorted str_le (reported_missing sub b)
  ∧ NoDup (reported_missing sub b)
  ∧ ∀ m, m ∈ reported_missing sub b
         ↔ m ∈ node_names b ∧ (m ∉ known_names (before_missing sub b))
           ∧ is_deterministic_name m = false
           ∧ startswith m "conv_transpose_out" = false.
Proof.
  unfold reported_missing, find_missing_value_info.
  destruct (before_missing_fields sub b) as (Hn & _).
  assert (Hnn : node_names (before_missing sub b) = node_names b).
  { unfold node_names. by rewrite Hn. }
  rewrite Hnn.
  set (l := filter _ (elements (node_names b))).
  destruct (sorted_spec l) as [Hs Hp].
  split_and!.
  - by do 2 apply StronglySorted_filter.
  - do 2 apply NoDup_filter. rewrite Hp. subst l.
    apply NoDup_filter, NoDup_elements.
  - intros m. rewrite !list_elem_of_filter, Hp. subst l.
    rewrite list_elem_of_filter, elem_of_elements.
    destruct (is_deterministic_name m), (startswith m "conv_transpose_out");
      simpl; naive_solver.
Qed.

(** *** Topological soundness *)

(** C1.  The topological check succeeds exactly when every non-empty input
    name of every node is, when the node is reached, a declared input, an
    initializer, or an output of an earlier node.  When finalization
    returns a graph, the graph holds the node list of the builder, and
    every node input is available in this sense, among the declared inputs
    and the initializers of the graph.  When some node of the builder
    consumes a non-empty name that is not available, finalization raises
    the not-topologically-sorted error and returns no graph. *)
Theorem build_graph_topologically_sound name sub emp (b : OnnxBuilder) :
  (_assert_topologically_sorted b = Ok tt
   ↔ topologically_sound (map vi_name (inputs b)) (map init_name (initializers b))
       (nodes b))
  ∧ (∀ b' g, _build_graph name sub emp b = (b', Ok g) →
       g_nodes g = nodes b
       ∧ topologically_sound (map vi_name (inputs b))
           (map init_name (g_initializer g)) (g_nodes g))
  ∧ (∀ i node inp,
       nodes b !! i = Some node → inp ∈ node_input node → inp ≠ "" →
       inp ∉ available_at (map vi_name (inputs b)) (map init_name (initializers b))
               (nodes b) i →
       ∃ node_name op_type x,
         (_build_graph name sub emp b).2
         = Raise (NotTopologicallySorted node_name op_type x)).
Proof.
  pose proof (check_nodes_cases (nodes b)
                (initially_available (filter_unused_initializers b))) as Hcases.
  split_and!.
  - unfold _assert_topologically_sorted.
    destruct (check_nodes_cases (nodes b) (initially_available b))
      as [[-> Hsound]|(i & node & x & -> & Hi & Hin & Hne & Hna)].
    + split; [|done]. intros _ i node inp Hi Hin Hne. by apply (Hsound i node inp).
    + split; [done|]. intros Hsound. exfalso. by apply Hna, (Hsound i node x).
  - intros b' g Hg.
    destruct Hcases as [[Hok Hsound]|(i & node & x & Hraise & _)].
    + destruct (build_graph_topology_ok name sub emp b Hok) as [b'' Hb].
      rewrite Hg in Hb. destruct (reported_missing sub b); [|congruence].
      injection Hb as _ ->. simpl. split; [done|].
      intros i node inp Hi Hin Hne. by apply (Hsound i node inp).
    + apply (build_graph_topology_raises name sub emp) in Hraise. congruence.
  - intros i node inp Hi Hin Hne Hna.
    destruct Hcases as [[Hok Hsound]|(j & node' & x & Hraise & _)].
    + exfalso. apply Hna. specialize (Hsound i node inp Hi Hin Hne).
      unfold available_at.
      assert (initially_available (filter_unused_initializers b)
              ⊆ list_to_set (map vi_name (inputs b))
                ∪ list_to_set (map init_name (initializers b))) as Hsub.
      { unfold initially_available, filter_unused_initializers. simpl.
        intros y. rewrite !elem_of_union, !elem_of_list_to_set, !list_elem_of_fmap.
        intros [?|(t & -> & Ht)]; [by left|right].
        apply list_elem_of_filter in Ht as [_ ?]. eauto. }
      set_solver.
    + apply (build_graph_topology_raises name sub emp) in Hraise.
      rewrite Hraise. simpl. eauto.
Qed.

Lemma build_graph_topologically_sound_witness :
  (g_nodes example_sorted_graph = nodes example_sorted
   ∧ topologically_sound (map vi_name (inputs example_sorted))
       (map init_name (g_initializer example_sorted_graph))
       (g_nodes example_sorted_graph))
  ∧ ∃ node_name op_type x,
      (_build_graph (Some "g") false false example_unsorted).2
      = Raise (NotTopologicallySorted node_name op_type x).
Proof.
  split.
  - apply (proj1 (proj2 (build_graph_topologically_sound (Some "g") false false
                           example_sorted))
             (_build_graph (Some "g") false false example_sorted).1
             example_sorted_graph).
    vm_compute. reflexivity.
  - apply (proj2 (proj2 (build_graph_topologically_sound (Some "g") false false
                           example_unsorted))
             0 (mkNode "n0" "Neg" ["z"] ["y"] []) "z").
    + reflexivity.
    + apply list_elem_of_singleton. reflexivity.
    + discriminate.
    + vm_compute. discriminate.
Defined.

Example build_graph_unsorted :
  (_build_graph (Some "g") false false example_unsorted).2
  = Raise (NotTopologicallySorted "n0" "Neg" "z").
Proof. reflexivity. Qed.

(** *** Missing value info *)

(** C4, as stated, fails: a node output whose name starts with
    [conv_transpose_out] is dropped from the list of missing names, and
    finalization returns a graph although the name has no value info and no
    metadata, before and after. *)
Lemma build_graph_skips_conv_transpose_out :
  ¬ (∀ name sub emp (b : OnnxBuilder) n t,
       n ∈ nodes b → t ∈ node_output n → t ∉ known_names b →
       value_info_metadata b !! t = None →
       ∃ b' missing,
         _build_graph name sub emp b
         = (b', Raise (MissingValueInfo missing (graph_name name b)))
         ∧ t ∈ missing).
Proof.
  intros H.
  destruct (H (Some "g") false false example_conv_transpose
              (mkNode "n0" "ConvTranspose" ["x"] ["conv_transpose_out_0"] [])
              "conv_transpose_out_0") as (b' & missing & Hb & _).
  - apply list_elem_of_singleton. reflexivity.
  - apply list_elem_of_singleton. reflexivity.
  - vm_compute. discriminate.
  - reflexivity.
  - vm_compute in Hb. discriminate.
Qed.

Example build_graph_conv_transpose_out :
  ∃ b' g, _build_graph (Some "g") false false example_conv_transpose = (b', Ok g)
          ∧ value_info_metadata b' !! "conv_transpose_out_0" = None
          ∧ g_value_info g = [].
Proof. eexists _, _. split_and!; reflexivity. Qed.

(** C4, amended.  Let a node output have no value info (it is not among
    the names of the inputs, outputs, value infos and initializers), let its
    name not be one of the deterministic flags that finalization registers
    by itself, and let it not start with [conv_transpose_out].  Then
    finalization returns no graph; and when the nodes pass the topological
    check, it raises the missing-value-info error with the graph name and
    with the list, sorted and without repetition, of exactly the names that
    nodes use, that have no value info when the check is made, and that are
    neither deterministic flags nor [conv_transpose_out] names: the output
    is in that list. *)
Theorem build_graph_reports_missing_value_info name sub emp (b : OnnxBuilder) n t :
  n ∈ nodes b → t ∈ node_output n → t ∉ known_names b →
  is_deterministic_name t = false →
  startswith t "conv_transpose_out" = false →
  (∀ b' g, _build_graph name sub emp b ≠ (b', Ok g))
  ∧ (_assert_topologically_sorted (filter_unused_initializers b) = Ok tt →
     ∃ b' missing,
       _build_graph name sub emp b
       = (b', Raise (MissingValueInfo missing (graph_name name b)))
       ∧ t ∈ missing
       ∧ StronglySorted str_le missing ∧ NoDup missing
       ∧ ∀ m, m ∈ missing
              ↔ m ∈ node_names b ∧ (m ∉ known_names (before_missing sub b))
                ∧ is_deterministic_name m = false
                ∧ startswith m "conv_transpose_out" = false).
Proof.
  intros Hn Ht Hk Hd Hc.
  destruct (reported_missing_spec sub b) as (Hs & Hnd & Hiff).
  assert (Hin : t ∈ reported_missing sub b).
  { apply Hiff. split_and!; try done.
    - unfold node_names. rewrite elem_of_list_to_set, list_elem_of_In.
      apply in_concat. exists (node_input n ++ node_output n). split.
      + apply in_map_iff. exists n. split; [done|]. by apply list_elem_of_In.
      + apply in_or_app. right. by apply list_elem_of_In.
    - intros Hk'. by apply Hk, (known_names_before_missing sub). }
  assert (Hok : _assert_topologically_sorted (filter_unused_initializers b) = Ok tt →
          ∃ b', _build_graph name sub emp b
                = (b', Raise (MissingValueInfo (reported_missing sub b)
                                (graph_name name b)))).
  { intros Htopo. destruct (build_graph_topology_ok name sub emp b Htopo) as [b' Hb].
    exists b'. rewrite Hb. destruct (reported_missing sub b); [|done].
    by apply elem_of_nil in Hin. }
  split.
  - intros b' g Hg.
    destruct (_assert_topologically_sorted (filter_unused_initializers b))
      as [[]|e] eqn:Htopo.
    + destruct (Hok eq_refl) as [b'' Hb]. congruence.
    + rewrite (build_graph_topology_raises name sub emp b e Htopo) in Hg. congruence.
  - intros Htopo. destruct (Hok Htopo) as [b' Hb].
    exists b', (reported_missing sub b). split_and!; done.
Qed.

Lemma build_graph_reports_missing_value_info_witness :
  ∃ b' missing,
    _build_graph (Some "g") false false example_missing
    = (b', Raise (MissingValueInfo missing "g"))
    ∧ "y" ∈ missing.
Proof.
  destruct (build_graph_reports_missing_value_info (Some "g") false false
              example_missing (mkNode "n0" "Relu" ["x"] ["y"] []) "y")
    as [_ H].
  - apply list_elem_of_singleton. reflexivity.
  - apply list_elem_of_singleton. reflexivity.
  - vm_compute. discriminate.
  - reflexivity.
  - reflexivity.
  - destruct (H eq_refl) as (b' & missing & Hb & Hin & _).
    exists b', missing. split; [exact Hb | exact Hin].
Defined.

Example build_graph_missing :
  (_build_graph (Some "g") false false example_missing).2
  = Raise (MissingValueInfo ["y"] "g").
Proof. reflexivity. Qed.

(** *** Declaring inputs and outputs *)

(** C6.  After any sequence of [add_input], [add_output] and [add_node]
    calls on a builder whose input and output lists hold no name twice, they
    still hold no name twice; and declaring again an input or an output that
    was just declared leaves both lists as they are (for an output, and for
    an input that no node produces, the whole builder). *)
Theorem declare_input_output_idempotent (b : OnnxBuilder) (cs : list call) :
  NoDup (map vi_name (inputs b)) →
  NoDup (map vi_name (outputs b)) →
  let b' := run_calls cs b in
  NoDup (map vi_name (inputs b'))
  ∧ NoDup (map vi_name (outputs b'))
  ∧ (∀ name shape dt shape' dt',
       inputs (add_input name shape' dt' (add_input name shape dt b'))
         = inputs (add_input name shape dt b')
       ∧ outputs (add_input name shape' dt' (add_input name shape dt b'))
         = outputs (add_input name shape dt b')
       ∧ (produced_by_node name b' = false →
          add_input name shape' dt' (add_input name shape dt b')
            = add_input name shape dt b')
       ∧ add_output name shape' dt' (add_output name shape dt b')
         = add_output name shape dt b').
Proof.
  intros Hi Ho b'.
  destruct (run_calls_NoDup cs b Hi Ho) as [Hi' Ho'].
  split_and!; [done..|].
  intros name shape dt shape' dt'.
  destruct (add_input_twice_lists name shape dt shape' dt' b') as [? ?].
  split_and!; auto using add_input_twice_noop, add_output_twice_noop.
Qed.

Lemma declare_input_output_idempotent_witness :
  NoDup (map vi_name (inputs (__init__ "g" None None)))
  ∧ NoDup (map vi_name (outputs (__init__ "g" None None)))
  ∧ NoDup (map vi_name (inputs (run_calls example_calls (__init__ "g" None None))))
  ∧ NoDup (map vi_name (outputs (run_calls example_calls (__init__ "g" None None)))).
Proof.
  assert (H0 : NoDup (map vi_name (inputs (__init__ "g" None None)))) by constructor.
  assert (H1 : NoDup (map vi_name (outputs (__init__ "g" None None)))) by constructor.
  split_and!; [exact H0 | exact H1 | |];
    apply (declare_input_output_idempotent (__init__ "g" None None) example_calls H0 H1).
Defined.

Example example_calls_lists :
  map vi_name (inputs (run_calls example_calls (__init__ "g" None None))) = ["x"]
  ∧ map vi_name (outputs (run_calls example_calls (__init__ "g" None None))) = ["y"]
  ∧ map vi_name (value_info (run_calls example_calls (__init__ "g" None None))) = ["y"].
Proof. vm_compute. done. Qed.

(** C7, as stated, fails: a name that is already a declared input, and that
    no node produces, has no entry in [value_info_metadata] after the second
    [add_input], which returns at once. *)
Lemma add_input_redeclared_without_metadata :
  ¬ (∀ (b : OnnxBuilder) name shape dt,
       produced_by_node name b = true ∨ declared_in name (inputs b) = true →
       inputs (add_input name shape dt b) = inputs b
       ∧ is_Some (value_info_metadata (add_input name shape dt b) !! name)).
Proof.
  intros H.
  destruct (H (add_input "x" (Some [DInt 2]) (DtNp np_float32) (__init__ "g" None None))
              "x" (Some [DInt 2]) (DtNp np_float32)) as [_ [v Hv]].
  - right. reflexivity.
  - vm_compute in Hv. discriminate.
Qed.

(** C7, amended.  [add_input] adds no formal input for a name that a node
    produces or that is declared already.  In the first case it records the
    name as an intermediate: one more [value_info] entry, and the shape
    (the converter's symbolic shape for the name when there is one) and the
    ONNX dtype in [value_info_metadata].  In the second case the call
    changes nothing at all: the name keeps the value info of its first
    declaration in the input list. *)
Theorem add_input_noop_cases (b : OnnxBuilder) name shape dt :
  (produced_by_node name b = true →
     inputs (add_input name shape dt b) = inputs b
     ∧ value_info_metadata (add_input name shape dt b) !! name
       = Some (stored_shape b name shape, DtOnnx (elem_type_of dt))
     ∧ ∃ vi, value_info (add_input name shape dt b) = value_info b ++ [vi]
             ∧ vi_name vi = name)
  ∧ (produced_by_node name b = false → declared_in name (inputs b) = true →
       add_input name shape dt b = b
       ∧ ∃ vi, vi ∈ inputs b ∧ vi_name vi = name).
Proof.
  split.
  - intros Hp. unfold add_input. rewrite Hp.
    destruct (add_value_info_fields name shape dt b)
      as (_ & -> & _ & _ & _ & _ & Hvi & ->).
    split_and!; [done | apply lookup_insert_eq | done].
  - intros Hp Hd. unfold add_input. rewrite Hp, Hd. split; [done|].
    apply declared_in_spec, list_elem_of_fmap in Hd as (vi & -> & Hin). eauto.
Qed.

Lemma add_input_noop_cases_witness :
  inputs (add_input "y" (Some [DInt 3]) (DtNp np_int32)
            (run_calls example_calls (__init__ "g" None None)))
    = inputs (run_calls example_calls (__init__ "g" None None))
  ∧ add_input "x" None (DtNp np_int32) (run_calls example_calls (__init__ "g" None None))
    = run_calls example_calls (__init__ "g" None None).
Proof.
  split.
  - apply (add_input_noop_cases (run_calls example_calls (__init__ "g" None None))
             "y" (Some [DInt 3]) (DtNp np_int32)).
    reflexivity.
  - apply (add_input_noop_cases (run_calls example_calls (__init__ "g" None None))
             "x" None (DtNp np_int32)); reflexivity.
Defined.

(** C10.  [add_scalar_input] checks nothing: it always appends a formal
    input, so two calls with one name leave two inputs of that name, whatever
    the input list held before. *)
Theorem add_scalar_input_always_appends (b : OnnxBuilder) name dt dt' :
  inputs (add_scalar_input name dt b)
    = inputs b ++ [make_value_info b name (Some []) (DtOnnx dt)]
  ∧ inputs (add_scalar_input name dt' (add_scalar_input name dt b))
    = inputs b ++ [make_value_info b name (Some []) (DtOnnx dt);
                   make_value_info b name (Some []) (DtOnnx dt')]
  ∧ length (filter (λ vi, vi_name vi = name)
              (inputs (add_scalar_input name dt' (add_scalar_input name dt b))))
    = 2 + length (filter (λ vi, vi_name vi = name) (inputs b))
  ∧ ¬ NoDup (map vi_name (inputs (add_scalar_input name dt' (add_scalar_input name dt b)))).
Proof.
  assert (H2 : inputs (add_scalar_input name dt' (add_scalar_input name dt b))
               = inputs b ++ [make_value_info b name (Some []) (DtOnnx dt);
                              make_value_info b name (Some []) (DtOnnx dt')]).
  { unfold add_scalar_input. simpl. by rewrite <- app_assoc. }
  split_and!; [done | done | |].
  - rewrite H2, filter_app, length_app.
    rewrite filter_cons_True by done. rewrite filter_cons_True by done.
    simpl. lia.
  - rewrite H2, map_app. intros Hnd. apply NoDup_app in Hnd as (_ & _ & Hnd).
    simpl in Hnd. apply NoDup_cons in Hnd as [Hni _]. set_solver.
Qed.

Example add_scalar_input_after_add_input :
  map vi_name
    (inputs (add_scalar_input "flag" TensorProto.BOOL
               (add_input "flag" (Some []) (DtOnnx TensorProto.BOOL)
                  (__init__ "g" None None))))
  = ["flag"; "flag"].
Proof. reflexivity. Qed.

(** *** The metadata store *)

(** C3, as stated, fails: after [("B", 4)] and then [(-1, 4)] the store
    holds [(-1, 4)]. *)
Lemma register_less_specific_overwrites :
  ¬ (∀ (b : OnnxBuilder) name dt,
       value_info_metadata
         (register_value_info_metadata name (Some [DInt (-1); DInt 4]) dt None
            (register_value_info_metadata name (Some [DStr "B"; DInt 4]) dt None b))
         !! name
       = Some ([DStr "B"; DInt 4], dt)).
Proof.
  intros H. specialize (H (__init__ "g" None None) "t" (DtOnnx TensorProto.FLOAT)).
  vm_compute in H. discriminate.
Qed.

(** C3, amended.  For a name for which the converter holds no symbolic
    shape, [register_value_info_metadata] stores the shape it is given,
    whatever the store held: after two registrations the store holds the
    second shape, so [(-1, 4)] then [("B", 4)] leaves [("B", 4)],
    [("B", 4)] then [(-1, 4)] leaves [(-1, 4)], and a shape of another rank
    replaces the stored one.  The predicate [_is_shape_more_specific], which
    the store does not consult, holds of [(-1, 4)] and [("B", 4)], does not
    hold of [("B", 4)] and [(-1, 4)], and holds whenever the ranks
    differ. *)
Theorem register_value_info_metadata_last_wins (b : OnnxBuilder) name
    shape1 dt1 origin1 shape2 dt2 origin2 :
  symbolic_shape_of b name = None →
  value_info_metadata
    (register_value_info_metadata name shape2 dt2 origin2
       (register_value_info_metadata name shape1 dt1 origin1 b)) !! name
    = Some (shape_tuple_of shape2, dt2)
  ∧ (∃ origin,
       value_info_metadata_with_origin
         (register_value_info_metadata name shape2 dt2 origin2
            (register_value_info_metadata name shape1 dt1 origin1 b)) !! name
       = Some (shape_tuple_of shape2, dt2, origin))
  ∧ _is_shape_more_specific [DInt (-1); DInt 4] [DStr "B"; DInt 4] = true
  ∧ _is_shape_more_specific [DStr "B"; DInt 4] [DInt (-1); DInt 4] = false
  ∧ (∀ old new, length old ≠ length new → _is_shape_more_specific old new = true).
Proof.
  intros _. split_and!.
  - unfold register_value_info_metadata. simpl. apply lookup_insert_eq.
  - unfold register_value_info_metadata. simpl. eexists. apply lookup_insert_eq.
  - reflexivity.
  - reflexivity.
  - intros old new Hlen. unfold _is_shape_more_specific.
    apply Nat.eqb_neq in Hlen. by rewrite Hlen.
Qed.

Lemma register_value_info_metadata_last_wins_witness :
  symbolic_shape_of (__init__ "g" None None) "t" = None
  ∧ value_info_metadata
      (register_value_info_metadata "t" (Some [DInt (-1); DInt 4])
         (DtOnnx TensorProto.FLOAT) None
         (register_value_info_metadata "t" (Some [DStr "B"; DInt 4])
            (DtOnnx TensorProto.FLOAT) None (__init__ "g" None None))) !! "t"
    = Some ([DInt (-1); DInt 4], DtOnnx TensorProto.FLOAT).
Proof.
  split; [reflexivity|].
  apply (register_value_info_metadata_last_wins (__init__ "g" None None) "t"
           (Some [DStr "B"; DInt 4]) (DtOnnx TensorProto.FLOAT) None
           (Some [DInt (-1); DInt 4]) (DtOnnx TensorProto.FLOAT) None).
  reflexivity.
Defined.

Example register_refines_then_keeps_last :
  let b := __init__ "g" None None in
  let f := DtOnnx TensorProto.FLOAT in
  value_info_metadata
    (register_value_info_metadata "t" (Some [DStr "B"; DInt 4]) f None
       (register_value_info_metadata "t" (Some [DInt (-1); DInt 4]) f None b)) !! "t"
    = Some ([DStr "B"; DInt 4], f)
  ∧ value_info_metadata
      (register_value_info_metadata "t" (Some [DInt (-1); DInt 4]) f None
         (register_value_info_metadata "t" (Some [DStr "B"; DInt 4]) f None b)) !! "t"
    = Some ([DInt (-1); DInt 4], f)
  ∧ value_info_metadata
      (register_value_info_metadata "t" (Some [DInt 4]) f None
         (register_value_info_metadata "t" (Some [DStr "B"; DInt 4]) f None b)) !! "t"
    = Some ([DInt 4], f).
Proof. vm_compute. done. Qed.

End BuilderProofs.

(** ** Proofs about the scatter legalizer *)

Module ScatterProofs.
Import Py Scatter ScatterProps.

(** *** Equality of dimensions and shapes *)

Lemma is_dim_symbolic_obj d s :
  _is_dim_symbolic d s = true → ∃ o, d = DObj o.
Proof. destruct d; simpl; try done. eauto. Qed.

Lemma are_shapes_equal_iff s shape1 shape2 :
  _are_shapes_equal shape1 shape2 s = Ok true
  ↔ Forall2 (λ a b, _are_dims_equal a b s = Ok true) shape1 shape2.
Proof.
  unfold _are_shapes_equal. split.
  - destruct (length shape1 =? length shape2)%nat eqn:Hlen; simpl; [|done].
    apply Nat.eqb_eq in Hlen. revert shape2 Hlen.
    induction shape1 as [|a l1 IH]; intros [|b l2] Hlen; simpl in *; try done.
    destruct (_are_dims_equal a b s) as [[]|] eqn:Hab; simpl; try done.
    intros H. constructor; [done|]. apply IH; [lia | done].
  - intros HF. rewrite (Forall2_length _ _ _ HF), Nat.eqb_refl. simpl.
    induction HF as [|a b l1 l2 Hab _ IH]; simpl; [done|]. by rewrite Hab.
Qed.

(** C8.  On two dimensions that are not symbolic [_are_dims_equal] compares
    the integer values (so Python and NumPy integers are equal exactly when
    their values are); it never holds of a symbolic and a non-symbolic
    dimension; and on two symbolic dimensions, which are objects, it is
    their identity.  [_are_shapes_equal] holds of two shapes exactly when
    they have the same length and [_are_dims_equal] holds position by
    position. *)
Theorem are_dims_equal_spec (s : Jaxpr2OnnxConverter) (d1 d2 : dim) :
  (∀ v1 v2,
     _is_dim_symbolic d1 s = false → _is_dim_symbolic d2 s = false →
     py_int d1 = Ok v1 → py_int d2 = Ok v2 →
     _are_dims_equal d1 d2 s = Ok (v1 =? v2)%Z
     ∧ (_are_dims_equal d1 d2 s = Ok true ↔ v1 = v2))
  ∧ (_is_dim_symbolic d1 s ≠ _is_dim_symbolic d2 s →
     _are_dims_equal d1 d2 s = Ok false)
  ∧ (_is_dim_symbolic d1 s = true → _is_dim_symbolic d2 s = true →
     ∃ o1 o2, d1 = DObj o1 ∧ d2 = DObj o2
              ∧ (_are_dims_equal d1 d2 s = Ok true ↔ obj_id o1 = obj_id o2)
              ∧ (_are_dims_equal d1 d2 s = Ok false ↔ obj_id o1 ≠ obj_id o2))
  ∧ (∀ z1 z2,
       _are_dims_equal (DInt z1) (DInt z2) s = Ok (z1 =? z2)%Z
       ∧ _are_dims_equal (DInt z1) (DNpInt z2) s = Ok (z1 =? z2)%Z
       ∧ _are_dims_equal (DNpInt z1) (DInt z2) s = Ok (z1 =? z2)%Z
       ∧ _are_dims_equal (DNpInt z1) (DNpInt z2) s = Ok (z1 =? z2)%Z)
  ∧ (∀ shape1 shape2,
       _are_shapes_equal shape1 shape2 s = Ok true
       ↔ Forall2 (λ a b, _are_dims_equal a b s = Ok true) shape1 shape2).
Proof.
  split_and!.
  - intros v1 v2 H1 H2 Hv1 Hv2. unfold _are_dims_equal.
    rewrite H1, H2, Hv1, Hv2. simpl. split; [done|].
    split; [intros [= H]; by apply Z.eqb_eq | intros ->; by rewrite Z.eqb_refl].
  - intros Hne. unfold _are_dims_equal.
    destruct (_is_dim_symbolic d1 s), (_is_dim_symbolic d2 s); simpl; congruence.
  - intros H1 H2.
    destruct (is_dim_symbolic_obj _ _ H1) as [o1 ->].
    destruct (is_dim_symbolic_obj _ _ H2) as [o2 ->].
    exists o1, o2. unfold _are_dims_equal. rewrite H1, H2. simpl.
    split_and!; try done.
    + split; [intros [= H]; by apply bool_decide_eq_true in H|].
      intros H. f_equal. by apply bool_decide_eq_true.
    + split; [intros [= H]; by apply bool_decide_eq_false in H|].
      intros H. f_equal. by apply bool_decide_eq_false.
  - intros z1 z2. split_and!; reflexivity.
  - intros shape1 shape2. apply are_shapes_equal_iff.
Qed.

Example are_dims_equal_examples :
  _are_dims_equal (DInt 3) (DNpInt 3) plain_converter = Ok true
  ∧ _are_dims_equal (DInt 3) (DInt 4) plain_converter = Ok false
  ∧ _are_dims_equal symbol_B (DInt 3) plain_converter = Ok false
  ∧ _are_dims_equal symbol_B symbol_B plain_converter = Ok true
  ∧ _are_dims_equal symbol_B symbol_C plain_converter = Ok false
  ∧ _are_shapes_equal [symbol_B; DInt 4] [symbol_B; DNpInt 4] plain_converter = Ok true
  ∧ _are_shapes_equal [symbol_B; DInt 4] [symbol_C; DInt 4] plain_converter = Ok false.
Proof. split_and!; reflexivity. Qed.

(** *** Making shapes concrete *)

Lemma make_concrete_from_unfold shp s ctx i d rest :
  make_concrete_from shp s ctx i (d :: rest)
  = match concrete_value s d with
    | Some v =>
        match make_concrete_from shp s ctx (S i) rest with
        | Ok vs => Ok (v :: vs)
        | Raise e => Raise e
        end
    | None => Raise (CannotMakeConcrete ctx shp d i)
    end.
Proof.
  destruct d as [z|z|o]; simpl; [done | done |].
  destruct (get_concrete_value_from_symbolic_dim s) as [f|];
    [destruct (f (DObj o)); [done|]|]; by destruct (obj_literal_val o).
Qed.

Lemma make_concrete_from_Ok shp s ctx rest : ∀ i l,
  make_concrete_from shp s ctx i rest = Ok l
  ↔ Forall2 (λ d v, concrete_value s d = Some v) rest l.
Proof.
  induction rest as [|d rest IH]; intros i l.
  - simpl. split; [intros [= <-]; constructor | by inversion 1].
  - rewrite make_concrete_from_unfold. split.
    + destruct (concrete_value s d) as [v|] eqn:Hd; [|done].
      destruct (make_concrete_from shp s ctx (S i) rest) as [vs|] eqn:Hr; [|done].
      intros [= <-]. constructor; [done|]. by apply (IH (S i)).
    + inversion 1 as [|? v ? vs Hd Hr]; subst. rewrite Hd.
      apply (IH (S i)) in Hr. by rewrite Hr.
Qed.

Lemma make_concrete_from_cases shp s ctx rest : ∀ i,
  (∃ l, make_concrete_from shp s ctx i rest = Ok l)
  ∨ (∃ d j, make_concrete_from shp s ctx i rest = Raise (CannotMakeConcrete ctx shp d j)
            ∧ d ∈ rest ∧ concrete_value s d = None).
Proof.
  induction rest as [|d rest IH]; intros i.
  - left. by exists [].
  - rewrite make_concrete_from_unfold.
    destruct (concrete_value s d) as [v|] eqn:Hd.
    + destruct (IH (S i)) as [[l ->]|(d' & j & -> & ? & ?)]; [left; eauto|].
      right. exists d', j. split_and!; try done. by apply elem_of_cons; right.
    + right. exists d, i. split_and!; try done. by apply elem_of_cons; left.
Qed.


(** *** Comparisons that do not raise *)




(** *** The target shape of the indices *)

(** C9.  For an empty indices shape the target shape is [(1, K)], which is
    [(1, 0)] when [K = 0]; for an indices shape of rank 1 whose dimension
    equals [K], with [K > 0], it is [(1, K)]. *)
Theorem target_indices_shape_small (s : Jaxpr2OnnxConverter) :
  (∀ k, target_indices_shape [] k s = Ok [DInt 1; DInt (Z.of_nat k)])
  ∧ target_indices_shape [] 0 s = Ok [DInt 1; DInt 0]
  ∧ (∀ k d, (0 < k)%nat → _are_dims_equal d (int_dim k) s = Ok true →
       target_indices_shape [d] k s = Ok [DInt 1; DInt (Z.of_nat k)])
  ∧ (∀ k, (0 < k)%nat →
       target_indices_shape [DInt (Z.of_nat k)] k s = Ok [DInt 1; DInt (Z.of_nat k)]
       ∧ target_indices_shape [DNpInt (Z.of_nat k)] k s
         = Ok [DInt 1; DInt (Z.of_nat k)]).
Proof.
  assert (Hrank1 : ∀ k d, (0 < k)%nat → _are_dims_equal d (int_dim k) s = Ok true →
            target_indices_shape [d] k s = Ok [DInt 1; DInt (Z.of_nat k)]).
  { intros k d Hk Hd. unfold target_indices_shape. simpl.
    replace (0 <? k)%nat with true by (symmetry; by apply Nat.ltb_lt).
    simpl. by rewrite Hd. }
  split_and!; [| reflexivity | exact Hrank1 |].
  - intros [|k]; reflexivity.
  - intros k Hk. split; apply Hrank1; try done;
      unfold _are_dims_equal, int_dim; simpl; by rewrite Z.eqb_refl.
Qed.

Lemma target_indices_shape_small_witness :
  target_indices_shape [] 2 plain_converter = Ok [DInt 1; DInt 2]
  ∧ target_indices_shape [DNpInt 2] 2 plain_converter = Ok [DInt 1; DInt 2].
Proof.
  split.
  - apply (proj1 (target_indices_shape_small plain_converter) 2%nat).
  - apply (proj1 (proj2 (proj2 (target_indices_shape_small plain_converter)))
             2%nat (DNpInt 2)); [lia | reflexivity].
Defined.

(** *** Element counts *)

Lemma wrap_int64_small z : (- 2 ^ 63 ≤ z < 2 ^ 63)%Z → wrap_int64 z = z.
Proof. intros H. unfold wrap_int64. rewrite Z.mod_small; lia. Qed.






(** *** The default path for the updates *)

Lemma bind_lift_Ok {A B} (a : A) (k : A → M B) st :
  bind (lift (Ok a)) k st = k a st.
Proof. reflexivity. Qed.




(** The same on the whole function: an operand of shape [(5, 0)], indices
    of shape [(2, 3, 1)] and updates of shape [(2, 3, 0)].  The indices are
    reshaped to [(6, 1)]; the updates, expected with shape [(6, 0)], are
    returned as they are. *)
Example prepare_scatter_both_empty :
  let r := _prepare_scatter_inputs_for_onnx plain_converter operand_5_0 indices_2_3_1
             updates_2_3_0 dnums_axis0_batch2 empty_state in
  r.2 = Ok ("op", "idx_reshaped_idx_auto_0", "upd")
  ∧ map op_type (nodes r.1) = ["Reshape"]
  ∧ map input (nodes r.1) = [["idx"; "const_0"]]
  ∧ shape_env r.1 !! "upd" = Some ([DInt 6; DInt 0], Builder.np_float32).
Proof. vm_compute. done. Qed.



Example prepare_scatter_mismatch_and_squeeze :
  let r := _prepare_scatter_inputs_for_onnx plain_converter operand_5_0 indices_2_1
             updates_3_2 dnums_axis0 empty_state in
  let r' := _prepare_scatter_inputs_for_onnx plain_converter operand_5_3 indices_2_1
              updates_2_1_3 dnums_axis0 empty_state in
  r.2 = Raise (UpdatesElementCountMismatch [DInt 3; DInt 2] 6 [DNpInt 2; DInt 0] 0
                 "op" [DInt 5; DInt 0] "idx" [DNpInt 2; DInt 1] dnums_axis0)
  ∧ nodes r.1 = []
  ∧ r'.2 = Ok ("op", "idx", "upd_squeezed_default_0")
  ∧ nodes r'.1 = [make_node "Squeeze" ["upd"; "const_0"] ["upd_squeezed_default_0"] []].
Proof. vm_compute. done. Qed.

(** *** The batched-window path *)

Lemma bind_run {A B} (m : M A) (k : A → M B) st st' a :
  m st = (st', Ok a) → bind m k st = k a st'.
Proof. intros H. unfold bind. by rewrite H. Qed.

















Lemma bind_ensure_entry {B} s name shape dt (k : unit → M B) st :
  bind (ensure_entry s name shape dt) k st
  = k tt (_manually_ensure_shape_env_entry s name shape dt st).
Proof. reflexivity. Qed.




Example prepare_scatter_symbolic_batch :
  (_prepare_scatter_inputs_for_onnx plain_converter operand_B_6 indices_1 updates_B_6
     dnums_window empty_state).2
  = Raise (CannotMakeConcrete "d2_op_shape" [symbol_B; DInt 6] symbol_B 0).
Proof. reflexivity. Qed.



Example prepare_scatter_batched_window :
  let r := _prepare_scatter_inputs_for_onnx plain_converter operand_4_6 indices_1
             updates_4_6 dnums_window empty_state in
  r.2 = Ok ("op", "indices_2d_BL2_d2_0", "upd")
  ∧ shape_env r.1 !! "indices_2d_BL2_d2_0"
    = Some ([DInt 4; DInt 6; DInt 2], Builder.np_int64)
  ∧ map op_type (nodes r.1)
    = ["Reshape"; "Squeeze"; "Range"; "Unsqueeze"; "Expand"; "Range"; "Add";
       "Unsqueeze"; "Expand"; "Unsqueeze"; "Unsqueeze"; "Concat"].
Proof. vm_compute. done. Qed.

End ScatterProofs.

(** ** Further properties of the builder *)

Module BuilderCoverage.
Import Py Builder BuilderProps BuilderProofs.

Section dict.
Context {K V : Type} `{EqDecision K}.
Implicit Types (d : list (K * V)) (k : K) (v : V).

Lemma dict_get_set d k v k' :
  dict_get (dict_set d k v) k' = if decide (k = k') then Some v else dict_get d k'.
Proof.
  induction d as [|[k0 v0] d IH]; simpl.
  - destruct (decide (k = k')); done.
  - destruct (decide (k0 = k)) as [->|Hne]; simpl.
    + destruct (decide (k = k')); done.
    + destruct (decide (k0 = k')) as [->|Hne'].
      * by rewrite decide_False by done.
      * done.
Qed.

Lemma dict_get_None d k : dict_get d k = None ↔ k ∉ map fst d.
Proof.
  induction d as [|[k0 v0] d IH]; simpl.
  - split; [intros _; apply not_elem_of_nil | done].
  - destruct (decide (k0 = k)) as [->|Hne].
    + split; [done | intros H; exfalso; apply H; by left].
    + rewrite IH. rewrite not_elem_of_cons. naive_solver.
Qed.

Lemma dict_get_Some_elem d k v : dict_get d k = Some v → (k, v) ∈ d.
Proof.
  induction d as [|[k0 v0] d IH]; simpl; [done|].
  destruct (decide (k0 = k)) as [->|Hne].
  - intros [= ->]. by left.
  - intros H. right. by apply IH.
Qed.

Lemma dict_set_new d k v : dict_get d k = None → dict_set d k v = d ++ [(k, v)].
Proof.
  induction d as [|[k0 v0] d IH]; simpl; [done|].
  destruct (decide (k0 = k)); [done|]. intros H. by rewrite IH.
Qed.

Lemma dict_set_keys d k v :
  map fst (dict_set d k v)
  = if decide (k ∈ map fst d) then map fst d else map fst d ++ [k].
Proof.
  induction d as [|[k0 v0] d IH].
  - destruct (decide (k ∈ map fst [])) as [H|H]; [by apply elem_of_nil in H | done].
  - cbn [dict_set map fst].
    destruct (decide (k0 = k)) as [->|Hne]; cbn [map fst].
    + destruct (decide (k ∈ k :: map fst d)) as [H|H]; [done|].
      exfalso. apply H. by left.
    + rewrite IH. destruct (decide (k ∈ map fst d)) as [Hin|Hni].
      * destruct (decide (k ∈ k0 :: map fst d)) as [H|H]; [done|].
        exfalso. apply H. by right.
      * destruct (decide (k ∈ k0 :: map fst d)) as [H|H]; [|done].
        apply elem_of_cons in H as [->|H]; done.
Qed.

Lemma dict_set_NoDup d k v : NoDup (map fst d) → NoDup (map fst (dict_set d k v)).
Proof.
  intros Hnd. rewrite dict_set_keys. destruct (decide (k ∈ map fst d)); [done|].
  apply NoDup_app. split_and!; [done | | apply NoDup_singleton].
  intros x Hx Hx'. apply list_elem_of_singleton in Hx'. by subst.
Qed.

Lemma dict_set_elem d k v p : p ∈ dict_set d k v → p = (k, v) ∨ p ∈ d.
Proof.
  induction d as [|[k0 v0] d IH]; simpl.
  - intros ->%list_elem_of_singleton. by left.
  - destruct (decide (k0 = k)) as [->|Hne].
    + intros [->|H]%elem_of_cons; [by left | right; by right].
    + intros [->|H]%elem_of_cons; [right; by left|].
      destruct (IH H); [by left | right; by right].
Qed.
End dict.

Lemma unique_function_protos_fold (fs : list FunctionProto) : ∀ d,
  NoDup (map fst d) →
  (∀ p, p ∈ d → fn_name p.2 = p.1) →
  let d' := fold_left (λ d f, dict_set d (fn_name f) f) fs d in
  NoDup (map fst d')
  ∧ (∀ p, p ∈ d' → fn_name p.2 = p.1 ∧ (p ∈ d ∨ p.2 ∈ fs))
  ∧ (∀ k, k ∈ map fst d' ↔ k ∈ map fst d ∨ k ∈ map fn_name fs).
Proof.
  induction fs as [|f fs IH]; intros d Hnd Hname; simpl.
  - split_and!; [done | intros p Hp; split; [by apply Hname | by left] |].
    intros k. split; [by left | intros [?|H]; [done | by apply elem_of_nil in H]].
  - destruct (IH (dict_set d (fn_name f) f)) as (Hnd' & Hp' & Hk').
    + by apply dict_set_NoDup.
    + intros p [->|Hp]%dict_set_elem; [done | by apply Hname].
    + split_and!; [done | |].
      * intros p Hp. destruct (Hp' p Hp) as [Hn [Hin|Hin]].
        -- split; [done|]. apply dict_set_elem in Hin as [->|Hin]; [right; by left | by left].
        -- split; [done|]. right. by right.
      * intros k. rewrite Hk', dict_set_keys.
        destruct (decide (fn_name f ∈ map fst d)).
        -- rewrite elem_of_cons. naive_solver.
        -- rewrite elem_of_app, list_elem_of_singleton, elem_of_cons. naive_solver.
Qed.

Lemma duplicates_fold (names : list string) : ∀ (seen duplicates : gset string),
  NoDup names → (∀ n, n ∈ names → n ∉ seen) →
  (fold_left
     (λ (acc : gset string * gset string) n,
        let '(seen, duplicates) := acc in
        ({[n]} ∪ seen, if decide (n ∈ seen) then {[n]} ∪ duplicates else duplicates))
     names (seen, duplicates)).2 = duplicates.
Proof.
  induction names as [|n names IH]; intros seen dups Hnd Hseen; simpl; [done|].
  apply NoDup_cons in Hnd as [Hni Hnd].
  rewrite decide_False by (apply Hseen; by left).
  apply IH; [done|]. intros m Hm. specialize (Hseen m). set_solver.
Qed.

Lemma register_deterministic_parameters_functions l : ∀ b,
  functions (_register_deterministic_parameters l b).1 = functions b.
Proof.
  induction l as [|name l IH]; intros b; simpl; [done|].
  destruct (is_deterministic_name name).
  - rewrite IH. unfold add_value_info.
    match goal with |- context [register_symbol_origins ?n ?a ?sh ?bb] =>
      destruct (register_symbol_origins_converter n sh a bb) as [c ->] end.
    done.
  - specialize (IH b). by destruct (_register_deterministic_parameters l b).
Qed.

Lemma build_graph_functions name sub emp b :
  functions (_build_graph name sub emp b).1 = functions b.
Proof.
  unfold _build_graph.
  destruct (_assert_topologically_sorted _); [|done].
  set (b1 := if sub then _ else _).
  assert (functions b1 = functions b) as Hb1.
  { subst b1. destruct sub; [done|]. unfold _filter_redundant_inputs. simpl.
    by destruct (initializers_by_name b). }
  destruct (find_missing_value_info b1) as [|m ms]; [done|].
  pose proof (register_deterministic_parameters_functions (m :: ms) b1) as Hf.
  destruct (_register_deterministic_parameters (m :: ms) b1) as [b2 missing].
  simpl in Hf. destruct (filter _ missing); simpl; congruence.
Qed.

(** X9.  The model that [_finalize_model] builds holds the graph it is
    given and one function per function name: the names of its functions are
    pairwise distinct, every function of the model is a registered one, and
    every name of a registered function occurs.  The set of duplicate names
    that the method collects for its warning is therefore always empty.  The
    operator sets are the default one at the builder's opset, followed by
    the custom domain at version 1 exactly when the builder holds a
    function.  When [create_onnx_model] returns a model, the graph of the
    model is the one that [_build_graph] returns for the main graph, and the
    functions are those of the builder before the call, deduplicated. *)
Theorem finalize_model_functions_unique (opset : Z) (graph : GraphProto)
    (b : OnnxBuilder) :
  let model := _finalize_model opset graph b in
  NoDup (map fn_name (m_functions model))
  ∧ duplicate_function_names b = ∅
  ∧ (∀ name, name ∈ map fn_name (m_functions model)
             ↔ ∃ f, f ∈ map snd (functions b) ∧ fn_name f = name)
  ∧ (∀ f, f ∈ m_functions model → f ∈ map snd (functions b))
  ∧ m_graph model = graph
  ∧ m_opset_import model
    = ("", opset)
      :: (if decide (functions b = []) then [] else [(CUSTOM_DOMAIN, CUSTOM_DOMAIN_VERSION)])
  ∧ (∀ model_name b' m,
       create_onnx_model opset model_name b = (b', Ok m) →
       _build_graph (Some model_name) false false b = (b', Ok (m_graph m))
       ∧ m_functions m = unique_function_protos b
       ∧ NoDup (map fn_name (m_functions m))).
Proof.
  simpl.
  destruct (unique_function_protos_fold (map snd (functions b)) [])
    as (Hnd & Hp & Hk); [constructor | by intros p Hp%elem_of_nil |].
  assert (map fn_name (unique_function_protos b)
          = map fst (fold_left (λ d f, dict_set d (fn_name f) f)
                       (map snd (functions b)) [])) as Hnames.
  { unfold unique_function_protos. rewrite map_map. apply map_ext_in.
    intros p Hp'%list_elem_of_In. by apply Hp. }
  split_and!.
  - by rewrite Hnames.
  - unfold duplicate_function_names. rewrite Hnames.
    apply duplicates_fold; [done | set_solver].
  - intros name. rewrite Hnames, Hk. split.
    + intros [H|H]; [by apply elem_of_nil in H|].
      apply list_elem_of_fmap in H as (f & -> & Hf). eauto.
    + intros (f & Hf & <-). right. apply list_elem_of_fmap. eauto.
  - intros f (p & -> & Hin)%list_elem_of_fmap.
    destruct (Hp p Hin) as [_ [H|H]]; [by apply elem_of_nil in H | done].
  - done.
  - by destruct (functions b).
  - intros model_name b' m. unfold create_onnx_model.
    pose proof (build_graph_functions (Some model_name) false false b) as Hf.
    destruct (_build_graph (Some model_name) false false b) as [b1 [g|e]]; [|done].
    simpl in Hf. intros [= <- <-]. simpl. unfold unique_function_protos in *.
    rewrite Hf. split_and!; try done. by rewrite <- Hnames in Hnd.
Qed.

Example finalize_model_example :
  let model := _finalize_model 21 example_sorted_graph example_with_function in
  map fn_name (m_functions model) = ["f"]
  ∧ m_opset_import model = [("", 21%Z); ("custom", 1%Z)]
  ∧ m_opset_import (_finalize_model 21 example_sorted_graph example_sorted)
    = [("", 21%Z)].
Proof. by vm_compute. Qed.

Lemma merge_functions_fold (other : list (string * FunctionProto)) : ∀ fs,
  let fs' := fold_left merge_step other fs in
  (∀ name, dict_get fs' name
           = match dict_get fs name with
             | Some f => Some f
             | None => dict_get other name
             end)
  ∧ (∃ added, fs' = fs ++ added ∧ added ⊆ other)
  ∧ (NoDup (map fst fs) → NoDup (map fst fs')).
Proof.
  induction other as [|[k f] other IH]; intros fs; simpl.
  - split_and!; [intros name; by destruct (dict_get fs name) | | done].
    exists []. by rewrite app_nil_r.
  - destruct (IH (merge_step fs (k, f))) as (Hget & (added & Hadd & Hsub) & Hnd).
    unfold merge_step in *. simpl in *.
    destruct (dict_get fs k) as [f0|] eqn:Hk.
    + split_and!; [|exists added; split; [done | set_solver] | done].
      intros name. rewrite Hget. destruct (dict_get fs name) eqn:Hn; [done|].
      destruct (decide (k = name)) as [->|]; [congruence | done].
    + split_and!.
      * intros name. rewrite Hget, dict_get_set.
        destruct (decide (k = name)) as [->|Hne]; [by rewrite Hk|].
        by destruct (dict_get fs name).
      * exists ((k, f) :: added). rewrite Hadd, (dict_set_new _ _ _ Hk), <- app_assoc.
        split; [done | set_solver].
      * intros H. apply Hnd. by apply dict_set_NoDup.
Qed.

(** X10.  [merge_functions_from] never replaces a function of the builder:
    after the call a name of the builder still maps to the function it
    mapped to, a name known only to the other builder maps to the function
    of the other builder, and any other name is still unknown.  The
    functions of the builder stay in place and in order, the new ones are
    appended; names stay pairwise distinct.  [_propagate_nested_functions]
    leaves the same builder, and merging the same builder a second time
    changes nothing. *)
Theorem merge_functions_from_keeps_existing (other b : OnnxBuilder) :
  let b' := merge_functions_from other b in
  (∀ name, dict_get (functions b') name
           = match dict_get (functions b) name with
             | Some f => Some f
             | None => dict_get (functions other) name
             end)
  ∧ (∃ added, functions b' = functions b ++ added ∧ added ⊆ functions other)
  ∧ (NoDup (map fst (functions b)) → NoDup (map fst (functions b')))
  ∧ _propagate_nested_functions other b = b'
  ∧ merge_functions_from other b' = b'.
Proof.
  pose proof (merge_functions_fold (functions other) (functions b)) as (Hget & Hadd & Hnd).
  simpl. split_and!; try done.
  fold merge_step in *.
  set (fs' := fold_left merge_step (functions other) (functions b)) in *.
  assert (∀ l fs, (∀ p, p ∈ l → is_Some (dict_get fs p.1)) → fold_left merge_step l fs = fs)
    as Hfix.
  { induction l as [|p l IH]; intros fs Hall; simpl; [done|].
    destruct (Hall p) as [f Hf]; [by left|].
    unfold merge_step at 2. rewrite Hf. apply IH. intros q Hq. apply Hall. by right. }
  assert (fold_left merge_step (functions other) fs' = fs') as Hidem.
  { apply Hfix. intros [k f] Hp. simpl. rewrite Hget.
    destruct (dict_get (functions b) k) eqn:Hk; [done|].
    destruct (dict_get (functions other) k) eqn:Hk'; [done|].
    apply dict_get_None in Hk'. exfalso. apply Hk'.
    apply list_elem_of_fmap. by exists (k, f). }
  unfold merge_functions_from. fold merge_step. fold fs'.
  unfold set_functions. simpl. fold merge_step. by rewrite Hidem.
Qed.

Lemma merge_metadata_fold (l : list (string * (list dim * dtype))) :
  ∀ m : gmap string (list dim * dtype),
  NoDup (map fst l) →
  ∀ name,
    fold_left
      (λ m item, match m !! item.1 with
                 | None => <[item.1 := item.2]> m
                 | Some existing => m
                 end) l m !! name
    = match m !! name with
      | Some x => Some x
      | None => (list_to_map l : gmap string (list dim * dtype)) !! name
      end.
Proof.
  induction l as [|[k v] l IH]; intros m Hnd name; simpl.
  - rewrite lookup_empty. by destruct (m !! name).
  - apply NoDup_cons in Hnd as [Hni Hnd]. rewrite IH by done.
    destruct (m !! k) as [x|] eqn:Hk.
    + destruct (m !! name) eqn:Hn; [done|].
      rewrite lookup_insert_ne; [done|]. intros ->. congruence.
    + destruct (decide (k = name)) as [->|Hne].
      * by rewrite !lookup_insert_eq, Hk.
      * by rewrite !lookup_insert_ne.
Qed.

(** X11.  [merge_value_info_metadata_from] never overwrites: after the
    call a name that had shape and dtype keeps them, and a name that only
    the other builder knew has the shape and dtype of the other builder.
    The dictionary with origins is left as it is, so for a name merged in,
    [get_shape_dtype] returns its shape and dtype while
    [get_value_info_metadata_with_origin] returns them with the origin
    [None].  Merging the same builder a second time changes nothing. *)
Theorem merge_value_info_metadata_never_overwrites (other b : OnnxBuilder) :
  let b' := merge_value_info_metadata_from other b in
  (∀ name, value_info_metadata b' !! name
           = match value_info_metadata b !! name with
             | Some x => Some x
             | None => value_info_metadata other !! name
             end)
  ∧ value_info_metadata_with_origin b' = value_info_metadata_with_origin b
  ∧ (∀ name shape dt,
       value_info_metadata b !! name = None →
       value_info_metadata_with_origin b !! name = None →
       value_info_metadata other !! name = Some (shape, dt) →
       get_shape_dtype name b' = inr (shape, dt)
       ∧ get_value_info_metadata_with_origin name b' = Some (shape, dt, None))
  ∧ merge_value_info_metadata_from other b' = b'.
Proof.
  set (step := λ (m : gmap string (list dim * dtype)) (item : string * (list dim * dtype)),
         match m !! item.1 with
         | None => <[item.1 := item.2]> m
         | Some existing => m
         end).
  assert (∀ (m : gmap string (list dim * dtype)) name,
            fold_left step (map_to_list (value_info_metadata other)) m !! name
            = match m !! name with
              | Some x => Some x
              | None => value_info_metadata other !! name
              end) as Hget.
  { intros m name. subst step.
    rewrite merge_metadata_fold by apply NoDup_fst_map_to_list.
    by rewrite list_to_map_to_list. }
  assert (∀ m : gmap string (list dim * dtype),
            fold_left step (map_to_list (value_info_metadata other))
              (fold_left step (map_to_list (value_info_metadata other)) m)
            = fold_left step (map_to_list (value_info_metadata other)) m) as Hidem.
  { intros m. apply map_eq. intros name. rewrite !Hget.
    destruct (m !! name); [done|]. by destruct (value_info_metadata other !! name). }
  unfold merge_value_info_metadata_from. fold step. simpl. split_and!.
  - intros name. apply Hget.
  - done.
  - intros name shape dt Hb Hbo Ho.
    unfold get_shape_dtype, get_value_info_metadata_with_origin. simpl.
    rewrite Hget, Hb, Ho. by rewrite Hbo.
  - unfold set_metadata. simpl. by rewrite Hidem.
Qed.

Lemma register_in_sync name shape dt origin b :
  metadata_in_sync b → metadata_in_sync (register_value_info_metadata name shape dt origin b).
Proof.
  intros Hs n. unfold register_value_info_metadata. simpl.
  destruct (decide (name = n)) as [->|Hne].
  - by rewrite !lookup_insert_eq.
  - rewrite !lookup_insert_ne by done. apply Hs.
Qed.

Lemma in_sync_set_converter c b :
  metadata_in_sync b → metadata_in_sync (set_converter c b).
Proof. done. Qed.

Lemma add_value_info_in_sync name shape dt b :
  metadata_in_sync b → metadata_in_sync (add_value_info name shape dt b).
Proof.
  intros Hs. unfold add_value_info.
  match goal with |- context [register_symbol_origins ?n ?a ?sh ?bb] =>
    destruct (register_symbol_origins_converter n sh a bb) as [c ->] end.
  apply in_sync_set_converter, register_in_sync. exact Hs.
Qed.

Lemma add_input_in_sync name shape dt b :
  metadata_in_sync b → metadata_in_sync (add_input name shape dt b).
Proof.
  intros Hs. unfold add_input.
  destruct (produced_by_node name b); [by apply add_value_info_in_sync|].
  destruct (declared_in name (inputs b)); [done|].
  destruct shape as [sh|]; [|exact Hs].
  match goal with |- context [register_symbol_origins ?n ?a ?s ?bb] =>
    destruct (register_symbol_origins_converter n s a bb) as [c ->] end.
  exact Hs.
Qed.

Lemma add_output_in_sync name shape dt b :
  metadata_in_sync b → metadata_in_sync (add_output name shape dt b).
Proof.
  intros Hs. unfold add_output.
  destruct (declared_in name (outputs b)); [done|].
  destruct shape as [sh|]; [|exact Hs].
  match goal with |- context [register_symbol_origins ?n ?a ?s ?bb] =>
    destruct (register_symbol_origins_converter n s a bb) as [c ->] end.
  exact Hs.
Qed.

Lemma register_deterministic_in_sync l : ∀ b,
  metadata_in_sync b → metadata_in_sync (_register_deterministic_parameters l b).1.
Proof.
  induction l as [|name l IH]; intros b Hs; simpl; [done|].
  destruct (is_deterministic_name name).
  - apply IH, add_value_info_in_sync, register_in_sync, Hs.
  - specialize (IH b Hs). by destruct (_register_deterministic_parameters l b).
Qed.

Lemma build_graph_in_sync name sub emp b :
  metadata_in_sync b → metadata_in_sync (_build_graph name sub emp b).1.
Proof.
  intros Hs. unfold _build_graph.
  destruct (_assert_topologically_sorted _); [|exact Hs].
  set (b1 := if sub then _ else _).
  assert (metadata_in_sync b1) as Hs1.
  { subst b1. destruct sub; [exact Hs|].
    unfold _filter_redundant_inputs. simpl.
    by destruct (initializers_by_name b). }
  destruct (find_missing_value_info b1) as [|m ms].
  { simpl. done. }
  pose proof (register_deterministic_in_sync (m :: ms) b1 Hs1) as Hs2.
  destruct (_register_deterministic_parameters (m :: ms) b1) as [b2 missing].
  by destruct (filter _ missing).
Qed.

Lemma run_method_in_sync b c : metadata_in_sync b → metadata_in_sync (run_method b c).
Proof.
  intros Hs. destruct c; simpl.
  - by apply register_in_sync.
  - by apply add_value_info_in_sync.
  - by apply add_input_in_sync.
  - by apply add_output_in_sync.
  - exact Hs.
  - by apply register_in_sync.
  - unfold _auto_fix_constant_value_info.
    destruct (value_info_metadata b !! name); [done | by apply register_in_sync].
  - exact Hs.
  - unfold adjust_dynamic_batch_dimensions. by destruct (decide _).
  - by apply build_graph_in_sync.
  - intros n. unfold reset. simpl. by rewrite !lookup_empty.
Qed.

(** X12.  On a builder reached from a new one by any sequence of calls of
    [register_value_info_metadata], [add_value_info], [add_input],
    [add_output], [add_node], [add_scalar_input],
    [_auto_fix_constant_value_info], [merge_functions_from],
    [adjust_dynamic_batch_dimensions], [_build_graph] and [reset], the two
    metadata dictionaries agree: when [get_shape_dtype] returns a shape and
    a dtype for a name, [get_value_info_metadata_with_origin] returns the
    same shape and dtype together with an origin that is not [None]; when
    [get_shape_dtype] raises, [get_value_info_metadata_with_origin] returns
    [None]. *)
Theorem metadata_origin_always_known (cs : list method) (model_name : string)
    (initializers : option (list TensorProto)) (converter : option Converter)
    (name : string) :
  let b := run_methods cs (__init__ model_name initializers converter) in
  match get_shape_dtype name b with
  | inr (shape, dt) =>
      ∃ origin, get_value_info_metadata_with_origin name b = Some (shape, dt, Some origin)
  | inl _ => get_value_info_metadata_with_origin name b = None
  end.
Proof.
  simpl.
  assert (metadata_in_sync (run_methods cs (__init__ model_name initializers converter)))
    as Hs.
  { unfold run_methods.
    assert (metadata_in_sync (__init__ model_name initializers converter)) as H0.
    { intros n. simpl. by rewrite !lookup_empty. }
    revert H0. generalize (__init__ model_name initializers converter).
    induction cs as [|c cs IH]; intros b Hb; simpl; [done|].
    apply IH. by apply run_method_in_sync. }
  specialize (Hs name). unfold get_shape_dtype, get_value_info_metadata_with_origin.
  rewrite Hs.
  destruct (value_info_metadata_with_origin _ !! name) as [[[shape dt] origin]|]; simpl.
  - by exists origin.
  - done.
Qed.

Lemma register_symbol_origin_symbolic_shapes d tensor axis b name :
  symbolic_shape_of (_register_symbol_origin d tensor axis b) name
  = symbolic_shape_of b name.
Proof.
  unfold _register_symbol_origin, symbolic_shape_of.
  destruct (converter b) as [conv|] eqn:E; simpl; [done | by rewrite E].
Qed.

Lemma register_symbol_origins_symbolic_shapes tensor shape name : ∀ axis b,
  symbolic_shape_of (register_symbol_origins tensor axis shape b) name
  = symbolic_shape_of b name.
Proof.
  induction shape as [|d rest IH]; intros axis b; simpl; [done|].
  rewrite IH. destruct d; try done; apply register_symbol_origin_symbolic_shapes.
Qed.

Lemma stored_shape_default b name shape :
  stored_shape b name shape = default (shape_tuple_of shape) (symbolic_shape_of b name).
Proof.
  unfold stored_shape, symbolic_shape_of.
  destruct (converter b) as [conv|]; [|done]. by destruct (symbolic_shapes conv).
Qed.

Lemma add_value_info_metadata name shape dt b :
  let b' := add_value_info name shape dt b in
  value_info_metadata_with_origin b'
  = <[name := (stored_shape b name shape, DtOnnx (elem_type_of dt), "traced")]>
      (value_info_metadata_with_origin b)
  ∧ (∀ n, symbolic_shape_of b' n = symbolic_shape_of b n).
Proof.
  unfold add_value_info. fold (stored_shape b name shape).
  set (vi0 := make_value_info b name _ dt).
  set (vi := match value_info_origin b !! name with Some _ => _ | None => _ end).
  set (od := DtOnnx _).
  assert (Hvi : vi_name vi = name ∧ vi_elem_type vi = elem_type_of dt).
  { subst vi. destruct (value_info_origin b !! name) as [o|]; [destruct (truthy o)|]; done. }
  assert (Hod : od = DtOnnx (elem_type_of dt)).
  { subst od. destruct Hvi as [_ ->]. by destruct dt. }
  rewrite Hod. split.
  - match goal with |- context [register_symbol_origins ?n ?a ?sh ?bb] =>
      destruct (register_symbol_origins_converter n sh a bb) as [c ->] end.
    done.
  - intros n. by rewrite register_symbol_origins_symbolic_shapes.
Qed.

Lemma register_deterministic_parameters_metadata l : ∀ b name,
  let r := _register_deterministic_parameters l b in
  (∀ n, symbolic_shape_of r.1 n = symbolic_shape_of b n)
  ∧ map vi_name (value_info r.1)
    = map vi_name (value_info b) ++ filter (λ n, is_deterministic_name n) l
  ∧ value_info_metadata_with_origin r.1 !! name
    = if bool_decide (name ∈ l) && is_deterministic_name name
      then Some (default [] (symbolic_shape_of b name), DtOnnx TensorProto.BOOL, "traced")
      else value_info_metadata_with_origin b !! name.
Proof.
  induction l as [|name0 l IH]; intros b name; simpl.
  { split_and!; [done | by rewrite app_nil_r | done]. }
  rewrite filter_cons.
  destruct (is_deterministic_name name0) eqn:Hd; simpl.
  - set (b0 := register_value_info_metadata name0 _ _ _ b).
    destruct (add_value_info_metadata name0 (Some []) (DtOnnx TensorProto.BOOL) b0)
      as [Hmeta Hsym].
    destruct (add_value_info_fields name0 (Some []) (DtOnnx TensorProto.BOOL) b0)
      as (_ & _ & _ & _ & _ & _ & (vi & Hvis & Hvin) & _).
    set (b1 := add_value_info name0 _ _ b0) in *.
    destruct (IH b1 name) as (Hsym' & Hvi' & Hget').
    split_and!.
    + intros n. by rewrite Hsym', Hsym.
    + rewrite Hvi', Hvis, map_app. simpl. rewrite Hvin, <- app_assoc. done.
    + rewrite Hget', Hsym.
      assert (symbolic_shape_of b0 name = symbolic_shape_of b name) as -> by done.
      assert (value_info_metadata_with_origin b1 !! name
              = if decide (name0 = name)
                then Some (default [] (symbolic_shape_of b name),
                           DtOnnx TensorProto.BOOL, "traced")
                else value_info_metadata_with_origin b !! name) as ->.
      { rewrite Hmeta. destruct (decide (name0 = name)) as [->|Hne].
        - rewrite lookup_insert_eq. by rewrite stored_shape_default.
        - rewrite lookup_insert_ne by done. subst b0.
          unfold register_value_info_metadata. simpl. by rewrite lookup_insert_ne. }
      destruct (decide (name0 = name)) as [->|Hne].
      * rewrite Hd, (bool_decide_eq_true_2 (name ∈ name :: l)) by (by left).
        simpl. by destruct (bool_decide (name ∈ l)).
      * destruct (bool_decide (name ∈ l)) eqn:Hin.
        -- apply bool_decide_eq_true in Hin.
           by rewrite (bool_decide_eq_true_2 (name ∈ name0 :: l)) by (by right).
        -- apply bool_decide_eq_false in Hin.
           by rewrite (bool_decide_eq_false_2 (name ∈ name0 :: l))
             by (rewrite elem_of_cons; naive_solver).
  - destruct (IH b name) as (Hsym' & Hvi' & Hget').
    destruct (_register_deterministic_parameters l b) as [b' rem]. simpl in *.
    split_and!; [done | done |].
    rewrite Hget'.
    destruct (decide (name0 = name)) as [->|Hne].
    + rewrite Hd, !andb_false_r. done.
    + destruct (bool_decide (name ∈ l)) eqn:Hin.
      * apply bool_decide_eq_true in Hin.
        by rewrite bool_decide_eq_true_2 by (by right).
      * apply bool_decide_eq_false in Hin.
        by rewrite bool_decide_eq_false_2 by (rewrite elem_of_cons; naive_solver).
Qed.

(** X13.  For every name of the list given to
    [_register_deterministic_parameters] that is [deterministic] or ends in
    [_deterministic]: after the call the name has the dtype [BOOL], the
    scalar shape (or the symbolic shape that the converter holds for the
    name) and the origin ["traced"], which the value-info registration
    writes over the origin "auto-registered deterministic flag" written
    just before; the name has a value info; and the list returned is the
    list given without the flag names, in the same order. *)
Theorem register_deterministic_parameters_origin (missing_names : list string)
    (b : OnnxBuilder) (name : string) :
  name ∈ missing_names → is_deterministic_name name = true →
  let r := _register_deterministic_parameters missing_names b in
  get_value_info_metadata_with_origin name r.1
  = Some (default [] (symbolic_shape_of b name), DtOnnx TensorProto.BOOL, Some "traced")
  ∧ name ∈ map vi_name (value_info r.1)
  ∧ r.2 = filter (λ n, negb (is_deterministic_name n)) missing_names.
Proof.
  intros Hin Hd.
  destruct (register_deterministic_parameters_metadata missing_names b name)
    as (_ & Hvi & Hget).
  destruct (register_deterministic_parameters_spec missing_names b) as (Hrem & _).
  simpl in *. split_and!; [| |done].
  - unfold get_value_info_metadata_with_origin. rewrite Hget, Hd.
    by rewrite bool_decide_eq_true_2.
  - rewrite Hvi. apply elem_of_app. right. apply list_elem_of_filter. split; [|done].
    by rewrite Hd.
Qed.

Lemma register_deterministic_parameters_origin_witness :
  let r := _register_deterministic_parameters ["y"; "deterministic"] example_missing in
  get_value_info_metadata_with_origin "deterministic" r.1
  = Some ([], DtOnnx TensorProto.BOOL, Some "traced")
  ∧ "deterministic" ∈ map vi_name (value_info r.1)
  ∧ r.2 = ["y"].
Proof.
  apply (register_deterministic_parameters_origin ["y"; "deterministic"]
           example_missing "deterministic"); [|reflexivity].
  apply elem_of_cons. right. apply elem_of_cons. by left.
Defined.

Lemma elem_of_concat {A} (x : A) (ls : list (list A)) :
  x ∈ concat ls ↔ ∃ l, x ∈ l ∧ l ∈ ls.
Proof.
  induction ls as [|l ls IH]; simpl.
  - split; [by intros ?%elem_of_nil | by intros (? & _ & ?%elem_of_nil)].
  - rewrite elem_of_app, IH. split.
    + intros [?|(l' & ? & ?)]; [exists l; split; [done | by left]|].
      exists l'. split; [done | by right].
    + intros (l' & ? & [->|?]%elem_of_cons); [by left | right; eauto].
Qed.


Lemma node_in_spec (ns : list NodeProto) x :
  x ∈ concat (map (λ n, non_empty (node_input n)
                        ++ concat (map attribute_inputs (node_attribute n))) ns)
  ↔ ∃ n, n ∈ ns
         ∧ (x ∈ non_empty (node_input n)
            ∨ ∃ attr, attr ∈ node_attribute n ∧ x ∈ attribute_inputs attr).
Proof.
  rewrite elem_of_concat. split.
  - intros (l & Hx & Hl). apply list_elem_of_fmap in Hl as (n & -> & Hn).
    exists n. split; [done|]. apply elem_of_app in Hx as [Hx|Hx]; [by left|right].
    apply elem_of_concat in Hx as (l' & Hx & Hl').
    apply list_elem_of_fmap in Hl' as (attr & -> & Hattr). eauto.
  - intros (n & Hn & Hx). eexists. split; [|apply list_elem_of_fmap; eauto].
    apply elem_of_app. destruct Hx as [Hx|(attr & Hattr & Hx)]; [by left|right].
    apply elem_of_concat. eexists. split; [done|]. apply list_elem_of_fmap. eauto.
Qed.

Lemma node_out_spec (ns : list NodeProto) x :
  x ∈ concat (map (λ n, non_empty (node_output n)) ns)
  ↔ ∃ n, n ∈ ns ∧ x ∈ non_empty (node_output n).
Proof.
  rewrite elem_of_concat. split.
  - intros (l & Hx & Hl). apply list_elem_of_fmap in Hl as (n & -> & Hn). eauto.
  - intros (n & Hn & Hx). eexists. split; [done|]. apply list_elem_of_fmap. eauto.
Qed.

(** The inputs that [_filter_redundant_inputs] keeps. *)
Lemma filter_redundant_inputs_spec b vi :
  vi ∈ inputs (_filter_redundant_inputs b)
  ↔ vi ∈ inputs b
    ∧ ((∃ n, n ∈ nodes b
             ∧ (vi_name vi ∈ non_empty (node_input n)
                ∨ ∃ attr, attr ∈ node_attribute n ∧ vi_name vi ∈ attribute_inputs attr))
       ∨ vi_name vi ∈ map vi_name (outputs b))
    ∧ (∀ n, n ∈ nodes b → vi_name vi ∉ non_empty (node_output n))
    ∧ vi_name vi ∉ default (map init_name (initializers b)) (initializers_by_name b).
Proof.
  unfold _filter_redundant_inputs.
  destruct (initializers_by_name b) as [l|] eqn:Hl; simpl; rewrite ?Hl; simpl;
    rewrite list_elem_of_filter, !elem_of_list_to_set, node_in_spec, node_out_spec;
    naive_solver.
Qed.

Lemma filter_unused_initializers_spec b init :
  init ∈ initializers (filter_unused_initializers b)
  ↔ init ∈ initializers b
    ∧ ((∃ n, n ∈ nodes b ∧ init_name init ∈ node_input n)
       ∨ ∃ kf n, kf ∈ functions b ∧ n ∈ fn_node kf.2 ∧ init_name init ∈ node_input n).
Proof.
  unfold filter_unused_initializers. simpl.
  rewrite list_elem_of_filter, elem_of_union. unfold node_inputs_set.
  rewrite !elem_of_list_to_set, !elem_of_concat.
  split.
  - intros [[(l & Hx & Hl)|(l & Hx & Hl)] Hi]; (split; [done|]).
    + apply list_elem_of_fmap in Hl as (n & -> & Hn). left. eauto.
    + apply list_elem_of_fmap in Hl as (n & -> & Hn).
      apply elem_of_concat in Hn as (l' & Hn & Hl').
      apply list_elem_of_fmap in Hl' as (kf & -> & Hkf). right. eauto.
  - intros [Hi [(n & Hn & Hx)|(kf & n & Hkf & Hn & Hx)]]; (split; [|done]).
    + left. eexists. split; [done|]. apply list_elem_of_fmap. eauto.
    + right. eexists. split; [done|]. apply list_elem_of_fmap. exists n. split; [done|].
      apply elem_of_concat. eexists. split; [done|]. apply list_elem_of_fmap. eauto.
Qed.

Lemma build_graph_Ok_inv name sub emp b b' g :
  _build_graph name sub emp b = (b', Ok g) →
  _assert_topologically_sorted (filter_unused_initializers b) = Ok tt
  ∧ reported_missing sub b = []
  ∧ g_nodes g = nodes b
  ∧ g_name g = graph_name name b
  ∧ g_inputs g = (if emp then [] else inputs (before_missing sub b))
  ∧ g_outputs g = outputs b
  ∧ g_initializer g = initializers (filter_unused_initializers b).
Proof.
  intros Hg.
  destruct (_assert_topologically_sorted (filter_unused_initializers b)) as [[]|e] eqn:Ht.
  - destruct (build_graph_topology_ok name sub emp b Ht) as [b'' Hb].
    rewrite Hg in Hb. destruct (reported_missing sub b); [|congruence].
    injection Hb as _ ->. done.
  - apply (build_graph_topology_raises name sub emp) in Ht. congruence.
Qed.




(** X15.  What a graph returned by [_build_graph] holds, in terms of the
    builder before the call: the nodes and the outputs of the builder; of
    its initializers exactly those that a node of the builder or of one of
    its functions reads; no input when [empty_inputs] is set; the inputs of
    the builder, all of them, for a subgraph; and for a main graph exactly
    the inputs of the builder that some node reads (itself or in a nested
    graph) or that are graph outputs, that no node writes, and whose name is
    not among the cached initializer names (the names of the initializers of
    the graph when nothing is cached yet). *)
Theorem build_graph_prunes (name : option string) (is_subgraph empty_inputs : bool)
    (b b' : OnnxBuilder) (g : GraphProto) :
  _build_graph name is_subgraph empty_inputs b = (b', Ok g) →
  g_nodes g = nodes b
  ∧ g_outputs g = outputs b
  ∧ (∀ init, init ∈ g_initializer g ↔ init ∈ initializers b ∧ used_initializer b init)
  ∧ (empty_inputs = true → g_inputs g = [])
  ∧ (empty_inputs = false → is_subgraph = true → g_inputs g = inputs b)
  ∧ (empty_inputs = false → is_subgraph = false →
     ∀ vi, vi ∈ g_inputs g
           ↔ vi ∈ inputs b
             ∧ (consumed_by (nodes b) (vi_name vi) ∨ vi_name vi ∈ map vi_name (outputs b))
             ∧ ¬ produced_by (nodes b) (vi_name vi)
             ∧ vi_name vi ∉ default (map init_name (g_initializer g))
                               (initializers_by_name b)).
Proof.
  intros Hg.
  destruct (build_graph_Ok_inv _ _ _ _ _ _ Hg) as (_ & _ & -> & _ & -> & -> & ->).
  split_and!; try done.
  - intros init. apply filter_unused_initializers_spec.
  - by intros ->.
  - by intros -> ->.
  - intros -> -> vi. unfold before_missing.
    rewrite filter_redundant_inputs_spec. unfold consumed_by, produced_by. simpl.
    naive_solver.
Qed.

Lemma build_graph_prunes_witness :
  g_nodes example_sorted_graph = nodes example_sorted
  ∧ g_outputs example_sorted_graph = outputs example_sorted.
Proof.
  assert (_build_graph (Some "g") false false example_sorted
          = ((_build_graph (Some "g") false false example_sorted).1,
             Ok example_sorted_graph)) as Hg by (vm_compute; reflexivity).
  pose proof (build_graph_prunes (Some "g") false false example_sorted _ _ Hg) as H.
  exact (conj (proj1 H) (proj1 (proj2 H))).
Defined.

Lemma register_deterministic_parameters_cache l : ∀ b,
  initializers_by_name (_register_deterministic_parameters l b).1
  = initializers_by_name b.
Proof.
  induction l as [|name l IH]; intros b; simpl; [done|].
  destruct (is_deterministic_name name).
  - rewrite IH.
    match goal with |- context [add_value_info ?n ?sh ?dt ?bb] =>
      destruct (add_value_info_fields n sh dt bb) as (_ & _ & _ & _ & -> & _) end.
    done.
  - specialize (IH b). by destruct (_register_deterministic_parameters l b).
Qed.

(** X16.  A call of [_build_graph] for a main graph that returns a graph
    leaves the builder with cached initializer names: the cache it had, or,
    if it had none, the names of the initializers of the graph.  [reset]
    keeps the cache.  And with a cache in place, no input of a main graph
    that [_build_graph] returns has a name of the cache, whatever the
    initializers of the builder are at that time. *)
Theorem initializer_name_cache_outlives_reset (name : option string)
    (empty_inputs : bool) (b b' : OnnxBuilder) (g : GraphProto) :
  _build_graph name false empty_inputs b = (b', Ok g) →
  initializers_by_name b'
  = Some (default (map init_name (g_initializer g)) (initializers_by_name b))
  ∧ initializers_by_name (reset b') = initializers_by_name b'
  ∧ (∀ l vi, initializers_by_name b = Some l → vi ∈ g_inputs g → vi_name vi ∉ l).
Proof.
  intros Hg.
  destruct (build_graph_Ok_inv _ _ _ _ _ _ Hg) as (Ht & _ & _ & _ & Hin & _ & Hinit).
  split_and!; [|done|].
  - rewrite Hinit. unfold _build_graph in Hg. rewrite Ht in Hg.
    set (b1 := _filter_redundant_inputs (filter_unused_initializers b)) in *.
    assert (initializers_by_name b1
            = Some (default (map init_name (initializers (filter_unused_initializers b)))
                      (initializers_by_name b))) as Hb1.
    { subst b1. unfold _filter_redundant_inputs, filter_unused_initializers. simpl.
      destruct (initializers_by_name b) eqn:E; simpl; by rewrite ?E. }
    destruct (find_missing_value_info b1) as [|m ms].
    + simpl in Hg. injection Hg as <- _. done.
    + pose proof (register_deterministic_parameters_cache (m :: ms) b1) as Hc.
      destruct (_register_deterministic_parameters (m :: ms) b1) as [b2 missing].
      simpl in Hc. destruct (filter _ missing); [|done].
      injection Hg as <- _. by rewrite Hc.
  - intros l vi Hl Hvi. rewrite Hin in Hvi. destruct empty_inputs.
    + by apply elem_of_nil in Hvi.
    + unfold before_missing in Hvi. apply filter_redundant_inputs_spec in Hvi.
      destruct Hvi as (_ & _ & _ & Hni).
      assert (initializers_by_name (filter_unused_initializers b)
              = initializers_by_name b) as Heq by done.
      rewrite Heq, Hl in Hni. done.
Qed.

Lemma initializer_name_cache_outlives_reset_witness :
  initializers_by_name (_build_graph (Some "g") false false example_sorted).1 = Some []
  ∧ initializers_by_name (reset (_build_graph (Some "g") false false example_sorted).1)
    = initializers_by_name (_build_graph (Some "g") false false example_sorted).1.
Proof.
  assert (_build_graph (Some "g") false false example_sorted
          = ((_build_graph (Some "g") false false example_sorted).1,
             Ok example_sorted_graph)) as Hg by (vm_compute; reflexivity).
  pose proof (initializer_name_cache_outlives_reset (Some "g") false example_sorted
                _ _ Hg) as H.
  split; [exact (proj1 H) | reflexivity].
Defined.

Lemma make_dynamic_lookup i dims idx :
  make_dynamic i dims !! idx = if decide (i = idx) then to_B (dims !! idx) else dims !! idx.
Proof.
  unfold make_dynamic, to_B. destruct (decide (i = idx)) as [->|Hne].
  - destruct (dims !! idx) as [d|] eqn:Hd; simpl.
    + apply list_lookup_insert_eq. by eapply lookup_lt_Some.
    + apply lookup_ge_None. rewrite length_insert. by apply lookup_ge_None.
  - by apply list_lookup_insert_ne.
Qed.

Lemma to_B_idem d : to_B (to_B d) = to_B d.
Proof. by destruct d. Qed.

Lemma touched_or_not {A} (guard : A → bool) (pos : A → nat) (l : list A) idx :
  (∃ h, h ∈ l ∧ guard h = true ∧ pos h = idx)
  ∨ (∀ h, h ∈ l → guard h = true → pos h ≠ idx).
Proof.
  induction l as [|h l [IH|IH]].
  - right. intros h Hh. by apply elem_of_nil in Hh.
  - left. destruct IH as (h' & ? & ?). exists h'. split; [by right | done].
  - destruct (guard h) eqn:Hg; [destruct (decide (pos h = idx)) as [Hp|Hp]|].
    + left. exists h. split; [by left | done].
    + right. intros h' [->|Hh']%elem_of_cons; [done | by apply IH].
    + right. intros h' [->|Hh']%elem_of_cons; [congruence | by apply IH].
Qed.

Lemma fold_make_dynamic {A} (guard : A → bool) (pos : A → nat) (l : list A) :
  ∀ dims : list DimProto,
  let r := fold_left (λ dims h, if guard h then make_dynamic (pos h) dims else dims)
             l dims in
  length r = length dims
  ∧ ∀ idx,
      ((∃ h, h ∈ l ∧ guard h = true ∧ pos h = idx) → r !! idx = to_B (dims !! idx))
      ∧ ((∀ h, h ∈ l → guard h = true → pos h ≠ idx) → r !! idx = dims !! idx).
Proof.
  induction l as [|h l IH]; intros dims; simpl.
  - split; [done|]. intros idx. split; [|done].
    intros (h & Hh & _). by apply elem_of_nil in Hh.
  - set (dims1 := if guard h then make_dynamic (pos h) dims else dims).
    destruct (IH dims1) as [Hlen Hidx].
    assert (length dims1 = length dims) as Hlen1.
    { subst dims1. unfold make_dynamic. destruct (guard h); [|done].
      apply length_insert. }
    assert (∀ idx, dims1 !! idx
                   = if guard h && bool_decide (pos h = idx) then to_B (dims !! idx)
                     else dims !! idx) as Hd1.
    { intros idx. subst dims1. destruct (guard h); simpl; [|done].
      rewrite make_dynamic_lookup.
      destruct (decide (pos h = idx));
        [by rewrite bool_decide_eq_true_2 | by rewrite bool_decide_eq_false_2]. }
    split; [by rewrite Hlen|].
    intros idx. destruct (Hidx idx) as [Hyes Hno]. split.
    + intros (h' & Hh' & Hg & Hp).
      destruct (touched_or_not guard pos l idx) as [Hex|Hnex].
      * rewrite (Hyes Hex), Hd1.
        destruct (guard h && bool_decide (pos h = idx)); [apply to_B_idem | done].
      * rewrite Hno by done.
        apply elem_of_cons in Hh' as [->|Hh']; [|by destruct (Hnex h')].
        by rewrite Hd1, Hg, bool_decide_eq_true_2.
    + intros Hnone. rewrite Hno by (intros h' Hh'; apply Hnone; by right).
      rewrite Hd1. destruct (guard h) eqn:Hg; [|done].
      rewrite bool_decide_eq_false_2; [done|]. apply Hnone; [by left | done].
Qed.

Lemma adjust_tensor_shape_spec tensor shape_hint (batch_dims : gset nat) :
  let tensor' := _adjust_tensor_shape tensor shape_hint batch_dims in
  vi_name tensor' = vi_name tensor
  ∧ vi_elem_type tensor' = vi_elem_type tensor
  ∧ vi_doc_string tensor' = vi_doc_string tensor
  ∧ length (vi_shape tensor') = length (vi_shape tensor)
  ∧ ∀ idx, vi_shape tensor' !! idx
           = if hinted_B shape_hint idx || bool_decide (idx ∈ batch_dims)
             then to_B (vi_shape tensor !! idx)
             else vi_shape tensor !! idx.
Proof.
  unfold _adjust_tensor_shape. simpl.
  set (num := length (vi_shape tensor)).
  pose proof (fold_make_dynamic (λ h : nat * dim, (h.1 <? num)%nat && is_B h.2) fst
                (imap pair shape_hint) (vi_shape tensor)) as [Hlen1 Hidx1].
  set (dims1 := fold_left _ (imap pair shape_hint) (vi_shape tensor)) in *.
  pose proof (fold_make_dynamic (λ idx : nat, (idx <? num)%nat) id
                (elements batch_dims) dims1) as [Hlen2 Hidx2].
  set (dims2 := fold_left _ (elements batch_dims) dims1) in *.
  split_and!; try done; [by rewrite Hlen2, Hlen1|].
  intros idx. destruct (Hidx1 idx) as [Hyes1 Hno1]. destruct (Hidx2 idx) as [Hyes2 Hno2].
  destruct (decide (idx < num)) as [Hlt|Hge]; last first.
  { rewrite (lookup_ge_None_2 (vi_shape tensor)) by (fold num; lia).
    rewrite lookup_ge_None_2 by (rewrite Hlen2, Hlen1; fold num; lia).
    by destruct (_ || _). }
  assert (dims1 !! idx = if hinted_B shape_hint idx then to_B (vi_shape tensor !! idx)
                         else vi_shape tensor !! idx) as Hd1.
  { unfold hinted_B. destruct (shape_hint !! idx) as [d|] eqn:Hd; [destruct (is_B d) eqn:HB|].
    - apply Hyes1. exists (idx, d). split_and!; [|simpl|done].
      + by apply (elem_of_lookup_imap_2 pair).
      + rewrite HB. by apply andb_true_iff, conj; [apply Nat.ltb_lt|].
    - apply Hno1. intros h Hh Hg Hp.
      apply elem_of_lookup_imap_1 in Hh as (i & y & -> & Hy). simpl in *. subst i.
      rewrite Hd in Hy. injection Hy as <-. rewrite HB in Hg. by rewrite andb_false_r in Hg.
    - apply Hno1. intros h Hh Hg Hp.
      apply elem_of_lookup_imap_1 in Hh as (i & y & -> & Hy). simpl in *. subst i.
      congruence. }
  destruct (bool_decide (idx ∈ batch_dims)) eqn:Hbd.
  - apply bool_decide_eq_true in Hbd. rewrite orb_true_r, Hyes2, Hd1.
    + destruct (hinted_B shape_hint idx); [apply to_B_idem | done].
    + exists idx. split_and!; [by apply elem_of_elements | by apply Nat.ltb_lt | done].
  - apply bool_decide_eq_false in Hbd. rewrite orb_false_r, Hno2, Hd1; [done|].
    intros i Hi _ Hp. unfold id in Hp. subst i. by apply elem_of_elements in Hi.
Qed.


Lemma vi_ext (t1 t2 : ValueInfoProto) :
  vi_name t1 = vi_name t2 → vi_elem_type t1 = vi_elem_type t2 →
  vi_shape t1 = vi_shape t2 → vi_doc_string t1 = vi_doc_string t2 → t1 = t2.
Proof. destruct t1, t2; simpl; congruence. Qed.

Lemma adjust_tensor_shape_idem tensor shape_hint (batch_dims : gset nat) :
  _adjust_tensor_shape (_adjust_tensor_shape tensor shape_hint batch_dims)
    shape_hint batch_dims
  = _adjust_tensor_shape tensor shape_hint batch_dims.
Proof.
  destruct (adjust_tensor_shape_spec tensor shape_hint batch_dims)
    as (Hn & He & Hdoc & Hl & Hs).
  destruct (adjust_tensor_shape_spec (_adjust_tensor_shape tensor shape_hint batch_dims)
              shape_hint batch_dims) as (Hn' & He' & Hdoc' & Hl' & Hs').
  apply vi_ext; try done.
  apply list_eq. intros idx. rewrite Hs', Hs.
  destruct (_ || _); [apply to_B_idem | done].
Qed.

Lemma has_dims_adjust tensor shape_hint (batch_dims : gset nat) :
  has_dims (_adjust_tensor_shape tensor shape_hint batch_dims) = has_dims tensor.
Proof.
  destruct (adjust_tensor_shape_spec tensor shape_hint batch_dims) as (_ & _ & _ & Hl & _).
  unfold has_dims. destruct (vi_shape tensor), (vi_shape (_adjust_tensor_shape _ _ _)); done.
Qed.

Lemma adjust_tensor_inputs_idem input_shapes (batch_dims : gset nat) inps : ∀ i,
  adjust_tensor_inputs input_shapes batch_dims i
    (adjust_tensor_inputs input_shapes batch_dims i inps)
  = adjust_tensor_inputs input_shapes batch_dims i inps.
Proof.
  induction inps as [|inp inps IH]; intros i; simpl; [done|].
  destruct (has_dims inp) eqn:Hd; simpl.
  - destruct (input_shapes !! i) as [hint|] eqn:Hh.
    + rewrite has_dims_adjust, Hd, adjust_tensor_shape_idem, IH. done.
    + by rewrite Hd, IH.
  - by rewrite Hd, IH.
Qed.



Lemma adjust_dynamic_batch_dimensions_unfold input_shapes b :
  batch_dims_of input_shapes ≠ ∅ →
  adjust_dynamic_batch_dimensions input_shapes b
  = mkBuilder (var_to_symbol_map b) (nodes b)
      (adjust_tensor_inputs input_shapes (batch_dims_of input_shapes) 0 (inputs b))
      (map (λ t, _adjust_tensor_shape t [] (batch_dims_of input_shapes)) (outputs b))
      (initializers b)
      (map (λ t, _adjust_tensor_shape t [] (batch_dims_of input_shapes)) (value_info b))
      (functions b) (model_name b) (value_info_metadata b)
      (value_info_metadata_with_origin b) (dtype_env b) (value_info_origin b)
      (converter b) (initializers_by_name b).
Proof.
  intros Hne. unfold adjust_dynamic_batch_dimensions.
  destruct (decide (batch_dims_of input_shapes = ∅)); [done|]. by destruct b.
Qed.

Example adjust_dynamic_batch_dimensions_example :
  let b := adjust_dynamic_batch_dimensions [[DStr "B"; DInt 4]] example_two_outputs in
  map vi_shape (inputs b) = [[dim_param "B"]]
  ∧ map vi_shape (outputs b) = [[dim_param "B"]; [dim_param "B"; dim_value 3]]
  ∧ adjust_dynamic_batch_dimensions [[DInt 2; DInt 4]] example_two_outputs
    = example_two_outputs.
Proof. by vm_compute. Qed.

(** X18.  [adjust_dynamic_batch_dimensions] is idempotent: a second call
    with the same input shapes leaves the builder as the first call left
    it. *)
Theorem adjust_dynamic_batch_dimensions_idempotent (input_shapes : list (list dim))
    (b : OnnxBuilder) :
  adjust_dynamic_batch_dimensions input_shapes
    (adjust_dynamic_batch_dimensions input_shapes b)
  = adjust_dynamic_batch_dimensions input_shapes b.
Proof.
  destruct (decide (batch_dims_of input_shapes = ∅)) as [Hempty|Hne].
  { unfold adjust_dynamic_batch_dimensions. by rewrite !decide_True. }
  rewrite (adjust_dynamic_batch_dimensions_unfold input_shapes b Hne).
  rewrite adjust_dynamic_batch_dimensions_unfold by done.
  cbn [var_to_symbol_map nodes inputs outputs initializers value_info functions
       model_name value_info_metadata value_info_metadata_with_origin dtype_env
       value_info_origin converter initializers_by_name].
  rewrite adjust_tensor_inputs_idem, !map_map.
  f_equal; apply map_ext; intros t; apply adjust_tensor_shape_idem.
Qed.

(** *** Pruning twice *)

Lemma filter_filter_same {A} (P : A → Prop) `{∀ x, Decision (P x)} (l : list A) :
  filter P (filter P l) = filter P l.
Proof.
  induction l as [|x l IH]; [done|]. rewrite filter_cons.
  destruct (decide (P x)); [|done]. by rewrite filter_cons_True, IH.
Qed.

Lemma filter_unused_initializers_unfold b :
  filter_unused_initializers b
  = set_initializers
      (filter (λ init, init_name init
                       ∈ node_inputs_set (nodes b)
                         ∪ node_inputs_set
                             (concat (map (λ kf, fn_node kf.2) (functions b))))
         (initializers b)) b.
Proof. done. Qed.

(** A builder that holds the nodes and functions of [b] and the
    initializers that [filter_unused_initializers] left of [b] has no
    unused initializer. *)
Lemma filter_unused_initializers_fixed b b' :
  nodes b' = nodes b → functions b' = functions b →
  initializers b' = initializers (filter_unused_initializers b) →
  filter_unused_initializers b' = b'.
Proof.
  intros Hn Hf Hi. rewrite (filter_unused_initializers_unfold b').
  rewrite Hn, Hf, Hi, (filter_unused_initializers_unfold b).
  cbn [set_initializers initializers]. rewrite filter_filter_same.
  rewrite (filter_unused_initializers_unfold b) in Hi.
  cbn [set_initializers initializers] in Hi. rewrite <- Hi. by destruct b'.
Qed.

(** X20.  Each of the three pruning passes of the builder is idempotent:
    running [filter_unused_initializers], [_filter_redundant_inputs] or
    [_filter_unused_inputs] a second time leaves the builder as the first
    run left it. *)
Theorem pruning_filters_idempotent (b : OnnxBuilder) :
  filter_unused_initializers (filter_unused_initializers b)
  = filter_unused_initializers b
  ∧ _filter_redundant_inputs (_filter_redundant_inputs b) = _filter_redundant_inputs b
  ∧ _filter_unused_inputs (_filter_unused_inputs b) = _filter_unused_inputs b.
Proof.
  split_and!.
  - by apply (filter_unused_initializers_fixed b).
  - destruct b as [vm ns ins outs inits vis fs mn md mdo de vo conv [l|]];
      unfold _filter_redundant_inputs; cbn; by rewrite filter_filter_same.
  - destruct b as [vm ns ins outs inits vis fs mn md mdo de vo conv ibn].
    unfold _filter_unused_inputs. cbn. by rewrite filter_filter_same.
Qed.

(** X21.  The two input filters disagree on an input that bears the name
    of an initializer: [_filter_unused_inputs] keeps it, whether or not a
    node or an output uses it, and [_filter_redundant_inputs], run on the
    result, removes it. *)
Theorem input_named_like_initializer (b : OnnxBuilder) (vi : ValueInfoProto) :
  vi ∈ inputs b →
  vi_name vi ∈ map init_name (initializers b) →
  vi ∈ inputs (_filter_unused_inputs b)
  ∧ vi ∉ inputs (_filter_redundant_inputs (_filter_unused_inputs b)).
Proof.
  intros Hin Hname. split.
  - unfold _filter_unused_inputs. cbn. apply list_elem_of_filter. split; [|done].
    apply elem_of_union_r. by apply elem_of_list_to_set.
  - rewrite filter_redundant_inputs_spec. intros (_ & _ & _ & Hno). by apply Hno.
Qed.

Lemma input_named_like_initializer_witness :
  let vi := mkValueInfo "w" 1 [] "" in
  let b := set_initializers [mkTensor "w" 1 [2%Z]] (set_inputs [vi] (__init__ "g" None None)) in
  vi ∈ inputs (_filter_unused_inputs b)
  ∧ vi ∉ inputs (_filter_redundant_inputs (_filter_unused_inputs b)).
Proof.
  apply input_named_like_initializer; cbn; apply elem_of_cons; by left.
Defined.

(** *** Finalizing a subgraph twice *)

Lemma register_deterministic_parameters_no_flag l : ∀ b,
  (∀ n, n ∈ l → is_deterministic_name n = false) →
  _register_deterministic_parameters l b = (b, l).
Proof.
  induction l as [|name l IH]; intros b Hl; simpl; [done|].
  rewrite (Hl name) by (by left).
  rewrite IH; [done|]. intros n Hn. apply Hl. by right.
Qed.

Lemma register_deterministic_parameters_value_info l : ∀ b n,
  (n ∈ l ∧ is_deterministic_name n = true) ∨ n ∈ map vi_name (value_info b) →
  n ∈ map vi_name (value_info (_register_deterministic_parameters l b).1).
Proof.
  induction l as [|name l IH]; intros b n; simpl.
  - intros [[[]%elem_of_nil _]|?]; done.
  - destruct (is_deterministic_name name) eqn:Hd.
    + intros Hn. apply IH.
      match goal with |- context [add_value_info ?x ?sh ?dt ?bb] =>
        destruct (add_value_info_fields x sh dt bb)
          as (_ & _ & _ & _ & _ & _ & (vi & -> & Hvi) & _) end.
      rewrite map_app, elem_of_app. simpl.
      destruct Hn as [[[->|Hn]%elem_of_cons Hf]|Hn].
      * right. right. rewrite Hvi. by left.
      * by left.
      * right. left. done.
    + intros Hn. specialize (IH b n).
      destruct (_register_deterministic_parameters l b) as [b' rem]. simpl in *.
      apply IH. destruct Hn as [[[->|Hn]%elem_of_cons Hf]|Hn]; [congruence|by left|by right].
Qed.

Lemma find_missing_value_info_spec b x :
  x ∈ find_missing_value_info b ↔ x ∈ node_names b ∧ x ∉ known_names b.
Proof.
  unfold find_missing_value_info.
  rewrite (proj2 (sorted_spec _)), list_elem_of_filter, elem_of_elements. naive_solver.
Qed.

Lemma filter_nil_iff {A} (P : A → Prop) `{∀ x, Decision (P x)} (l : list A) :
  filter P l = [] ↔ ∀ x, x ∈ l → ¬ P x.
Proof.
  split.
  - intros Hf x Hx HP. assert (x ∈ filter P l) as Hin by (by apply list_elem_of_filter).
    rewrite Hf in Hin. by apply elem_of_nil in Hin.
  - intros Hall. induction l as [|y l IH]; [done|].
    rewrite filter_cons_False; [|apply Hall; by left].
    apply IH. intros x Hx. apply Hall. by right.
Qed.

(** The builder that [_build_graph] leaves for a subgraph, and the graph
    it returns. *)
Lemma build_subgraph_Ok_inv name emp b b' g :
  _build_graph name true emp b = (b', Ok g) →
  let b1 := filter_unused_initializers b in
  _assert_topologically_sorted b1 = Ok tt
  ∧ b' = (match find_missing_value_info b1 with
          | [] => b1
          | missing => (_register_deterministic_parameters missing b1).1
          end)
  ∧ (∀ x, x ∈ find_missing_value_info b1 →
          is_deterministic_name x = true ∨ startswith x "conv_transpose_out" = true)
  ∧ g = {| g_nodes := nodes b';
           g_name := graph_name name b;
           g_inputs := if emp then [] else inputs b';
           g_outputs := outputs b';
           g_initializer := initializers b';
           g_value_info := value_info b' |}.
Proof.
  intros Hg b1. unfold _build_graph in Hg. fold (graph_name name b) in Hg.
  fold b1 in Hg.
  destruct (_assert_topologically_sorted b1) as [[]|e] eqn:Ht; [|congruence].
  split; [done|].
  destruct (find_missing_value_info b1) as [|m ms] eqn:Hmiss.
  - simpl in Hg. injection Hg as <- <-. split_and!; try done.
    intros x Hx. by apply elem_of_nil in Hx.
  - pose proof (register_deterministic_parameters_spec (m :: ms) b1) as Hspec.
    destruct (_register_deterministic_parameters (m :: ms) b1) as [b2 rem] eqn:Hreg.
    simpl in Hspec. destruct Hspec as (Hrem & _).
    destruct (filter _ rem) as [|r rs] eqn:Hf; [|congruence].
    injection Hg as <- <-. split_and!; try done.
    intros x Hx. destruct (is_deterministic_name x) eqn:Hd; [by left|right].
    assert (x ∈ rem) as Hxr.
    { rewrite Hrem. apply list_elem_of_filter. split; [by rewrite Hd | done]. }
    destruct (startswith x "conv_transpose_out") eqn:Hs; [done|].
    assert (x ∈ filter (λ m0, negb (startswith m0 "conv_transpose_out")) rem) as Hin.
    { apply list_elem_of_filter. split; [by rewrite Hs | done]. }
    rewrite Hf in Hin. by apply elem_of_nil in Hin.
Qed.

(** X22.  Building a subgraph is repeatable: when [_build_graph] with
    [is_subgraph=True] returns a graph, the same call on the builder it
    left returns the same graph and leaves that builder unchanged. *)
Theorem build_subgraph_repeatable (name : option string) (empty_inputs : bool)
    (b b' : OnnxBuilder) (g : GraphProto) :
  _build_graph name true empty_inputs b = (b', Ok g) →
  _build_graph name true empty_inputs b' = (b', Ok g).
Proof.
  intros Hg.
  destruct (build_subgraph_Ok_inv _ _ _ _ _ Hg) as (Ht & Hb' & Hmiss & ->).
  set (b1 := filter_unused_initializers b) in *.
  (* what the first call left untouched *)
  assert (nodes b' = nodes b1 ∧ inputs b' = inputs b1 ∧ outputs b' = outputs b1
          ∧ initializers b' = initializers b1 ∧ model_name b' = model_name b1
          ∧ functions b' = functions b1
          ∧ (∀ n, (n ∈ find_missing_value_info b1 ∧ is_deterministic_name n = true)
                  ∨ n ∈ map vi_name (value_info b1) →
                  n ∈ map vi_name (value_info b'))) as (Hn & Hi & Ho & Hin & Hm & Hf & Hv).
  { rewrite Hb'. destruct (find_missing_value_info b1) as [|m ms] eqn:Hfm.
    - split_and!; try done. intros n [[[]%elem_of_nil _]|?]; done.
    - destruct (register_deterministic_parameters_spec (m :: ms) b1)
        as (_ & ? & ? & ? & ? & ?).
      split_and!; try done.
      + apply register_deterministic_parameters_functions.
      + apply register_deterministic_parameters_value_info. }
  assert (filter_unused_initializers b' = b') as Hfix.
  { apply (filter_unused_initializers_fixed b); by rewrite ?Hn, ?Hf, ?Hin. }
  assert (_assert_topologically_sorted b' = Ok tt) as Ht'.
  { unfold _assert_topologically_sorted, initially_available in *.
    by rewrite Hn, Hi, Hin. }
  (* what is still missing are names finalization ignores *)
  assert (∀ x, x ∈ find_missing_value_info b' →
               is_deterministic_name x = false
               ∧ startswith x "conv_transpose_out" = true) as Hmiss'.
  { intros x [Hx Hk]%find_missing_value_info_spec.
    assert (x ∈ find_missing_value_info b1) as Hx1.
    { apply find_missing_value_info_spec. split.
      - unfold node_names in *. by rewrite <- Hn.
      - intros Hk1. apply Hk. unfold known_names in *.
        rewrite Hi, Ho, Hin. rewrite !map_app, !list_to_set_app_L in *.
        rewrite !elem_of_union, !elem_of_list_to_set in *.
        destruct Hk1 as [[?|[?|?]]|?]; auto.
        left. right. right. apply Hv. by right. }
    destruct (is_deterministic_name x) eqn:Hd.
    - exfalso. apply Hk. unfold known_names.
      rewrite !map_app, !list_to_set_app_L, !elem_of_union, !elem_of_list_to_set.
      left. right. right. apply Hv. by left.
    - split; [done|]. destruct (Hmiss x Hx1); [congruence|done]. }
  unfold _build_graph. fold (graph_name name b'). rewrite Hfix, Ht'.
  assert (graph_name name b' = graph_name name b) as ->.
  { unfold graph_name. rewrite Hm. done. }
  assert (match find_missing_value_info b' with
          | [] => (b', find_missing_value_info b')
          | _ :: _ => _register_deterministic_parameters (find_missing_value_info b') b'
          end = (b', find_missing_value_info b')) as Hreg.
  { destruct (find_missing_value_info b') as [|m ms] eqn:Hfm; [done|].
    apply register_deterministic_parameters_no_flag. intros n Hn'. by apply Hmiss'. }
  destruct (find_missing_value_info b') as [|m ms] eqn:Hfm; [done|].
  rewrite Hreg.
  assert (filter (λ m0, negb (startswith m0 "conv_transpose_out")) (m :: ms) = []) as ->.
  { apply filter_nil_iff. intros x Hx. destruct (Hmiss' x Hx) as [_ ->]. auto. }
  done.
Qed.

Lemma build_subgraph_repeatable_witness :
  let b := add_node (mkNode "n0" "Not" ["x"] ["is_deterministic"] []) example_input in
  let r := _build_graph None true false b in
  ∃ g, _build_graph None true false r.1 = (r.1, Ok g).
Proof.
  eexists. apply (build_subgraph_repeatable None false
                    (add_node (mkNode "n0" "Not" ["x"] ["is_deterministic"] [])
                       example_input)).
  vm_compute. reflexivity.
Defined.

End BuilderCoverage.

(** ** Further properties of the scatter legalizer *)

Module ScatterCoverage.
Import Py Scatter ScatterProps ScatterProofs.

Lemma count_free_cons x slots :
  count_free (x :: slots) = (if decide (x = None) then 1 else 0) + count_free slots.
Proof. unfold count_free. rewrite filter_cons. by destruct (decide (x = None)). Qed.

Lemma count_free_insert slots : ∀ pos w,
  pos < length slots →
  count_free (<[pos := Some w]> slots)
  + match slots !! pos with Some None => 1 | _ => 0 end = count_free slots.
Proof.
  induction slots as [|x slots IH]; intros [|pos] w Hpos; simpl in *; try lia.
  - rewrite !count_free_cons. destruct x; simpl; repeat case_decide; try done; lia.
  - rewrite !count_free_cons. specialize (IH pos w). lia.
Qed.

Lemma place_window_sizes_spec uwd : ∀ ws res,
  length uwd = length ws →
  (∃ res', place_window_sizes res uwd ws = ShapeOk res'
           ∧ Forall (λ pos, pos < length res) uwd
           ∧ length res' = length res
           ∧ (∀ i, i ∉ uwd → res' !! i = res !! i)
           ∧ (∀ i, i ∈ uwd → ∃ w, res' !! i = Some (Some w))
           ∧ (NoDup uwd → ∀ j pos w,
                uwd !! j = Some pos → ws !! j = Some w → res' !! pos = Some (Some w))
           ∧ count_free res ≤ count_free res' + length uwd
           ∧ (fresh_positions res uwd → count_free res' + length uwd = count_free res)
           ∧ (¬ fresh_positions res uwd → count_free res' + length uwd > count_free res))
  ∨ (∃ pos, place_window_sizes res uwd ws = ShapeRaise (ResultIndexError pos)
            ∧ pos ∈ uwd ∧ length res ≤ pos).
Proof.
  induction uwd as [|pos uwd IH]; intros [|w ws] res Hlen; simpl in *; try done.
  - left. exists res. split_and!; try done; try lia.
    + intros i Hi. by apply elem_of_nil in Hi.
    + intros H. exfalso. apply H. split; [constructor|]. intros p Hp.
      by apply elem_of_nil in Hp.
  - destruct (pos <? length res)%nat eqn:Hpos.
    + apply Nat.ltb_lt in Hpos.
      pose proof (count_free_insert res pos w Hpos) as Hcount.
      destruct (IH ws (<[pos := Some w]> res)) as
        [(res' & -> & HF & Hl & Hout & Hin & Hval & Hle & Hfresh & Hstale)
        |(p & -> & Hp & Hge)]; [lia | |].
      * left. exists res'. rewrite length_insert in *. split_and!; try done.
        -- by constructor.
        -- intros i Hi. rewrite Hout; [|set_solver].
           apply list_lookup_insert_ne. set_solver.
        -- intros i Hi. destruct (decide (i ∈ uwd)) as [Hiu|Hiu]; [by apply Hin|].
           apply elem_of_cons in Hi as [->|Hi]; [|done].
           exists w. rewrite Hout; [|done]. by apply list_lookup_insert_eq.
        -- intros Hnd j p w' Hj Hw. apply NoDup_cons in Hnd as [Hni Hnd].
           destruct j as [|j]; simpl in *.
           ++ injection Hj as <-. injection Hw as <-. rewrite Hout; [|done].
              by apply list_lookup_insert_eq.
           ++ by apply (Hval Hnd j).
        -- destruct (res !! pos) as [[]|]; lia.
        -- intros [Hnd Hnone]. apply NoDup_cons in Hnd as [Hni Hnd].
           rewrite (Hnone pos) in Hcount by set_solver.
           rewrite <- Hcount, <- Hfresh; [lia|]. split; [done|].
           intros p Hp. rewrite list_lookup_insert_ne by set_solver.
           apply Hnone. set_solver.
        -- intros Hnot.
           destruct (res !! pos) as [[d|]|] eqn:Hnone; [lia| |lia].
           ++ assert (¬ fresh_positions (<[pos:=Some w]> res) uwd) as Hn.
              { intros [Hnd Hall]. apply Hnot. 
                assert (pos ∉ uwd) as Hni.
                { intros Hp. specialize (Hall pos Hp).
                  rewrite list_lookup_insert_eq in Hall by done. done. }
                split; [by constructor|].
                intros p [->|Hp]%elem_of_cons; [done|].
                specialize (Hall p Hp).
                rewrite list_lookup_insert_ne in Hall; [done|]. by intros ->. }
              specialize (Hstale Hn). lia.
      * right. exists p. rewrite length_insert in Hge. split_and!; try done. set_solver.
    + apply Nat.ltb_ge in Hpos. right. exists pos. split_and!; try done. set_solver.
Qed.

Lemma fill_batch_dims_spec res : ∀ batch,
  (count_free res ≤ length batch →
   ∃ r, fill_batch_dims res batch = ShapeOk r
        ∧ length r = length res
        ∧ (∀ i w, res !! i = Some (Some w) → r !! i = Some w)
        ∧ (∀ i, res !! i = Some None → r !! i = batch !! count_free (take i res)))
  ∧ (length batch < count_free res → fill_batch_dims res batch = ShapeRaise StopIteration).
Proof.
  induction res as [|x res IH]; intros batch.
  - split; [|unfold count_free; simpl; lia]. intros _. exists []. by split_and!.
  - rewrite count_free_cons. destruct x as [w|]; simpl.
    + destruct (IH batch) as [Hok Hstop]. split.
      * intros Hc. destruct (Hok Hc) as (r & -> & Hl & Hw & Hn).
        exists (w :: r). split_and!; [done | simpl; lia | |].
        -- intros [|i] w' Hi; simpl in *; [congruence | by apply Hw].
        -- intros [|i] Hi; [done|].
           change (take (S i) (Some w :: res)) with (Some w :: take i res).
           rewrite count_free_cons. simpl. by apply Hn.
      * intros Hc. by rewrite Hstop.
    + destruct batch as [|b batch]; simpl.
      * split; [lia | done].
      * destruct (IH batch) as [Hok Hstop]. split.
        -- intros Hc. destruct Hok as (r & -> & Hl & Hw & Hn); [lia|].
           exists (b :: r). split_and!; [done | simpl; lia | |].
           ++ intros [|i] w' Hi; simpl in *; [congruence | by apply Hw].
           ++ intros [|i] Hi; [done|].
              change (take (S i) (None :: res)) with (None :: take i res).
              rewrite count_free_cons. simpl. by apply Hn.
        -- intros Hc. rewrite Hstop; [done | lia].
Qed.

Lemma count_free_take (P : nat → Prop) `{∀ k, Decision (P k)} l : ∀ i,
  i ≤ length l →
  (∀ k, k < i → l !! k = Some None ↔ P k) →
  count_free (take i l) = length (filter P (seq 0 i)).
Proof.
  induction i as [|i IH]; intros Hi HP; [done|].
  destruct (lookup_lt_is_Some_2 l i) as [x Hx]; [lia|].
  rewrite (take_S_r _ _ _ Hx), seq_S. simpl.
  unfold count_free in *. rewrite !filter_app, !length_app, IH; [|lia|intros; apply HP; lia].
  f_equal. rewrite !filter_cons, !filter_nil.
  specialize (HP i). rewrite Hx in HP.
  destruct (decide (x = None)) as [->|Hne], (decide (P i)) as [Hp|Hp]; simpl; try done.
  - exfalso. apply Hp, HP; [lia | done].
  - exfalso. apply Hne. apply HP in Hp; [congruence | lia].
Qed.

Lemma count_free_replicate n : count_free (replicate n None) = n.
Proof.
  induction n as [|n IH]; [done|]. simpl. rewrite count_free_cons, IH. done.
Qed.

Lemma window_sizes_length dn op :
  length (omap (λ d, op !! d) (window_operand_dims dn op))
  = length (window_operand_dims dn op).
Proof.
  unfold window_operand_dims.
  assert (Forall (λ d, d < length op) (filter (λ d, d ∉ inserted_window_dims dn)
                                         (seq 0 (length op)))) as HF.
  { apply Forall_forall. intros d [_ Hd]%list_elem_of_filter.
    apply elem_of_seq in Hd. lia. }
  induction HF as [|d l Hd _ IH]; [done|]. simpl.
  destruct (lookup_lt_is_Some_2 op d Hd) as [x ->]. simpl. f_equal. exact IH.
Qed.

Lemma window_sizes_lookup dn op j d :
  window_operand_dims dn op !! j = Some d →
  omap (λ d, op !! d) (window_operand_dims dn op) !! j = op !! d.
Proof.
  unfold window_operand_dims.
  assert (Forall (λ d, d < length op) (filter (λ d, d ∉ inserted_window_dims dn)
                                         (seq 0 (length op)))) as HF.
  { apply Forall_forall. intros d' [_ Hd]%list_elem_of_filter.
    apply elem_of_seq in Hd. lia. }
  revert j. induction HF as [|d' l Hd _ IH]; intros j Hj; [done|]. simpl.
  destruct (lookup_lt_is_Some_2 op d' Hd) as [x Hx]. rewrite Hx. simpl.
  destruct j as [|j]; simpl in *; [congruence | by apply IH].
Qed.

Lemma fresh_replicate n uwd :
  Forall (λ pos, pos < n) uwd →
  fresh_positions (replicate n None) uwd ↔ NoDup uwd.
Proof.
  intros HF. split; [by intros [? _]|]. intros Hnd. split; [done|].
  intros p Hp. rewrite Forall_forall in HF. apply lookup_replicate_2. by apply HF.
Qed.

Lemma compute_expected_updates_shape_returns dnums operand_shape indices_shape :
  let window := window_operand_dims dnums operand_shape in
  let uwd := update_window_dims dnums in
  let updates_rank := length (removelast indices_shape) + length window in
  length window = length uwd → Forall (λ pos, pos < updates_rank) uwd → NoDup uwd →
  ∃ r, compute_expected_updates_shape dnums operand_shape indices_shape = ShapeOk r
       ∧ length r = updates_rank.
Proof.
  intros window uwd updates_rank.
  unfold compute_expected_updates_shape. fold window. fold uwd.
  pose proof (window_sizes_length dnums operand_shape) as Hws. fold window in Hws.
  rewrite Hws. fold updates_rank.
  intros Hlen HF Hnd. rewrite Hlen, Nat.eqb_refl. simpl.
  destruct (place_window_sizes_spec uwd (omap (λ d, operand_shape !! d) window)
              (replicate updates_rank None))
    as [(res' & -> & _ & Hl & _ & _ & _ & _ & Hfresh & _)|(pos & _ & Hp & Hge)]; [lia | |].
  + rewrite count_free_replicate in Hfresh.
    assert (count_free res' + length uwd = updates_rank) as Heq.
    { apply Hfresh. by rewrite fresh_replicate. }
    destruct (fill_batch_dims_spec res' (removelast indices_shape)) as [Hok _].
    destruct Hok as (r & -> & Hlr & _); [unfold updates_rank in Heq; lia|].
    exists r. split; [done|]. by rewrite Hlr, Hl, length_replicate.
  + rewrite length_replicate in Hge. rewrite Forall_forall in HF.
    specialize (HF pos Hp). lia.
Qed.

(** X1.  How [compute_expected_updates_shape] ends.  Let the window
    dimensions be the operand dimensions that are not inserted, and the rank
    of the updates the number of indices dimensions but the last plus the
    number of window dimensions.  If the number of window dimensions differs
    from the number of [update_window_dims], the function raises its error
    about inconsistent dimension numbers.  Otherwise, if some position of
    [update_window_dims] is not below the rank, it raises an [IndexError]
    for such a position; otherwise, if a position occurs twice, it raises
    [StopIteration]; otherwise it returns a shape of that rank. *)
Theorem compute_expected_updates_shape_outcome (dnums : ScatterDimensionNumbers)
    (operand_shape indices_shape : list dim) :
  let window := window_operand_dims dnums operand_shape in
  let uwd := update_window_dims dnums in
  let updates_rank := length (removelast indices_shape) + length window in
  (length window ≠ length uwd →
   compute_expected_updates_shape dnums operand_shape indices_shape
   = ShapeRaise (InconsistentScatterDnums (length window) (length uwd)))
  ∧ (length window = length uwd → ¬ Forall (λ pos, pos < updates_rank) uwd →
     ∃ pos, compute_expected_updates_shape dnums operand_shape indices_shape
            = ShapeRaise (ResultIndexError pos)
            ∧ pos ∈ uwd ∧ updates_rank ≤ pos)
  ∧ (length window = length uwd → Forall (λ pos, pos < updates_rank) uwd →
     ¬ NoDup uwd →
     compute_expected_updates_shape dnums operand_shape indices_shape
     = ShapeRaise StopIteration)
  ∧ (length window = length uwd → Forall (λ pos, pos < updates_rank) uwd →
     NoDup uwd →
     ∃ r, compute_expected_updates_shape dnums operand_shape indices_shape = ShapeOk r
          ∧ length r = updates_rank).
Proof.
  intros window uwd updates_rank.
  pose proof (window_sizes_length dnums operand_shape) as Hws. fold window in Hws.
  split_and!;
    [| | | exact (compute_expected_updates_shape_returns dnums operand_shape
                    indices_shape)];
    unfold compute_expected_updates_shape; fold window; fold uwd;
    rewrite Hws; fold updates_rank.
  - intros Hne. apply Nat.eqb_neq in Hne. by rewrite Hne.
  - intros Hlen Hout. rewrite Hlen, Nat.eqb_refl. simpl.
    destruct (place_window_sizes_spec uwd (omap (λ d, operand_shape !! d) window)
                (replicate updates_rank None))
      as [(res' & _ & HF & _)|(pos & -> & Hp & Hge)]; [lia | |].
    + rewrite length_replicate in HF. done.
    + rewrite length_replicate in Hge. eauto.
  - intros Hlen HF Hdup. rewrite Hlen, Nat.eqb_refl. simpl.
    destruct (place_window_sizes_spec uwd (omap (λ d, operand_shape !! d) window)
                (replicate updates_rank None))
      as [(res' & -> & _ & _ & _ & _ & _ & _ & _ & Hstale)|(pos & _ & Hp & Hge)]; [lia | |].
    + apply fill_batch_dims_spec.
      rewrite count_free_replicate in Hstale.
      assert (count_free res' + length uwd > updates_rank) as Hgt.
      { apply Hstale. by rewrite fresh_replicate. }
      unfold updates_rank in Hgt. lia.
    + rewrite length_replicate in Hge. rewrite Forall_forall in HF.
      specialize (HF pos Hp). lia.
Qed.

Lemma compute_expected_updates_shape_inv dnums operand_shape indices_shape r :
  compute_expected_updates_shape dnums operand_shape indices_shape = ShapeOk r →
  let window := window_operand_dims dnums operand_shape in
  let uwd := update_window_dims dnums in
  let batch_shape := removelast indices_shape in
  length window = length uwd
  ∧ NoDup uwd
  ∧ Forall (λ pos, pos < length batch_shape + length uwd) uwd
  ∧ length r = length batch_shape + length uwd
  ∧ (∀ j pos d, uwd !! j = Some pos → window !! j = Some d →
       r !! pos = operand_shape !! d)
  ∧ (∀ i, i < length r → i ∉ uwd →
       r !! i = batch_shape !! length (filter (λ k, k ∉ uwd) (seq 0 i))).
Proof.
  intros Hr window uwd batch_shape.
  unfold compute_expected_updates_shape in Hr. fold window uwd batch_shape in Hr.
  pose proof (window_sizes_length dnums operand_shape) as Hws. fold window in Hws.
  rewrite Hws in Hr.
  destruct (length window =? length uwd)%nat eqn:Hlen; [|done]. simpl in Hr.
  apply Nat.eqb_eq in Hlen. rewrite Hlen in Hr.
  set (rank := length batch_shape + length uwd) in *.
  destruct (place_window_sizes_spec uwd (omap (λ d, operand_shape !! d) window)
              (replicate rank None))
    as [(res' & Hp & HF & Hl & Hout & Hin & Hval & _ & Hfresh & Hstale)|(pos & Hp & _)];
    [lia | | by rewrite Hp in Hr].
  rewrite Hp in Hr. rewrite length_replicate in HF, Hl.
  rewrite count_free_replicate in Hfresh, Hstale.
  destruct (fill_batch_dims_spec res' batch_shape) as [Hok Hstop].
  destruct (decide (NoDup uwd)) as [Hnd|Hdup]; last first.
  { rewrite Hstop in Hr; [done|].
    assert (count_free res' + length uwd > rank); [|unfold rank in *; lia].
    apply Hstale. by rewrite fresh_replicate. }
  assert (count_free res' + length uwd = rank) as Hcount.
  { apply Hfresh. by rewrite fresh_replicate. }
  destruct Hok as (r' & Hr' & Hlr & Hw & Hn); [unfold rank in *; lia|].
  rewrite Hr' in Hr. injection Hr as <-.
  split_and!; try done; [lia | |].
  - intros j pos d Hj Hd.
    pose proof (window_sizes_lookup dnums operand_shape j d Hd) as Hwj.
    fold window in Hwj.
    destruct (lookup_lt_is_Some_2 (omap (λ d, operand_shape !! d) window) j) as [w Hwsj].
    { rewrite Hws, Hlen. by apply lookup_lt_Some in Hj. }
    rewrite <- Hwj, Hwsj. apply Hw. by apply (Hval Hnd j).
  - intros i Hi Hni. rewrite Hlr, Hl in Hi.
    assert (∀ k, k < rank → res' !! k = Some None ↔ k ∉ uwd) as Hfree.
    { intros k Hk. split.
      - intros Hnone Hku. destruct (Hin k Hku) as [w Hw']. congruence.
      - intros Hku. rewrite Hout by done. by apply lookup_replicate_2. }
    rewrite Hn by (by apply Hfree).
    f_equal. apply count_free_take; [lia|]. intros k Hk. apply Hfree. lia.
Qed.

(** X2.  When [compute_expected_updates_shape] returns a shape, the
    positions of [update_window_dims] are pairwise distinct and below the
    rank of the shape; the shape holds, at the j-th position of
    [update_window_dims], the size of the j-th operand dimension that is not
    inserted; and its other positions hold, in order, the dimensions of the
    indices but the last. *)
Theorem compute_expected_updates_shape_placement (dnums : ScatterDimensionNumbers)
    (operand_shape indices_shape r : list dim) :
  compute_expected_updates_shape dnums operand_shape indices_shape = ShapeOk r →
  NoDup (update_window_dims dnums)
  ∧ Forall (λ pos, pos < length r) (update_window_dims dnums)
  ∧ length r = length (removelast indices_shape) + length (update_window_dims dnums)
  ∧ (∀ j pos d,
       update_window_dims dnums !! j = Some pos →
       window_operand_dims dnums operand_shape !! j = Some d →
       r !! pos = operand_shape !! d)
  ∧ (∀ i, i < length r → i ∉ update_window_dims dnums →
       r !! i = removelast indices_shape
                !! length (filter (λ k, k ∉ update_window_dims dnums) (seq 0 i))).
Proof.
  intros Hr.
  destruct (compute_expected_updates_shape_inv _ _ _ _ Hr)
    as (_ & Hnd & HF & Hlen & Hwindow & Hbatch).
  split_and!; try done. by rewrite Hlen.
Qed.

Lemma compute_expected_updates_shape_placement_witness :
  NoDup (update_window_dims dnums_axis0)
  ∧ length [DInt 2; DInt 3]
    = length (removelast [DInt 2; DInt 1]) + length (update_window_dims dnums_axis0).
Proof.
  pose proof (compute_expected_updates_shape_placement dnums_axis0
                [DInt 5; DInt 3] [DInt 2; DInt 1] [DInt 2; DInt 3] eq_refl) as H.
  exact (conj (proj1 H) (proj1 (proj2 (proj2 H)))).
Defined.

Example compute_expected_updates_shape_examples :
  compute_expected_updates_shape dnums_axis0 [DInt 5; DInt 3] [DInt 2; DInt 1]
  = ShapeOk [DInt 2; DInt 3]
  ∧ compute_expected_updates_shape (mkDnums [0] [0] [0] [] [])
      [DInt 5; DInt 3] [DInt 2; DInt 1]
    = ShapeOk [DInt 3; DInt 2]
  ∧ compute_expected_updates_shape (mkDnums [1] [] [0] [] [])
      [DInt 5; DInt 3] [DInt 2; DInt 1]
    = ShapeRaise (InconsistentScatterDnums 2 1)
  ∧ compute_expected_updates_shape (mkDnums [2] [0] [0] [] [])
      [DInt 5; DInt 3] [DInt 2; DInt 1]
    = ShapeRaise (ResultIndexError 2)
  ∧ compute_expected_updates_shape (mkDnums [1; 1] [] [0] [] [])
      [DInt 5; DInt 3] [DInt 2; DInt 1]
    = ShapeRaise StopIteration.
Proof. by vm_compute. Qed.

Lemma filter_all {A} (P : A → Prop) `{∀ x, Decision (P x)} (l : list A) :
  Forall P l → filter P l = l.
Proof.
  induction 1 as [|x l Hx _ IH]; [done|]. by rewrite filter_cons_True, IH.
Qed.

Lemma filter_none {A} (P : A → Prop) `{∀ x, Decision (P x)} (l : list A) :
  Forall (λ x, ¬ P x) l → filter P l = [].
Proof.
  induction 1 as [|x l Hx _ IH]; [done|]. by rewrite filter_cons_False, IH.
Qed.

Lemma window_operand_dims_leading dnums operand_shape K :
  inserted_window_dims dnums = seq 0 K → K ≤ length operand_shape →
  window_operand_dims dnums operand_shape = seq K (length operand_shape - K).
Proof.
  intros Hiwd HK. unfold window_operand_dims. rewrite Hiwd.
  replace (length operand_shape) with (K + (length operand_shape - K)) at 1 by lia.
  rewrite seq_app, filter_app. simpl.
  rewrite filter_none, filter_all; [done | |].
  - apply Forall_forall. intros d Hd Hd'. apply elem_of_seq in Hd, Hd'. lia.
  - apply Forall_forall. intros d Hd Hd'. by apply Hd'.
Qed.

(** X3.  In the layout of [ScatterND], where the first [K] operand
    dimensions are the inserted ones, the update window dimensions are the
    trailing positions of the updates and the last dimension of the indices
    is the integer [K], [compute_expected_updates_shape] returns the
    dimensions of the indices but the last, followed by the operand
    dimensions from [K] on; this is also the shape that the default path of
    the legalizer expects of the updates. *)
Theorem compute_expected_updates_shape_canonical (dnums : ScatterDimensionNumbers)
    (operand_shape indices_shape : list dim) (K : nat) :
  inserted_window_dims dnums = seq 0 K →
  update_window_dims dnums
  = seq (length (removelast indices_shape)) (length operand_shape - K) →
  K ≤ length operand_shape →
  last indices_shape = Some (DInt (Z.of_nat K)) →
  compute_expected_updates_shape dnums operand_shape indices_shape
  = ShapeOk (removelast indices_shape ++ drop K operand_shape)
  ∧ expected_updates_shape_default indices_shape operand_shape
    = Ok (removelast indices_shape ++ drop K operand_shape).
Proof.
  intros Hiwd Huwd HK Hlast.
  pose proof (window_operand_dims_leading dnums operand_shape K Hiwd HK) as Hwin.
  set (batch := removelast indices_shape) in *.
  set (nw := length operand_shape - K) in *.
  split.
  - destruct (compute_expected_updates_shape_returns dnums operand_shape indices_shape)
      as (r & Hr & Hlr).
    { rewrite Hwin, Huwd, !length_seq. done. }
    { rewrite Hwin, Huwd, length_seq. apply Forall_forall. intros pos Hpos.
      apply elem_of_seq in Hpos. fold batch nw in Hpos. fold batch nw. lia. }
    { rewrite Huwd. apply NoDup_seq. }
    rewrite Hr. f_equal.
    destruct (compute_expected_updates_shape_inv _ _ _ _ Hr)
      as (_ & _ & _ & Hlen & Hwindow & Hbatch).
    rewrite Hwin, Huwd in Hwindow. rewrite Huwd in Hbatch, Hlen.
    fold batch nw in Hwindow, Hbatch, Hlen. rewrite length_seq in Hlen.
    apply list_eq. intros i.
    destruct (decide (i < length batch)) as [Hi|Hi].
    + rewrite lookup_app_l by done. rewrite Hbatch.
      * f_equal. rewrite filter_all; [by rewrite length_seq|].
        apply Forall_forall. intros k Hk Hk'. apply elem_of_seq in Hk, Hk'. lia.
      * lia.
      * intros Hi'. apply elem_of_seq in Hi'. lia.
    + rewrite lookup_app_r by lia. rewrite lookup_drop.
      destruct (decide (i < length batch + nw)) as [Hi'|Hi'].
      * rewrite (Hwindow (i - length batch) i (K + (i - length batch))).
        -- done.
        -- rewrite lookup_seq. split; lia.
        -- rewrite lookup_seq. split; lia.
      * rewrite !lookup_ge_None_2; [done | | lia].
        unfold nw in Hi'. lia.
  - unfold expected_updates_shape_default. rewrite Hlast. simpl.
    replace (Z.of_nat K <? 0)%Z with false by (symmetry; apply Z.ltb_ge; lia).
    replace (Z.of_nat K <=? Z.of_nat (length operand_shape))%Z with true
      by (symmetry; apply Z.leb_le; lia).
    by rewrite Nat2Z.id.
Qed.

Lemma compute_expected_updates_shape_canonical_witness :
  compute_expected_updates_shape dnums_axis0 [DInt 5; DInt 3] [DInt 2; DInt 1]
  = ShapeOk (removelast [DInt 2; DInt 1] ++ drop 1 [DInt 5; DInt 3])
  ∧ expected_updates_shape_default [DInt 2; DInt 1] [DInt 5; DInt 3]
    = Ok (removelast [DInt 2; DInt 1] ++ drop 1 [DInt 5; DInt 3]).
Proof.
  apply (compute_expected_updates_shape_canonical dnums_axis0
           [DInt 5; DInt 3] [DInt 2; DInt 1] 1); [reflexivity | reflexivity | | reflexivity].
  simpl. lia.
Defined.

Lemma are_dims_equal_sym s d1 d2 r :
  _are_dims_equal d1 d2 s = Ok r → _are_dims_equal d2 d1 s = Ok r.
Proof.
  unfold _are_dims_equal.
  destruct (_is_dim_symbolic d1 s) eqn:E1, (_is_dim_symbolic d2 s) eqn:E2; simpl; try done.
  - intros [= <-]. f_equal. unfold py_is. destruct d1, d2; try done.
    apply bool_decide_ext. naive_solver.
  - destruct (py_int d1) as [i1|], (py_int d2) as [i2|]; simpl; try done.
    intros [= <-]. by rewrite Z.eqb_sym.
Qed.

Lemma are_dims_equal_refl s d r :
  _are_dims_equal d d s = Ok r → r = true.
Proof.
  unfold _are_dims_equal.
  destruct (_is_dim_symbolic d s) eqn:E1; simpl.
  - intros [= <-]. destruct d; simpl in *; try done. by apply bool_decide_eq_true.
  - destruct (py_int d) as [i1|]; simpl; try done.
    intros [= <-]. by rewrite Z.eqb_refl.
Qed.

(** X4.  [_are_shapes_equal] is symmetric: when it returns for two shapes
    it returns the same for the two shapes in the other order.  When it
    returns for a shape and the shape itself it returns [True].  For shapes
    of different lengths it returns [False], without comparing (and so
    without converting) any dimension. *)
Theorem are_shapes_equal_symmetric (s : Jaxpr2OnnxConverter) (shape1 shape2 : list dim) :
  (∀ r, _are_shapes_equal shape1 shape2 s = Ok r → _are_shapes_equal shape2 shape1 s = Ok r)
  ∧ (∀ r, _are_shapes_equal shape1 shape1 s = Ok r → r = true)
  ∧ (length shape1 ≠ length shape2 → _are_shapes_equal shape1 shape2 s = Ok false).
Proof.
  split_and!.
  - intros r. unfold _are_shapes_equal. rewrite (Nat.eqb_sym (length shape2)).
    destruct (length shape1 =? length shape2)%nat; simpl; [|done].
    revert shape2. induction shape1 as [|d1 l1 IH]; intros [|d2 l2]; simpl; try done.
    destruct (_are_dims_equal d1 d2 s) as [b|] eqn:Hd; simpl; [|done].
    rewrite (are_dims_equal_sym _ _ _ _ Hd). simpl. destruct b; simpl; [apply IH | done].
  - intros r. unfold _are_shapes_equal. rewrite Nat.eqb_refl. simpl.
    induction shape1 as [|d1 l1 IH]; simpl; [by intros [= <-]|].
    destruct (_are_dims_equal d1 d1 s) as [b|] eqn:Hd; simpl; [|done].
    apply are_dims_equal_refl in Hd as ->. simpl. apply IH.
  - intros Hne. unfold _are_shapes_equal. apply Nat.eqb_neq in Hne. by rewrite Hne.
Qed.

Lemma make_concrete_from_Raise shp s ctx rest : ∀ i e,
  make_concrete_from shp s ctx i rest = Raise e →
  ∃ k d, e = CannotMakeConcrete ctx shp d (i + k)
         ∧ rest !! k = Some d ∧ concrete_value s d = None
         ∧ ∀ j d', j < k → rest !! j = Some d' → is_Some (concrete_value s d').
Proof.
  induction rest as [|d rest IH]; intros i e; [done|].
  rewrite make_concrete_from_unfold.
  destruct (concrete_value s d) as [v|] eqn:Hd.
  - destruct (make_concrete_from shp s ctx (S i) rest) as [vs|e'] eqn:Hr; [done|].
    intros [= <-]. destruct (IH _ _ Hr) as (k & d' & -> & Hk & Hnone & Hbefore).
    exists (S k), d'. split_and!; try done; [f_equal; lia|].
    intros [|j] d'' Hj Hd''; simpl in *; [by injection Hd'' as <-; rewrite Hd|].
    apply (Hbefore j); [lia | done].
  - intros [= <-]. exists 0, d. rewrite Nat.add_0_r. split_and!; try done. lia.
Qed.

(** X5.  When [_make_shape_concrete_for_prod] returns, the tuple has the
    length of the shape and holds, at the position of every Python or NumPy
    integer of the shape, the value of that integer.  When it raises, the
    error names the context, the whole shape and the first dimension that
    has no concrete value, with its index: an object for which the converter
    has no value and which is not a literal integer; every dimension before
    it has a concrete value.  It returns exactly when every dimension has a
    concrete value. *)
Theorem make_shape_concrete_for_prod_spec (shp : list dim) (s : Jaxpr2OnnxConverter)
    (context_msg : string) :
  (∀ l, _make_shape_concrete_for_prod shp s context_msg = Ok l →
     length l = length shp
     ∧ ∀ i z, shp !! i = Some (DInt z) ∨ shp !! i = Some (DNpInt z) → l !! i = Some z)
  ∧ (∀ e, _make_shape_concrete_for_prod shp s context_msg = Raise e →
     ∃ i o, e = CannotMakeConcrete context_msg shp (DObj o) i
            ∧ shp !! i = Some (DObj o)
            ∧ concrete_value s (DObj o) = None
            ∧ ∀ j d, j < i → shp !! j = Some d → is_Some (concrete_value s d))
  ∧ (Forall (λ d, is_Some (concrete_value s d)) shp ↔
     ∃ l, _make_shape_concrete_for_prod shp s context_msg = Ok l).
Proof.
  unfold _make_shape_concrete_for_prod. split_and!.
  - intros l Hl. apply make_concrete_from_Ok in Hl.
    split; [symmetry; by eapply Forall2_length|].
    intros i z Hi.
    assert (∃ d, shp !! i = Some d ∧ concrete_value s d = Some z) as (d & Hd & Hz).
    { destruct Hi as [Hi|Hi]; eauto. }
    destruct (Forall2_lookup_l _ _ _ _ _ Hl Hd) as (z' & Hz' & Hc). congruence.
  - intros e He. apply make_concrete_from_Raise in He as (k & d & -> & Hk & Hnone & Hb).
    destruct d as [z|z|o]; [done | done |]. exists k, o. by split_and!.
  - split.
    + intros HF. 
      destruct (make_concrete_from_cases shp s context_msg shp 0)
        as [?|(d & j & _ & Hd & Hnone)]; [done|].
      rewrite Forall_forall in HF. destruct (HF d Hd) as [? ?]. congruence.
    + intros [l Hl]. apply make_concrete_from_Ok in Hl.
      apply Forall_forall. intros d Hd.
      apply list_elem_of_lookup in Hd as [i Hi].
      destruct (Forall2_lookup_l _ _ _ _ _ Hl Hi) as (z' & Hz' & Hc). by exists z'.
Qed.

Lemma are_dims_equal_int_dim s k :
  _are_dims_equal (int_dim k) (int_dim k) s = Ok true.
Proof. unfold _are_dims_equal, int_dim. simpl. by rewrite Z.eqb_refl. Qed.

Lemma try_except_ValueError_Ok {A} (m : result A) h (P : A → Prop) r :
  try_except_ValueError m h = Ok r →
  (∀ a, m = Ok a → P a) → (∀ e a, h e = Ok a → P a) → P r.
Proof.
  destruct m as [a|e]; simpl.
  - intros [= <-] H _. by apply H.
  - destruct (is_ValueError e); [|done]. intros H _ H'. by eapply H'.
Qed.

(** X6.  Whatever the shape of the indices, the target shape that the
    legalizer infers for them, when it infers one, has exactly two
    dimensions, and the second equals the index depth [K] in the sense of
    [_are_dims_equal]. *)
Theorem target_indices_shape_is_N_by_K (s : Jaxpr2OnnxConverter)
    (current_indices_shape_symbolic : list dim) (index_depth_k : nat) (t : list dim) :
  target_indices_shape current_indices_shape_symbolic index_depth_k s = Ok t →
  ∃ n d, t = [n; d] ∧ _are_dims_equal d (int_dim index_depth_k) s = Ok true.
Proof.
  unfold target_indices_shape.
  set (cur := current_indices_shape_symbolic). set (k := index_depth_k).
  pose proof (are_dims_equal_int_dim s k) as HK.
  destruct (is_nil cur) eqn:Hnil.
  { intros [= <-]. eexists _, _. split; [done|].
    destruct k; [done | apply (are_dims_equal_int_dim s (S k))]. }
  destruct (and_then _ _) as [c1|] eqn:Hc1; cbn [rbind]; [|done].
  destruct c1; cbv iota.
  { intros H. injection H as H. subst t. eauto. }
  clear Hc1.
  destruct (and_then (_ && _) _) as [c2|] eqn:Hc2; cbn [rbind]; [|done].
  destruct c2; cbv iota.
  { destruct (is_nil (removelast cur)); cbv iota.
    { intros H. injection H as H. subst t. eauto. }
    intros H.
    apply (try_except_ValueError_Ok _ _
             (λ t, ∃ n d, t = [n; d] ∧ _are_dims_equal d (int_dim k) s = Ok true) _ H).
    - intros a Ha. destruct (_make_shape_concrete_for_prod _ _ _); simpl in Ha; [|done].
      injection Ha as Ha. subst a. eauto.
    - intros e a Ha. injection Ha as Ha. subst a. eauto. }
  clear Hc2.
  destruct ((k =? 0)%nat && (length cur =? 1)%nat) eqn:Hk0.
  { apply andb_true_iff in Hk0 as [Hk0 _]. apply Nat.eqb_eq in Hk0.
    destruct (py_index cur 0) as [d|]; cbn [rbind]; [|done].
    intros H. injection H as H. subst t.
    eexists _, _. split; [done|]. by rewrite Hk0. }
  destruct (and_then (length cur =? 2)%nat _) as [c3|] eqn:Hc3; cbn [rbind]; [|done].
  destruct c3; cbv iota.
  { intros H. injection H as H. subst t. unfold and_then in Hc3.
    destruct (length cur =? 2)%nat eqn:Hlen; [|done]. apply Nat.eqb_eq in Hlen.
    destruct cur as [|a [|b [|c cur']]]; simpl in Hlen; try lia.
    simpl in Hc3. eauto. }
  destruct (try_except_ValueError _ _) as [n|]; cbn [rbind]; [|done].
  intros H. injection H as H. subst t. eauto.
Qed.

Lemma target_indices_shape_is_N_by_K_witness :
  ∃ n d, [DNpInt 6; DInt 1] = [n; d]
         ∧ _are_dims_equal d (int_dim 1) plain_converter = Ok true.
Proof.
  apply (target_indices_shape_is_N_by_K plain_converter
           [DInt 2; DInt 3; DInt 1] 1 [DNpInt 6; DInt 1]).
  reflexivity.
Defined.

Lemma bind_Ok_inv {A B} (m : M A) (k : A → M B) st st' r :
  bind m k st = (st', Ok r) → ∃ st1 a, m st = (st1, Ok a) ∧ k a st1 = (st', Ok r).
Proof.
  unfold bind. destruct (m st) as [st1 [a|e]]; [eauto | done].
Qed.

(** X7.  Whenever [_prepare_scatter_inputs_for_onnx] returns, the first
    of the three names it returns is the name of the operand it was given:
    no path of the legalizer replaces the operand. *)
Theorem prepare_scatter_keeps_operand (s : Jaxpr2OnnxConverter)
    (operand_v indices_v updates_v : Var) (dimension_numbers : ScatterDimensionNumbers)
    (st st' : ConverterState) (operand_name indices_name updates_name : string) :
  _prepare_scatter_inputs_for_onnx s operand_v indices_v updates_v dimension_numbers st
  = (st', Ok (operand_name, indices_name, updates_name)) →
  operand_name = get_name operand_v.
Proof.
  unfold _prepare_scatter_inputs_for_onnx. intros H.
  repeat (apply bind_Ok_inv in H as (? & ? & _ & H)).
  match type of H with (if ?c then _ else _) _ = _ => destruct c end;
    apply bind_Ok_inv in H as (? & ? & _ & H); by injection H as _ <- _ _.
Qed.

Lemma prepare_scatter_keeps_operand_witness : "op" = get_name operand_5_3.
Proof.
  apply (prepare_scatter_keeps_operand plain_converter operand_5_3 indices_2_1
           updates_2_1_3 dnums_axis0 empty_state
           (_prepare_scatter_inputs_for_onnx plain_converter operand_5_3 indices_2_1
              updates_2_1_3 dnums_axis0 empty_state).1
           "op" "idx" "upd_squeezed_default_0").
  vm_compute. reflexivity.
Defined.

Lemma to_symbolic_tuple_no_hook s sh :
  _dim_to_symbol_safe s = None → to_symbolic_tuple sh s = Ok sh.
Proof. intros H. destruct sh; simpl; by rewrite H. Qed.

Lemma are_shapes_equal_ints s (l : list Z) :
  _are_shapes_equal (map DInt l) (map DInt l) s = Ok true.
Proof.
  apply are_shapes_equal_iff. induction l as [|z l IH]; simpl; constructor; [|done].
  unfold _are_dims_equal. simpl. by rewrite Z.eqb_refl.
Qed.

Lemma reshape_indices_same s name cur target st :
  _are_shapes_equal cur target s = Ok true →
  reshape_indices s name cur target st
  = (_manually_ensure_shape_env_entry s name target Builder.np_int64 st, Ok name).
Proof. intros H. unfold reshape_indices. by rewrite H. Qed.

Lemma default_updates_same s dn opn osh idxn idxsh updn ush dt expected st :
  _are_shapes_equal ush expected s = Ok true →
  default_updates s dn opn osh idxn idxsh updn ush dt expected st
  = (_manually_ensure_shape_env_entry s updn expected dt st, Ok updn).
Proof. intros H. unfold default_updates. by rewrite H. Qed.

Lemma ensure_entry_fields s name shape dt st :
  let st' := _manually_ensure_shape_env_entry s name shape dt st in
  nodes st' = nodes st ∧ constants st' = constants st
  ∧ name_counters st' = name_counters st.
Proof. done. Qed.

Lemma target_indices_shape_N_K s (n : Z) (K : nat) :
  0 < K →
  target_indices_shape [DInt n; DInt (Z.of_nat K)] K s
  = Ok [DNpInt (wrap_int64 n); int_dim K].
Proof.
  intros HK. unfold target_indices_shape.
  assert (_are_dims_equal (DInt (Z.of_nat K)) (int_dim K) s = Ok true) as Heq.
  { unfold _are_dims_equal, int_dim. simpl. by rewrite Z.eqb_refl. }
  cbn [is_nil length Nat.eqb andb and_then rbind].
  replace (0 <? K)%nat with true by (symmetry; apply Nat.ltb_lt; lia).
  cbn [andb Nat.ltb Nat.leb and_then py_last last rbind]. rewrite Heq.
  cbn [rbind removelast is_nil]. unfold _make_shape_concrete_for_prod.
  cbn. unfold np_prod. simpl. by destruct n.
Qed.

Lemma use_depth2_rank2_indices dn osh ush (a b : dim) s :
  use_depth2_for_batched_window_scatter dn osh ush [a; b] s = Ok false.
Proof.
  unfold use_depth2_for_batched_window_scatter.
  cbn [is_nil]. unfold _are_shapes_equal at 1. cbn [length Nat.eqb negb].
  by destruct (_ && _).
Qed.

(** X8.  Inputs that are already in the form of [ScatterND] pass through
    unchanged.  With a converter that has no [_dim_to_symbol_safe], [int64]
    indices of integer shape [(n, K)], [K > 0] the number of scatter
    dimensions, an operand of integer shape of rank at least [K] and
    updates of the shape [(n,)] followed by the operand dimensions from [K]
    on, the legalizer returns the three names it was given, emits no node,
    interns no constant and allocates no name. *)
Theorem prepare_scatter_canonical_inputs_pass_through (s : Jaxpr2OnnxConverter)
    (operand_v indices_v updates_v : Var) (dimension_numbers : ScatterDimensionNumbers)
    (st : ConverterState) (operand_dims : list Z) (n : Z) :
  let K := length (scatter_dims_to_operand_dims dimension_numbers) in
  _dim_to_symbol_safe s = None →
  aval_dtype indices_v = Builder.np_int64 →
  0 < K ≤ length operand_dims →
  (- 2 ^ 63 ≤ n < 2 ^ 63)%Z →
  aval_shape operand_v = map DInt operand_dims →
  aval_shape indices_v = [DInt n; DInt (Z.of_nat K)] →
  aval_shape updates_v = map DInt (n :: drop K operand_dims) →
  ∃ st',
    _prepare_scatter_inputs_for_onnx s operand_v indices_v updates_v dimension_numbers st
    = (st', Ok (get_name operand_v, get_name indices_v, get_name updates_v))
    ∧ nodes st' = nodes st
    ∧ constants st' = constants st
    ∧ name_counters st' = name_counters st.
Proof.
  intros K Hhook Hdt HK Hn Hop Hidx Hupd.
  unfold _prepare_scatter_inputs_for_onnx. cbv zeta. fold K.
  rewrite !to_symbolic_tuple_no_hook by done.
  rewrite Hop, Hidx, Hupd, Hdt.
  rewrite bind_lift_Ok, bind_ensure_entry, bind_lift_Ok, bind_ensure_entry.
  rewrite (bind_run _ _ _ _ _ eq_refl).
  rewrite target_indices_shape_N_K by lia.
  rewrite wrap_int64_small by done.
  rewrite bind_lift_Ok.
  assert (_are_shapes_equal [DInt n; DInt (Z.of_nat K)] [DNpInt n; int_dim K] s
          = Ok true) as Hsame.
  { apply are_shapes_equal_iff. repeat constructor;
      unfold _are_dims_equal, int_dim; simpl; by rewrite Z.eqb_refl. }
  rewrite (bind_run _ _ _ _ _ (reshape_indices_same _ _ _ _ _ Hsame)).
  rewrite bind_lift_Ok, bind_ensure_entry.
  assert (expected_updates_shape_default [DNpInt n; int_dim K] (map DInt operand_dims)
          = Ok (DNpInt n :: map DInt (drop K operand_dims))) as Hexp.
  { unfold expected_updates_shape_default, int_dim. simpl.
    replace (Z.of_nat K <? 0)%Z with false by (symmetry; apply Z.ltb_ge; lia).
    replace (Z.of_nat K <=? Z.of_nat (length (map DInt operand_dims)))%Z with true
      by (symmetry; apply Z.leb_le; rewrite length_map; lia).
    by rewrite Nat2Z.id, <- fmap_drop. }
  rewrite Hexp, bind_lift_Ok, use_depth2_rank2_indices, bind_lift_Ok.
  cbv iota.
  assert (_are_shapes_equal (map DInt (n :: drop K operand_dims))
            (DNpInt n :: map DInt (drop K operand_dims)) s = Ok true) as Hupd_same.
  { apply are_shapes_equal_iff. simpl. constructor.
    - unfold _are_dims_equal. simpl. by rewrite Z.eqb_refl.
    - apply are_shapes_equal_iff, are_shapes_equal_ints. }
  rewrite (bind_run _ _ _ _ _ (default_updates_same _ _ _ _ _ _ _ _ _ _ _ Hupd_same)).
  eexists. split; [reflexivity|]. done.
Qed.

Lemma prepare_scatter_canonical_inputs_pass_through_witness :
  ∃ st',
    _prepare_scatter_inputs_for_onnx plain_converter operand_5_3 indices_2_1
      updates_2_3 dnums_axis0 empty_state
    = (st', Ok (get_name operand_5_3, get_name indices_2_1, get_name updates_2_3))
    ∧ nodes st' = nodes empty_state
    ∧ constants st' = constants empty_state
    ∧ name_counters st' = name_counters empty_state.
Proof.
  apply (prepare_scatter_canonical_inputs_pass_through plain_converter operand_5_3
           indices_2_1 updates_2_3 dnums_axis0 empty_state [5; 3]%Z 2%Z);
    [reflexivity | reflexivity | simpl; lia | lia | reflexivity..].
Defined.

Lemma target_indices_shape_cases s cur k t :
  target_indices_shape cur k s = Ok t →
  (∃ n z, t = [n; DInt z]) ∨ t = cur.
Proof.
  unfold target_indices_shape.
  destruct (is_nil cur) eqn:Hnil.
  { intros H. injection H as H. subst t. left. destruct (0 <? k)%nat; eauto. }
  destruct (and_then _ _) as [c1|] eqn:Hc1; cbn [rbind]; [|done].
  destruct c1; cbv iota.
  { intros H. injection H as H. subst t. left. unfold int_dim. eauto. }
  clear Hc1.
  destruct (and_then (_ && _) _) as [c2|] eqn:Hc2; cbn [rbind]; [|done].
  destruct c2; cbv iota.
  { destruct (is_nil (removelast cur)); cbv iota.
    { intros H. injection H as H. subst t. left. unfold int_dim. eauto. }
    intros H.
    apply (try_except_ValueError_Ok _ _
             (λ t, (∃ n z, t = [n; DInt z]) ∨ t = cur) _ H).
    - intros a Ha. destruct (_make_shape_concrete_for_prod _ _ _); simpl in Ha; [|done].
      injection Ha as Ha. subst a. left. unfold int_dim. eauto.
    - intros e a Ha. injection Ha as Ha. subst a. left. unfold int_dim. eauto. }
  clear Hc2.
  destruct ((k =? 0)%nat && (length cur =? 1)%nat) eqn:Hk0.
  { destruct (py_index cur 0) as [d|]; cbn [rbind]; [|done].
    intros H. injection H as H. subst t. left. eauto. }
  destruct (and_then (length cur =? 2)%nat _) as [c3|] eqn:Hc3; cbn [rbind]; [|done].
  destruct c3; cbv iota.
  { intros H. injection H as H. subst t. by right. }
  destruct (try_except_ValueError _ _) as [n|]; cbn [rbind]; [|done].
  intros H. injection H as H. subst t. left. unfold int_dim. eauto.
Qed.

Lemma are_shapes_equal_refl s shape r :
  _are_shapes_equal shape shape s = Ok r → r = true.
Proof.
  unfold _are_shapes_equal. rewrite Nat.eqb_refl. simpl.
  induction shape as [|d1 l1 IH]; simpl; [by intros [= <-]|].
  destruct (_are_dims_equal d1 d1 s) as [b|] eqn:Hd; simpl; [|done].
  apply are_dims_equal_refl in Hd as ->. simpl. apply IH.
Qed.

(** X19.  Whenever the legalizer has to reshape the indices, that is,
    whenever the target shape it inferred differs from the shape of the
    indices, that target has two dimensions of which the second is a Python
    integer, so that the operand of the [Reshape] can be built: it holds the
    first dimension, or [-1] where that is not a Python integer, and the
    second.  The error for a target that cannot be built is not raised
    for the indices. *)
Theorem indices_reshape_target_always_built (s : Jaxpr2OnnxConverter)
    (current_indices_shape_symbolic : list dim) (index_depth_k : nat) (t : list dim) :
  target_indices_shape current_indices_shape_symbolic index_depth_k s = Ok t →
  _are_shapes_equal current_indices_shape_symbolic t s = Ok false →
  ∃ n z,
    t = [n; DInt z]
    ∧ reshape_target_list "reshape_target_indices_dim_" (CannotCreateReshapeTarget t)
        s 0 false t
      = Ok [match n with DInt v => v | _ => (-1)%Z end; z].
Proof.
  intros Ht Hne.
  destruct (target_indices_shape_cases _ _ _ _ Ht) as [(n & z & ->)| ->].
  - exists n, z. split; [done|]. by destruct n.
  - by apply are_shapes_equal_refl in Hne.
Qed.

Lemma indices_reshape_target_always_built_witness :
  ∃ n z,
    [DNpInt 6; DInt 1] = [n; DInt z]
    ∧ reshape_target_list "reshape_target_indices_dim_"
        (CannotCreateReshapeTarget [DNpInt 6; DInt 1]) plain_converter 0 false
        [DNpInt 6; DInt 1]
      = Ok [match n with DInt v => v | _ => (-1)%Z end; z].
Proof.
  apply (indices_reshape_target_always_built plain_converter
           [DInt 2; DInt 3; DInt 1] 1 [DNpInt 6; DInt 1]); reflexivity.
Defined.

End ScatterCoverage.
